(** * The async worker of src/async/async_worker.c

    A shallow embedding of the four static functions of the file
    ([__async_flush_wait], [__async_worker_cursor], [__async_worker_execop],
    [__async_worker_op]) and of the thread body [__wt_async_worker], and the
    properties of the dispatcher checked against them.

    The storage engine, the session layer and the user callbacks are not
    part of the file: they are reached through [wt_internal.h].  Everything
    the file takes from that header is collected in the record
    [wt_internal]; every function below is parametric in it.  Calls into the
    engine thread an opaque engine state and are recorded, in program order,
    in a trace of events. *)

From Stdlib Require Import ZArith Ascii String List Bool Lia.
From stdpp Require Import base option list gmap relations finite.
Import ListNotations.
Local Open Scope Z_scope.

Set Default Proof Using "Type".

(** ** Data model *)

(** A [WT_ITEM] is a byte buffer. *)
Definition WT_ITEM := list Byte.byte.

(** Pointers: a session handle, an engine cursor ([WT_CURSOR *], [NULL] is
    [0]), the address of a queued op ([WT_ASYNC_OP_IMPL *]) and a callback
    function pointer. *)
Definition SESSION := Z.
Definition CURSOR := Z.
Definition OPADDR := Z.
Definition NOTIFY_FN := Z.
Definition NULL : Z := 0.

(** The fields of the [WT_CURSOR] embedded in an async op ([asyncop->c])
    that the worker touches. *)
Record WT_CURSOR := mkCursor {
  cur_key : WT_ITEM;
  cur_value : WT_ITEM;
  cur_flags : Z
}.

(** [op->format]: uri and config strings with their precomputed hashes
    ([uint64_t]). *)
Record WT_ASYNC_FORMAT := mkFormat {
  uri : string;
  config : string;
  uri_hash : Z;
  cfg_hash : Z
}.

(** [op->cb]: a callback object whose [notify] member may be [NULL]. *)
Record WT_ASYNC_CALLBACK := mkCallback {
  notify : option NOTIFY_FN
}.

(** [op->state]; the three values the file names. *)
Inductive WT_ASYNC_STATE :=
| WT_ASYNCOP_ENQUEUED
| WT_ASYNCOP_FREE
| WT_ASYNCOP_WORKING.

(** [op->optype] is an [int]; the four kinds the switch of
    [__async_worker_execop] names, and any other value. *)
Inductive WT_ASYNC_OPTYPE :=
| WT_AOP_INSERT
| WT_AOP_UPDATE
| WT_AOP_REMOVE
| WT_AOP_SEARCH
| WT_AOP_OTHER (n : Z).

(** [WT_ASYNC_OP_IMPL].  [op->format] is asserted non-NULL on entry of
    [__async_worker_cursor] and is held by value; [op->cb] may be [NULL]. *)
Record WT_ASYNC_OP_IMPL := mkOp {
  op_c : WT_CURSOR;
  op_format : WT_ASYNC_FORMAT;
  op_state : WT_ASYNC_STATE;
  op_optype : WT_ASYNC_OPTYPE;
  op_cb : option WT_ASYNC_CALLBACK
}.

Definition set_op_state (st : WT_ASYNC_STATE) (op : WT_ASYNC_OP_IMPL) :=
  mkOp (op_c op) (op_format op) st (op_optype op) (op_cb op).

Definition set_op_c (c : WT_CURSOR) (op : WT_ASYNC_OP_IMPL) :=
  mkOp c (op_format op) (op_state op) (op_optype op) (op_cb op).

(** [WT_ASYNC_CURSOR]: one entry of a worker's cursor cache. *)
Record WT_ASYNC_CURSOR := mkAc {
  ac_cfg_hash : Z;
  ac_uri_hash : Z;
  ac_c : CURSOR
}.

(** [WT_ASYNC_WORKER_STATE]: the cache list, head first, and its counter
    ([uint32_t]). *)
Record WT_ASYNC_WORKER_STATE := mkWorker {
  cursorqh : list WT_ASYNC_CURSOR;
  num_cursors : Z
}.

(** ** Events *)

(** One event per call that leaves the file, with the status the call
    returned. *)
Inductive Event :=
| EvTxnBegin (s : SESSION) (r : Z)
| EvTxnCommit (s : SESSION) (r : Z)
| EvTxnRollback (s : SESSION) (r : Z)
| EvCalloc (s : SESSION) (r : Z)
| EvFree (s : SESSION)
| EvOpenCursor (s : SESSION) (u cfg : string) (r : Z) (c : CURSOR)
| EvSetRawKey (c : CURSOR) (k : WT_ITEM)
| EvSetRawValue (c : CURSOR) (v : WT_ITEM)
| EvGetRawValue (c : CURSOR) (v : WT_ITEM)
| EvInsert (c : CURSOR) (r : Z)
| EvRemove (c : CURSOR) (r : Z)
| EvSearch (c : CURSOR) (r : Z)
| EvReset (c : CURSOR) (r : Z)
| EvClose (c : CURSOR) (r : Z)
| EvNotify (f : NOTIFY_FN) (status flags : Z) (r : Z)
| EvErr (s : SESSION) (r : Z)
| EvLock (s : SESSION)
| EvUnlock (s : SESSION)
| EvCondWait (s : SESSION) (r : Z)
| EvCondSignal (s : SESSION) (r : Z)
| EvYield (s : SESSION)
| EvWorkerOp (s : SESSION) (a : OPADDR).

(** ** What the file takes from wt_internal.h *)

(** The header is not part of the sources.  The constants and the macro
    [WT_TRET] are parameters; the engine entry points take and return an
    opaque engine state [E]. *)
Record wt_internal := mkWT {
  E : Type;
  (* constants *)
  WT_NOTFOUND : Z;
  EINVAL : Z;
  ETIMEDOUT : Z;
  WT_CURSTD_KEY_SET : Z;
  WT_CURSTD_VALUE_SET : Z;
  WT_CONN_SERVER_RUN : Z;
  (* WT_TRET(a): the status kept in [ret] given its old value and the
     status of [a] *)
  WT_TRET : Z -> Z -> Z;
  (* transactions *)
  __wt_txn_begin : SESSION -> E -> Z * E;
  __wt_txn_commit : SESSION -> E -> Z * E;
  __wt_txn_rollback : SESSION -> E -> Z * E;
  (* memory *)
  __wt_calloc_def : SESSION -> E -> Z * E;
  (* cursors *)
  open_cursor : SESSION -> string -> string -> E -> (Z * CURSOR) * E;
  __wt_cursor_set_raw_key : CURSOR -> WT_ITEM -> E -> E;
  __wt_cursor_set_raw_value : CURSOR -> WT_ITEM -> E -> E;
  __wt_cursor_get_raw_value : CURSOR -> E -> WT_ITEM;
  (* what __wt_cursor_set_raw_value leaves in the flags word of the
     cursor embedded in an op *)
  raw_value_flags : Z -> Z;
  cursor_insert : CURSOR -> E -> Z * E;
  cursor_remove : CURSOR -> E -> Z * E;
  cursor_search : CURSOR -> E -> Z * E;
  cursor_reset : CURSOR -> E -> Z * E;
  cursor_close : CURSOR -> E -> Z * E;
  (* the user callback behind a notify pointer; it reads the op *)
  cb_notify : NOTIFY_FN -> WT_ASYNC_OP_IMPL -> Z -> Z -> E -> Z * E;
  (* condition variables *)
  __wt_cond_wait : SESSION -> E -> Z * E;
  __wt_cond_signal : SESSION -> E -> Z * E
}.

(** ** Flag macros *)

(** [F_ISSET]/[FLD_ISSET], [F_SET]/[FLD_SET] and [F_CLR]/[FLD_CLR] on an
    unsigned flags word. *)
Definition FLD_ISSET (field mask : Z) : bool := negb (Z.land field mask =? 0).
Definition FLD_SET (field mask : Z) : Z := Z.lor field mask.
Definition FLD_CLR (field mask : Z) : Z := Z.land field (Z.lnot mask).

(** Modelled from the spec: the three bits of the flush word
    ([flush_flags] with COMPLETE, IN_PROGRESS, FLUSHING); async.h, which
    defines them, is not in the sources. *)
Definition WT_ASYNC_FLUSH_COMPLETE : Z := 1.
Definition WT_ASYNC_FLUSH_IN_PROGRESS : Z := 2.
Definition WT_ASYNC_FLUSHING : Z := 4.

(** [uint32_t] arithmetic. *)
Definition u32 (z : Z) : Z := z mod 2 ^ 32.

(** ** Shared state *)

(** [WT_ASYNC]: the queue of op addresses (head first), its counter, the
    flush word and the flush counter, all guarded by [opsq_lock];
    [flush_op] is the address [&async->flush_op] of the sentinel. *)
Record WT_ASYNC := mkAsync {
  opqh : list OPADDR;
  cur_queue : Z;
  opsq_flush : Z;
  flush_count : Z;
  flush_op : OPADDR
}.

Definition set_opqh (q : list OPADDR) (a : WT_ASYNC) :=
  mkAsync q (cur_queue a) (opsq_flush a) (flush_count a) (flush_op a).
Definition set_cur_queue (n : Z) (a : WT_ASYNC) :=
  mkAsync (opqh a) n (opsq_flush a) (flush_count a) (flush_op a).
Definition set_opsq_flush (f : Z) (a : WT_ASYNC) :=
  mkAsync (opqh a) (cur_queue a) f (flush_count a) (flush_op a).
Definition set_flush_count (n : Z) (a : WT_ASYNC) :=
  mkAsync (opqh a) (cur_queue a) (opsq_flush a) n (flush_op a).

(** [WT_CONNECTION_IMPL]: the connection flags, the configured number of
    workers and the async structure. *)
Record WT_CONNECTION_IMPL := mkConn {
  conn_flags : Z;
  async_workers : Z;
  async : WT_ASYNC
}.

Definition set_async (a : WT_ASYNC) (c : WT_CONNECTION_IMPL) :=
  mkConn (conn_flags c) (async_workers c) a.
Definition set_conn_flags (f : Z) (c : WT_CONNECTION_IMPL) :=
  mkConn f (async_workers c) (async c).

(** ** Worker threads *)

(** Which call of [__async_flush_wait] a waiting thread is in: the one of
    line 232 (FLUSHING seen on entry) or the one of line 264 (this thread
    took the sentinel [op] off the queue). *)
Inductive WAIT_CALLER :=
| FROM_OBSERVE
| FROM_ARM (op : OPADDR).

(** The points at which a worker stands without holding [opsq_lock]:
    the loop test of line 200; line 223, before the signal of the last
    worker; line 28, inside [__async_flush_wait]; line 271, holding the op
    it dequeued; and after the thread has returned. *)
Inductive PC :=
| AT_LOOP
| AT_SIGNAL
| AT_FLUSH_WAIT (k : WAIT_CALLER)
| AT_OP (op : OPADDR)
| EXITED.

Record Thread := mkThread {
  th_session : SESSION;
  th_pc : PC;
  th_worker : WT_ASYNC_WORKER_STATE
}.

Definition set_pc (pc : PC) (th : Thread) :=
  mkThread (th_session th) pc (th_worker th).

(** The result of a pass through [__async_flush_wait] up to its next
    blocking point: the thread blocks in the wait of line 28 with the lock
    released, or the function returns [r] with [*locked] as given. *)
Inductive FLUSH_WAIT :=
| FW_BLOCKED
| FW_RETURN (r : Z) (locked : bool).

(** ** The error macros

    The macros of the engine's error header are not in the sources either.
    They are used with their usual meaning: [WT_RET(a)] returns the status
    of [a] from the function when it is not 0; [WT_ERR(a)] stores the
    status in [ret] and jumps to the [err] label when it is not 0;
    [WT_ERR_MSG(session, v, ...)] reports a message, sets [ret] to [v] and
    jumps to [err]; [WT_ERR_TIMEDOUT_OK(a)] stores the status in [ret] and
    jumps to [err] unless it is 0 or [ETIMEDOUT]; [WT_ASSERT] checks
    nothing in a build without diagnostics.  [WT_TRET(a)], whose result is
    never read in this file, is a parameter. *)

(** ** The engine monad *)

Section Worker.

Context (wt : wt_internal).

(** The state threaded through the code: the engine state and the trace of
    events so far (oldest first). *)
Record ST := mkST {
  st_eng : E wt;
  st_trace : list Event
}.

Definition M (A : Type) : Type := ST -> A * ST.

Definition ret {A} (a : A) : M A := fun st => (a, st).

Definition bind {A B} (m : M A) (k : A -> M B) : M B :=
  fun st => let (a, st') := m st in k a st'.

Notation "'let*' x := m 'in' k" := (bind m (fun x => k))
  (at level 10, x name, m at level 100, k at level 200).
Notation "'let*' ' p := m 'in' k" := (bind m (fun x => let 'p := x in k))
  (at level 10, p pattern, m at level 100, k at level 200).

(** A call returning a status: run it on the engine state, log the event. *)
Definition call (f : E wt -> Z * E wt) (ev : Z -> Event) : M Z :=
  fun st =>
    let (r, e) := f (st_eng st) in
    (r, mkST e (st_trace st ++ [ev r])).

(** A call returning nothing. *)
Definition call_void (f : E wt -> E wt) (ev : Event) : M unit :=
  fun st => (tt, mkST (f (st_eng st)) (st_trace st ++ [ev])).

(** An event with no effect on the engine state. *)
Definition emit (ev : Event) : M unit := call_void (fun e => e) ev.

Definition txn_begin (s : SESSION) : M Z :=
  call (__wt_txn_begin wt s) (EvTxnBegin s).
Definition txn_commit (s : SESSION) : M Z :=
  call (__wt_txn_commit wt s) (EvTxnCommit s).
Definition txn_rollback (s : SESSION) : M Z :=
  call (__wt_txn_rollback wt s) (EvTxnRollback s).
Definition calloc_def (s : SESSION) : M Z :=
  call (__wt_calloc_def wt s) (EvCalloc s).
Definition wt_free (s : SESSION) : M unit := emit (EvFree s).

Definition session_open_cursor (s : SESSION) (u cfg : string) : M (Z * CURSOR) :=
  fun st =>
    let '((r, c), e) := open_cursor wt s u cfg (st_eng st) in
    ((r, c), mkST e (st_trace st ++ [EvOpenCursor s u cfg r c])).

Definition set_raw_key (c : CURSOR) (k : WT_ITEM) : M unit :=
  call_void (__wt_cursor_set_raw_key wt c k) (EvSetRawKey c k).
Definition set_raw_value (c : CURSOR) (v : WT_ITEM) : M unit :=
  call_void (__wt_cursor_set_raw_value wt c v) (EvSetRawValue c v).
Definition get_raw_value (c : CURSOR) : M WT_ITEM :=
  fun st =>
    let v := __wt_cursor_get_raw_value wt c (st_eng st) in
    (v, mkST (st_eng st) (st_trace st ++ [EvGetRawValue c v])).

Definition c_insert (c : CURSOR) : M Z := call (cursor_insert wt c) (EvInsert c).
Definition c_remove (c : CURSOR) : M Z := call (cursor_remove wt c) (EvRemove c).
Definition c_search (c : CURSOR) : M Z := call (cursor_search wt c) (EvSearch c).
Definition c_reset (c : CURSOR) : M Z := call (cursor_reset wt c) (EvReset c).
Definition c_close (c : CURSOR) : M Z := call (cursor_close wt c) (EvClose c).

Definition cb_call (f : NOTIFY_FN) (op : WT_ASYNC_OP_IMPL) (status flags : Z) : M Z :=
  call (cb_notify wt f op status flags) (EvNotify f status flags).

(** Modelled from the spec: [__wt_cursor_set_raw_value] applied to the
    cursor embedded in the op ("copy it back into op.value").  The helper
    is defined in the engine, not in this file: it stores the item in the
    value buffer; what it does to the flags word is left to the engine
    ([raw_value_flags]). *)
Definition op_set_raw_value (v : WT_ITEM) (op : WT_ASYNC_OP_IMPL) : WT_ASYNC_OP_IMPL :=
  set_op_c (mkCursor (cur_key (op_c op)) v
              (raw_value_flags wt (cur_flags (op_c op)))) op.

(** ** __async_worker_cursor *)

(** The signature test of the [STAILQ_FOREACH] body. *)
Definition ac_matches (f : WT_ASYNC_FORMAT) (ac : WT_ASYNC_CURSOR) : bool :=
  (cfg_hash f =? ac_cfg_hash ac) && (uri_hash f =? ac_uri_hash ac).

(** The [STAILQ_FOREACH] loop: walk the list from its head and stop at the
    first entry with a matching signature. *)
Fixpoint cursorqh_foreach (f : WT_ASYNC_FORMAT) (q : list WT_ASYNC_CURSOR)
  : option WT_ASYNC_CURSOR :=
  match q with
  | [] => None
  | ac :: q' => if ac_matches f ac then Some ac else cursorqh_foreach f q'
  end.

(** Returns the status, the worker state and [*cursorp]. *)
Definition __async_worker_cursor (session : SESSION) (op : WT_ASYNC_OP_IMPL)
    (worker : WT_ASYNC_WORKER_STATE) : M (Z * WT_ASYNC_WORKER_STATE * CURSOR) :=
  match cursorqh_foreach (op_format op) (cursorqh worker) with
  | Some ac => ret (0, worker, ac_c ac)
  | None =>
      let* r := calloc_def session in
      if negb (r =? 0) then ret (r, worker, NULL)
      else
        let* '(r, c) := session_open_cursor session
                     (uri (op_format op)) (config (op_format op)) in
        if negb (r =? 0) then
          let* _ := wt_free session in
          ret (r, worker, NULL)
        else
          let ac := mkAc (cfg_hash (op_format op)) (uri_hash (op_format op)) c in
          ret (0, mkWorker (ac :: cursorqh worker) (u32 (num_cursors worker + 1)), c)
  end.

(** ** __async_worker_execop *)

(** Returns the status and the op ([op->c.value] is written on a
    successful search). *)
Definition __async_worker_execop (session : SESSION) (op : WT_ASYNC_OP_IMPL)
    (cursor : CURSOR) : M (Z * WT_ASYNC_OP_IMPL) :=
  let* _ := set_raw_key cursor (cur_key (op_c op)) in
  let* _ := match op_optype op with
       | WT_AOP_SEARCH | WT_AOP_REMOVE => ret tt
       | _ => set_raw_value cursor (cur_value (op_c op))
       end in
  match op_optype op with
  | WT_AOP_INSERT | WT_AOP_UPDATE =>
      let* r := c_insert cursor in
      ret (r, op)
  | WT_AOP_REMOVE =>
      let* r := c_remove cursor in
      ret (r, op)
  | WT_AOP_SEARCH =>
      let* r := c_search cursor in
      if negb (r =? 0) then ret (r, op)
      else
        let* val := get_raw_value cursor in
        ret (r, op_set_raw_value val op)
  | WT_AOP_OTHER _ =>
      let* _ := emit (EvErr session (EINVAL wt)) in
      ret (EINVAL wt, op)
  end.

(** ** __async_worker_op *)

(** The callback return: [0] unless both [op->cb] and [op->cb->notify]
    are set. *)
Definition run_callback (op : WT_ASYNC_OP_IMPL) (status : Z) : M Z :=
  match op_cb op with
  | Some cb =>
      match notify cb with
      | Some f => cb_call f op status 0
      | None => ret 0
      end
  | None => ret 0
  end.

(** The test of line 162. *)
Definition commit_test (status cb_ret : Z) : bool :=
  ((status =? 0) || (status =? WT_NOTFOUND wt)) && (cb_ret =? 0).

(** Returns the status, the op and the worker state. *)
Definition __async_worker_op (session : SESSION) (op : WT_ASYNC_OP_IMPL)
    (worker : WT_ASYNC_WORKER_STATE)
  : M (Z * WT_ASYNC_OP_IMPL * WT_ASYNC_WORKER_STATE) :=
  let* r := txn_begin session in
  if negb (r =? 0) then ret (r, op, worker)
  else
    let* '(r, worker, cursor) := __async_worker_cursor session op worker in
    if negb (r =? 0) then ret (r, op, worker)
    else
      let* '(status, op) := __async_worker_execop session op cursor in
      let* cb_ret := run_callback op status in
      let* t := (if commit_test status cb_ret
            then txn_commit session
            else txn_rollback session) in
      let status := WT_TRET wt status t in
      let status := 0 in
      let op := set_op_state WT_ASYNCOP_FREE op in
      let op := set_op_c
                  (mkCursor (cur_key (op_c op)) (cur_value (op_c op))
                     (FLD_CLR (cur_flags (op_c op))
                        (Z.lor (WT_CURSTD_KEY_SET wt) (WT_CURSTD_VALUE_SET wt))))
                  op in
      let* _ := c_reset cursor in
      ret (status, op, worker).

(** ** __async_flush_wait *)

Definition cond_wait (s : SESSION) : M Z :=
  call (__wt_cond_wait wt s) (EvCondWait s).
Definition cond_signal (s : SESSION) : M Z :=
  call (__wt_cond_signal wt s) (EvCondSignal s).

(** The loop test of line 25, lock held, [r] being the status so far: with
    FLUSHING set the thread unlocks and blocks in the timed wait. *)
Definition flush_wait_test (session : SESSION) (a : WT_ASYNC) (r : Z)
  : M FLUSH_WAIT :=
  if FLD_ISSET (opsq_flush a) WT_ASYNC_FLUSHING then
    let* _ := emit (EvUnlock session) in
    ret FW_BLOCKED
  else ret (FW_RETURN r true).

(** The function as called, with the lock held: [ret] starts at 0. *)
Definition __async_flush_wait (session : SESSION) (a : WT_ASYNC) : M FLUSH_WAIT :=
  flush_wait_test session a 0.

(** Lines 28-31 when the wait returns: [WT_ERR_TIMEDOUT_OK] leaves through
    [err] (lock not held) on a status other than [0] and [ETIMEDOUT];
    otherwise the thread locks again and repeats the test. *)
Definition flush_wait_wake (session : SESSION) (a : WT_ASYNC) : M FLUSH_WAIT :=
  let* r := cond_wait session in
  if negb (r =? 0) && negb (r =? ETIMEDOUT wt) then ret (FW_RETURN r false)
  else
    let* _ := emit (EvLock session) in
    flush_wait_test session a r.

(** ** __wt_async_worker *)

Definition OPS := gmap OPADDR WT_ASYNC_OP_IMPL.

(** What a thread leaves behind at its next blocking point; [None] when it
    dereferences an op address that is not allocated. *)
Definition OUT : Type := option (WT_CONNECTION_IMPL * OPS * Thread).

(** Lines 294-300: close and free every cached cursor. *)
Fixpoint close_cursors (session : SESSION) (q : list WT_ASYNC_CURSOR) : M unit :=
  match q with
  | [] => ret tt
  | ac :: q' =>
      let* _ := c_close (ac_c ac) in
      let* _ := wt_free session in
      close_cursors session q'
  end.

(** The thread leaves the loop and returns. *)
Definition worker_exit (conn : WT_CONNECTION_IMPL) (ops : OPS) (th : Thread)
  : M OUT :=
  let* _ := close_cursors (th_session th) (cursorqh (th_worker th)) in
  ret (Some (conn, ops, set_pc EXITED th)).

(** The [err] label of lines 286-288, then the cleanup. *)
Definition worker_err (conn : WT_CONNECTION_IMPL) (ops : OPS) (th : Thread)
    (r : Z) (locked : bool) : M OUT :=
  let* _ := emit (EvErr (th_session th) r) in
  let* _ := (if locked then emit (EvUnlock (th_session th)) else ret tt) in
  worker_exit conn ops th.

(** Lines 269-270: release the lock; the thread then stands at line 271. *)
Definition worker_unlock (conn : WT_CONNECTION_IMPL) (ops : OPS) (th : Thread)
    (a : OPADDR) : M OUT :=
  let* _ := emit (EvUnlock (th_session th)) in
  ret (Some (conn, ops, set_pc (AT_OP a) th)).

(** What follows the call of line 264. *)
Definition after_arm (conn : WT_CONNECTION_IMPL) (ops : OPS) (th : Thread)
    (a : OPADDR) (fw : FLUSH_WAIT) : M OUT :=
  match fw with
  | FW_BLOCKED => ret (Some (conn, ops, set_pc (AT_FLUSH_WAIT (FROM_ARM a)) th))
  | FW_RETURN r locked =>
      if negb (r =? 0) then worker_err conn ops th r locked
      else worker_unlock conn ops th a
  end.

(** Lines 240-270, entered with the lock held. *)
Definition worker_dequeue (conn : WT_CONNECTION_IMPL) (ops : OPS) (th : Thread)
  : M OUT :=
  match opqh (async conn) with
  | [] =>
      let* _ := emit (EvUnlock (th_session th)) in
      let* _ := emit (EvYield (th_session th)) in
      ret (Some (conn, ops, set_pc AT_LOOP th))
  | a :: rest =>
      match ops !! a with
      | None => ret None
      | Some op =>
          let asy := set_opqh rest (async conn) in
          let asy := set_cur_queue (u32 (cur_queue asy - 1)) asy in
          let ops := <[a := set_op_state WT_ASYNCOP_WORKING op]> ops in
          if a =? flush_op asy then
            let asy := set_opsq_flush
                         (FLD_SET (opsq_flush asy) WT_ASYNC_FLUSHING) asy in
            let asy := set_flush_count 1 asy in
            let* fw := __async_flush_wait (th_session th) asy in
            after_arm (set_async asy conn) ops th a fw
          else worker_unlock (set_async asy conn) ops th a
      end
  end.

(** What follows the call of line 232. *)
Definition after_observe (conn : WT_CONNECTION_IMPL) (ops : OPS) (th : Thread)
    (fw : FLUSH_WAIT) : M OUT :=
  match fw with
  | FW_BLOCKED => ret (Some (conn, ops, set_pc (AT_FLUSH_WAIT FROM_OBSERVE) th))
  | FW_RETURN r locked =>
      if negb (r =? 0) then worker_err conn ops th r locked
      else worker_dequeue conn ops th
  end.

(** One step of a worker: from the point where it stands to its next
    blocking point.  The shared fields are read and written under
    [opsq_lock] only, so each locked region is taken in one piece.  The
    run flag is read at line 200 without the lock: the step from the loop
    test takes the test together with the locked region that follows it,
    and the pool at the grain of the loop test ([fine_step]) takes them
    apart. *)
Definition __wt_async_worker (conn : WT_CONNECTION_IMPL) (ops : OPS) (th : Thread)
  : M OUT :=
  let s := th_session th in
  match th_pc th with
  | AT_LOOP =>
      if negb (FLD_ISSET (conn_flags conn) (WT_CONN_SERVER_RUN wt)) then
        worker_exit conn ops th
      else
        let* _ := emit (EvLock s) in
        if FLD_ISSET (opsq_flush (async conn)) WT_ASYNC_FLUSHING then
          let asy := set_flush_count (u32 (flush_count (async conn) + 1))
                       (async conn) in
          if flush_count asy =? async_workers conn then
            let asy := set_opsq_flush
                         (FLD_SET (opsq_flush asy) WT_ASYNC_FLUSH_COMPLETE) asy in
            let asy := set_opsq_flush
                         (FLD_CLR (opsq_flush asy) WT_ASYNC_FLUSHING) asy in
            let* _ := emit (EvUnlock s) in
            ret (Some (set_async asy conn, ops, set_pc AT_SIGNAL th))
          else
            let* fw := __async_flush_wait s asy in
            after_observe (set_async asy conn) ops th fw
        else worker_dequeue conn ops th
  | AT_SIGNAL =>
      let* r := cond_signal s in
      if negb (r =? 0) then worker_err conn ops th r false
      else
        let* _ := emit (EvLock s) in
        worker_dequeue conn ops th
  | AT_FLUSH_WAIT k =>
      let* fw := flush_wait_wake s (async conn) in
      match k with
      | FROM_OBSERVE => after_observe conn ops th fw
      | FROM_ARM a => after_arm conn ops th a fw
      end
  | AT_OP a =>
      if negb (a =? flush_op (async conn)) then
        match ops !! a with
        | None => ret None
        | Some op =>
            let* _ := emit (EvWorkerOp s a) in
            let* '(_, op', worker') := __async_worker_op s op (th_worker th) in
            let* _ := emit (EvYield s) in
            ret (Some (conn, <[a := op']> ops, mkThread s AT_LOOP worker'))
        end
      else
        let* _ := emit (EvYield s) in
        ret (Some (conn, ops, set_pc AT_LOOP th))
  | EXITED => ret None
  end.

(** ** The pool of workers *)

Record System := mkSys {
  sys_conn : WT_CONNECTION_IMPL;
  sys_ops : OPS;
  sys_threads : list Thread;
  sys_st : ST
}.

(** Thread [i] takes its next step. *)
Definition worker_step (i : nat) (sys : System) : option System :=
  match sys_threads sys !! i with
  | None => None
  | Some th =>
      match __wt_async_worker (sys_conn sys) (sys_ops sys) th (sys_st sys) with
      | (Some (conn, ops, th'), st) =>
          Some (mkSys conn ops (<[i := th']> (sys_threads sys)) st)
      | (None, _) => None
      end
  end.

(** The server-run flag is cleared from outside the pool. *)
Definition shutdown (sys : System) : System :=
  mkSys (set_conn_flags
           (FLD_CLR (conn_flags (sys_conn sys)) (WT_CONN_SERVER_RUN wt))
           (sys_conn sys))
        (sys_ops sys) (sys_threads sys) (sys_st sys).

(** The pool by itself: the steps of the workers and the shutdown.
    Nothing is enqueued and no flush begins or ends; the clients come with
    [open_step]. *)
Inductive step : System -> System -> Prop :=
| step_worker i sys sys' :
    worker_step i sys = Some sys' -> step sys sys'
| step_shutdown sys :
    step sys (shutdown sys).

End Worker.

Arguments mkST {wt} _ _.
Arguments st_eng {wt} _.
Arguments st_trace {wt} _.
Arguments mkSys {wt} _ _ _ _.
Arguments sys_conn {wt} _.
Arguments sys_ops {wt} _.
Arguments sys_threads {wt} _.
Arguments sys_st {wt} _.

(** ** Notions used in the statements *)

(** The trace shows that cursor [c] was returned by a successful
    [open_cursor] on the uri and config of format [f]. *)
Definition opened_for (tr : list Event) (c : CURSOR) (f : WT_ASYNC_FORMAT)
  : Prop :=
  exists s, In (EvOpenCursor s (uri f) (config f) 0 c) tr.

(** Every cache entry holds a cursor that was opened for one of the
    formats [known] to the connection, with the entry's hash pair. *)
Definition cache_wf (known : WT_ASYNC_FORMAT -> Prop) (tr : list Event)
    (q : list WT_ASYNC_CURSOR) : Prop :=
  forall ac, In ac q ->
    exists f, known f /\
              cfg_hash f = ac_cfg_hash ac /\ uri_hash f = ac_uri_hash ac /\
              opened_for tr (ac_c ac) f.

(** Among the formats [known] to the connection the hash pair determines
    the uri and the config. *)
Definition hashes_determine (known : WT_ASYNC_FORMAT -> Prop) : Prop :=
  forall f g, known f -> known g ->
    cfg_hash f = cfg_hash g -> uri_hash f = uri_hash g ->
    uri f = uri g /\ config f = config g.

(** A get-or-open call that succeeds returns a cursor opened for the
    format of its op. *)
Definition returns_usable (wt : wt_internal) (s : SESSION)
    (op : WT_ASYNC_OP_IMPL) (w : WT_ASYNC_WORKER_STATE) (st : ST wt) : Prop :=
  let '((r, _, c), st') := __async_worker_cursor wt s op w st in
  r = 0 -> opened_for (st_trace st') c (op_format op).

Definition is_open_cursor (e : Event) : bool :=
  match e with EvOpenCursor _ _ _ _ _ => true | _ => false end.

(** The number of [open_cursor] calls in a trace. *)
Definition count_opens (tr : list Event) : nat :=
  length (List.filter is_open_cursor tr).

Definition is_opened (e : Event) : bool :=
  match e with EvOpenCursor _ _ _ r _ => r =? 0 | _ => false end.

(** The number of cursors opened in a trace: the [open_cursor] calls that
    returned 0. *)
Definition count_opened (tr : list Event) : nat :=
  length (List.filter is_opened tr).

(** Commit and rollback events. *)
Definition is_resolution (e : Event) : bool :=
  match e with
  | EvTxnCommit _ _ | EvTxnRollback _ _ => true
  | _ => false
  end.

(** The events of the calls the handler makes between the begin of the
    transaction and its resolution. *)
Definition inner (e : Event) : bool :=
  match e with
  | EvCalloc _ _ | EvFree _ | EvOpenCursor _ _ _ _ _
  | EvSetRawKey _ _ | EvSetRawValue _ _ | EvGetRawValue _ _
  | EvInsert _ _ | EvRemove _ _ | EvSearch _ _
  | EvNotify _ _ _ _ | EvErr _ _ => true
  | _ => false
  end.

(** The op as [__async_worker_op] releases it: state FREE, the key-set and
    value-set flags cleared, every other field kept. *)
Definition recycled (wt : wt_internal) (op : WT_ASYNC_OP_IMPL)
  : WT_ASYNC_OP_IMPL :=
  mkOp (mkCursor (cur_key (op_c op)) (cur_value (op_c op))
          (FLD_CLR (cur_flags (op_c op))
             (Z.lor (WT_CURSTD_KEY_SET wt) (WT_CURSTD_VALUE_SET wt))))
       (op_format op) WT_ASYNCOP_FREE (op_optype op) (op_cb op).

(** The flush word tests of the worker loop. *)
Definition flushing (a : WT_ASYNC) : bool :=
  FLD_ISSET (opsq_flush a) WT_ASYNC_FLUSHING.
Definition flush_complete (a : WT_ASYNC) : bool :=
  FLD_ISSET (opsq_flush a) WT_ASYNC_FLUSH_COMPLETE.

Definition sys_async {wt : wt_internal} (sys : System wt) : WT_ASYNC :=
  async (sys_conn sys).

(** A thread that stands inside [__async_flush_wait] or has returned. *)
Definition parked (th : Thread) : Prop :=
  match th_pc th with
  | AT_FLUSH_WAIT _ | EXITED => True
  | _ => False
  end.

Definition is_worker_op (e : Event) : bool :=
  match e with EvWorkerOp _ _ => true | _ => false end.


(** What one step of a thread can do to the flush flag, and which ops it
    hands to the handler. *)
Definition step_summary {wt : wt_internal} (conn : WT_CONNECTION_IMPL)
    (th : Thread) (st : ST wt) (conn' : WT_CONNECTION_IMPL) (th' : Thread)
    (st' : ST wt) : Prop :=
  flush_op (async conn') = flush_op (async conn) /\
  (flushing (async conn) = false -> flushing (async conn') = true ->
   exists rest,
     opqh (async conn) = flush_op (async conn) :: rest /\
     opqh (async conn') = rest /\
     flush_count (async conn') = 1 /\
     th_pc th' = AT_FLUSH_WAIT (FROM_ARM (flush_op (async conn)))) /\
  exists d,
    st_trace st' = st_trace st ++ d /\
    (List.filter is_worker_op d = [] \/
     exists a, th_pc th = AT_OP a /\ a <> flush_op (async conn) /\
               List.filter is_worker_op d = [EvWorkerOp (th_session th) a]).

(** The workers step in the order of a schedule. *)
Fixpoint run_workers {wt : wt_internal} (sched : list nat) (sys : System wt)
  : option (System wt) :=
  match sched with
  | [] => Some sys
  | i :: sched' =>
      match worker_step wt i sys with
      | Some sys' => run_workers sched' sys'
      | None => None
      end
  end.


(** A step taken while FLUSHING is set. *)
Definition step_flushing {wt : wt_internal} (sys sys' : System wt) : Prop :=
  flushing (sys_async sys) = true /\ step wt sys sys'.

(** ** Notions used in the further properties *)

(** The events of the calls the executor makes. *)
Definition exec_event (e : Event) : bool :=
  match e with
  | EvSetRawKey _ _ | EvSetRawValue _ _ | EvGetRawValue _ _
  | EvInsert _ _ | EvRemove _ _ | EvSearch _ _ | EvErr _ _ => true
  | _ => false
  end.

Definition is_notify (e : Event) : bool :=
  match e with EvNotify _ _ _ _ => true | _ => false end.

Definition is_calloc (e : Event) : bool :=
  match e with EvCalloc _ _ => true | _ => false end.

(** The notify function the handler will call for an op, if any. *)
Definition registered (op : WT_ASYNC_OP_IMPL) : option NOTIFY_FN :=
  match op_cb op with
  | Some cb => notify cb
  | None => None
  end.

(** The cursors closed in a trace, in order, and the number of frees. *)
Definition closed_cursors (d : list Event) : list CURSOR :=
  flat_map (fun e => match e with EvClose c _ => [c] | _ => [] end) d.

Definition count_frees (d : list Event) : nat :=
  length (List.filter (fun e => match e with EvFree _ => true | _ => false end) d).

(** The ops handed to the handler in a trace, in order. *)
Definition handled (d : list Event) : list OPADDR :=
  flat_map (fun e => match e with EvWorkerOp _ a => [a] | _ => [] end) d.

(** Whether [opsq_lock] is held after the events [d], when it is held or
    not before them as [held] says; [None] when the lock is taken while
    held, released while not held, or when a call other than the error
    report is made while it is held. *)
Fixpoint lock_scan (held : bool) (d : list Event) : option bool :=
  match d with
  | [] => Some held
  | EvLock _ :: d' => if held then None else lock_scan true d'
  | EvUnlock _ :: d' => if held then lock_scan false d' else None
  | EvErr _ _ :: d' => lock_scan held d'
  | _ :: d' => if held then None else lock_scan false d'
  end.

(** The signature of a cache entry. *)
Definition ac_sig (ac : WT_ASYNC_CURSOR) : Z * Z :=
  (ac_uri_hash ac, ac_cfg_hash ac).

(** The cache serves cursor [c] to the formats with the hash pair of [f]. *)
Definition serves (w : WT_ASYNC_WORKER_STATE) (f : WT_ASYNC_FORMAT)
    (c : CURSOR) : Prop :=
  exists ac, cursorqh_foreach f (cursorqh w) = Some ac /\ ac_c ac = c.

(** [cur_queue] is the length of the queue. *)
Definition queue_counted (a : WT_ASYNC) : Prop :=
  cur_queue a = u32 (Z.of_nat (length (opqh a))).

(** The op a thread holds for the handler, if any. *)
Definition held_op (fl : OPADDR) (th : Thread) : list OPADDR :=
  match th_pc th with
  | AT_OP a => if a =? fl then [] else [a]
  | _ => []
  end.

(** The events of the calls the handler makes. *)
Definition handler_event (e : Event) : bool :=
  match e with
  | EvTxnBegin _ _ | EvReset _ _ => true
  | _ => inner e || is_resolution e
  end.

(** A thread in the flush wait of line 264 holds the sentinel. *)
Definition arm_ok (fl : OPADDR) (th : Thread) : Prop :=
  forall a, th_pc th = AT_FLUSH_WAIT (FROM_ARM a) -> a = fl.

(** The ops of a list of queue entries, the sentinel left out. *)
Definition real_ops (fl : OPADDR) (q : list OPADDR) : list OPADDR :=
  List.filter (fun a => negb (a =? fl)) q.

(** The sentinel is on the queue at most once; it is not on the queue
    while FLUSHING is set, nor while a worker is about to signal, and then
    FLUSHING is clear; and while it is on the queue, IN_PROGRESS is set
    and COMPLETE is clear. *)
Definition flush_sound {wt : wt_internal} (sys : System wt) : Prop :=
  (count_occ Z.eq_dec (opqh (sys_async sys)) (flush_op (sys_async sys)) <= 1)%nat /\
  (flushing (sys_async sys) = true ->
   ~ In (flush_op (sys_async sys)) (opqh (sys_async sys))) /\
  Forall (fun th => th_pc th = AT_SIGNAL ->
                    flushing (sys_async sys) = false /\
                    ~ In (flush_op (sys_async sys)) (opqh (sys_async sys)))
         (sys_threads sys) /\
  (In (flush_op (sys_async sys)) (opqh (sys_async sys)) ->
   FLD_ISSET (opsq_flush (sys_async sys)) WT_ASYNC_FLUSH_IN_PROGRESS = true /\
   flush_complete (sys_async sys) = false).

(** The ops the threads of a pool hold for the handler. *)
Definition pool_held (fl : OPADDR) (ths : list Thread) : list OPADDR :=
  flat_map (held_op fl) ths.

(** A thread that holds no op and will reach the dequeue of line 240
    without passing the loop test again: it has signalled as the last
    worker of a flush, or waits in the flush wait of line 232. *)
Definition past_loop_test (th : Thread) : bool :=
  match th_pc th with
  | AT_SIGNAL | AT_FLUSH_WAIT FROM_OBSERVE => true
  | _ => false
  end.

(** The number of such threads in a pool. *)
Definition dequeue_budget (ths : list Thread) : nat :=
  length (List.filter past_loop_test ths).

(** The test of the worker loop. *)
Definition server_run {wt : wt_internal} (sys : System wt) : bool :=
  FLD_ISSET (conn_flags (sys_conn sys)) (WT_CONN_SERVER_RUN wt).

(** ** The producers

    Modelled from the spec (section 6, client side, and the reset of
    section 4.4): the enqueue and the flush calls of the clients are not in
    this file.  An enqueue sets the state of the op to ENQUEUED, appends it
    to the queue and increments [cur_queue], under the lock.  A flush sets
    the flush word to IN_PROGRESS and enqueues the sentinel as any other
    op; it begins only when the flags of the flush before it have been
    cleared.  Its initiator, once it has seen COMPLETE, clears the flush
    flags and the count.  These calls leave no event in the trace, which
    holds the calls of the workers. *)

Definition enqueue {wt : wt_internal} (a : OPADDR) (sys : System wt)
  : option (System wt) :=
  match sys_ops sys !! a with
  | None => None
  | Some op =>
      let asy := sys_async sys in
      Some (mkSys
              (set_async
                 (set_cur_queue (u32 (cur_queue asy + 1))
                    (set_opqh (opqh asy ++ [a]) asy))
                 (sys_conn sys))
              (<[a := set_op_state WT_ASYNCOP_ENQUEUED op]> (sys_ops sys))
              (sys_threads sys) (sys_st sys))
  end.

Definition flush_begin {wt : wt_internal} (sys : System wt)
  : option (System wt) :=
  enqueue (flush_op (sys_async sys))
    (mkSys
       (set_async (set_opsq_flush WT_ASYNC_FLUSH_IN_PROGRESS (sys_async sys))
          (sys_conn sys))
       (sys_ops sys) (sys_threads sys) (sys_st sys)).

Definition flush_end {wt : wt_internal} (sys : System wt) : System wt :=
  mkSys
    (set_async (set_flush_count 0 (set_opsq_flush 0 (sys_async sys)))
       (sys_conn sys))
    (sys_ops sys) (sys_threads sys) (sys_st sys).

(** The connection flags are written outside this file. *)
Definition with_flags {wt : wt_internal} (f : Z) (sys : System wt)
  : System wt :=
  mkSys (set_conn_flags f (sys_conn sys)) (sys_ops sys) (sys_threads sys)
    (sys_st sys).

(** The pool with its clients: between the steps of the workers, a free
    op other than the sentinel may be enqueued, a flush may begin or end,
    and the connection flags may be written.  A worker reads the run flag
    at line 200 without the lock, so the value it acts on may be older
    than the state; a write of the flags before its step and another after
    it give that step. *)
Inductive open_step {wt : wt_internal} : System wt -> System wt -> Prop :=
| open_worker i s s' :
    worker_step wt i s = Some s' -> open_step s s'
| open_flags f s :
    open_step s (with_flags f s)
| open_enqueue a op s s' :
    a <> flush_op (sys_async s) ->
    sys_ops s !! a = Some op ->
    op_state op = WT_ASYNCOP_FREE ->
    enqueue a s = Some s' ->
    open_step s s'
| open_flush_begin s s' :
    opsq_flush (sys_async s) = 0 ->
    flush_begin s = Some s' ->
    open_step s s'
| open_flush_end s :
    flush_complete (sys_async s) = true ->
    open_step s (flush_end s).

(** A step of the pool with its clients that does not put the sentinel
    on the queue while a worker stands between its unlock of line 221 and
    its lock of line 225. *)
Definition quiet_step {wt : wt_internal} (s s' : System wt) : Prop :=
  open_step s s' /\
  (~ In (flush_op (sys_async s)) (opqh (sys_async s)) ->
   In (flush_op (sys_async s)) (opqh (sys_async s')) ->
   Forall (fun th => th_pc th <> AT_SIGNAL) (sys_threads s)).

(** ** The grain of the loop test

    The run flag is read at line 200 without the lock, and the lock is
    taken at line 201: a worker may stand between the two when the flag is
    cleared.  A pool at this grain is a system with the threads that have
    passed the test and not yet taken the lock. *)

Record Pool {wt : wt_internal} := mkPool {
  pool_sys : System wt;
  pool_passed : list nat
}.
Arguments Pool : clear implicits.
Arguments mkPool {wt} _ _.
Arguments pool_sys {wt} _.
Arguments pool_passed {wt} _.

(** The step of a thread that has passed the test: lines 201-270, run
    as the step from the loop test runs them when it finds the flag set;
    the flags are left as they are. *)
Definition late_step {wt : wt_internal} (i : nat) (sys : System wt)
  : option (System wt) :=
  match worker_step wt i
          (with_flags
             (FLD_SET (conn_flags (sys_conn sys)) (WT_CONN_SERVER_RUN wt))
             sys) with
  | Some s' => Some (with_flags (conn_flags (sys_conn sys)) s')
  | None => None
  end.

Inductive fine_step {wt : wt_internal} : Pool wt -> Pool wt -> Prop :=
| fine_test i p th :
    sys_threads (pool_sys p) !! i = Some th ->
    th_pc th = AT_LOOP ->
    ~ In i (pool_passed p) ->
    server_run (pool_sys p) = true ->
    fine_step p (mkPool (pool_sys p) (i :: pool_passed p))
| fine_late i p th s' :
    In i (pool_passed p) ->
    sys_threads (pool_sys p) !! i = Some th ->
    th_pc th = AT_LOOP ->
    late_step i (pool_sys p) = Some s' ->
    fine_step p (mkPool s' (List.remove Nat.eq_dec i (pool_passed p)))
| fine_worker i p s' :
    ~ In i (pool_passed p) ->
    worker_step wt i (pool_sys p) = Some s' ->
    fine_step p (mkPool s' (pool_passed p))
| fine_shutdown p :
    fine_step p (mkPool (shutdown wt (pool_sys p)) (pool_passed p)).

(** The threads that stand between the loop test and the dequeue. *)
Definition pool_budget {wt : wt_internal} (p : Pool wt) : nat :=
  (length (pool_passed p) + dequeue_budget (sys_threads (pool_sys p)))%nat.

(** The run flag is clear while FLUSHING is set, no worker has passed
    the loop test and none is about to signal. *)
Definition flush_abandoned {wt : wt_internal} (p : Pool wt) : Prop :=
  server_run (pool_sys p) = false /\
  flushing (sys_async (pool_sys p)) = true /\
  Forall (fun th => th_pc th <> AT_SIGNAL) (sys_threads (pool_sys p)) /\
  pool_passed p = [].

(** ** The outcomes of a step *)

(** The state after the cleanup of lines 294-300. *)
Definition cleanup {wt : wt_internal} (th : Thread) (st : ST wt) : ST wt :=
  snd (close_cursors wt (th_session th) (cursorqh (th_worker th)) st).

(** The three ways into the dequeue of line 240, with the engine state and
    the events on the way: from the loop test with FLUSHING clear, after
    the signal of the last worker, and out of the flush wait of line 232. *)
Inductive dequeue_entry {wt : wt_internal} (conn : WT_CONNECTION_IMPL)
    (th : Thread) (st : ST wt) : E wt -> list Event -> Prop :=
| entry_loop :
    th_pc th = AT_LOOP ->
    FLD_ISSET (conn_flags conn) (WT_CONN_SERVER_RUN wt) = true ->
    FLD_ISSET (opsq_flush (async conn)) WT_ASYNC_FLUSHING = false ->
    dequeue_entry conn th st (st_eng st) [EvLock (th_session th)]
| entry_signal e :
    th_pc th = AT_SIGNAL ->
    __wt_cond_signal wt (th_session th) (st_eng st) = (0, e) ->
    dequeue_entry conn th st e
      [EvCondSignal (th_session th) 0; EvLock (th_session th)]
| entry_wake e :
    th_pc th = AT_FLUSH_WAIT FROM_OBSERVE ->
    FLD_ISSET (opsq_flush (async conn)) WT_ASYNC_FLUSHING = false ->
    __wt_cond_wait wt (th_session th) (st_eng st) = (0, e) ->
    dequeue_entry conn th st e
      [EvCondWait (th_session th) 0; EvLock (th_session th)].

(** The three ways to the [err] label, with the status and the value of
    [locked] there: a failed signal, a failed wait, and a wait that timed
    out just before FLUSHING was found clear. *)
Inductive err_entry {wt : wt_internal} (conn : WT_CONNECTION_IMPL)
    (th : Thread) (st : ST wt) : E wt -> list Event -> Z -> bool -> Prop :=
| err_signal r e :
    th_pc th = AT_SIGNAL ->
    __wt_cond_signal wt (th_session th) (st_eng st) = (r, e) ->
    r <> 0 ->
    err_entry conn th st e [EvCondSignal (th_session th) r] r false
| err_wait k r e :
    th_pc th = AT_FLUSH_WAIT k ->
    __wt_cond_wait wt (th_session th) (st_eng st) = (r, e) ->
    r <> 0 -> r <> ETIMEDOUT wt ->
    err_entry conn th st e [EvCondWait (th_session th) r] r false
| err_timedout k r e :
    th_pc th = AT_FLUSH_WAIT k ->
    FLD_ISSET (opsq_flush (async conn)) WT_ASYNC_FLUSHING = false ->
    __wt_cond_wait wt (th_session th) (st_eng st) = (r, e) ->
    r <> 0 -> r = ETIMEDOUT wt ->
    err_entry conn th st e
      [EvCondWait (th_session th) r; EvLock (th_session th)] r true.

(** Every way a step of a thread can end. *)
Inductive thread_outcome {wt : wt_internal} (conn : WT_CONNECTION_IMPL)
    (ops : OPS) (th : Thread) (st : ST wt)
  : WT_CONNECTION_IMPL -> OPS -> Thread -> ST wt -> Prop :=
| out_exit :
    th_pc th = AT_LOOP ->
    FLD_ISSET (conn_flags conn) (WT_CONN_SERVER_RUN wt) = false ->
    thread_outcome conn ops th st conn ops (set_pc EXITED th) (cleanup th st)
| out_err e d r locked :
    err_entry conn th st e d r locked ->
    thread_outcome conn ops th st conn ops (set_pc EXITED th)
      (cleanup th
         (mkST e (st_trace st ++ d ++
                  EvErr (th_session th) r ::
                  (if locked then [EvUnlock (th_session th)] else []))))
| out_last :
    th_pc th = AT_LOOP ->
    FLD_ISSET (conn_flags conn) (WT_CONN_SERVER_RUN wt) = true ->
    FLD_ISSET (opsq_flush (async conn)) WT_ASYNC_FLUSHING = true ->
    u32 (flush_count (async conn) + 1) = async_workers conn ->
    thread_outcome conn ops th st
      (set_async
         (set_opsq_flush
            (FLD_CLR (FLD_SET (opsq_flush (async conn)) WT_ASYNC_FLUSH_COMPLETE)
               WT_ASYNC_FLUSHING)
            (set_flush_count (u32 (flush_count (async conn) + 1)) (async conn)))
         conn)
      ops (set_pc AT_SIGNAL th)
      (mkST (st_eng st)
         (st_trace st ++ [EvLock (th_session th); EvUnlock (th_session th)]))
| out_observe :
    th_pc th = AT_LOOP ->
    FLD_ISSET (conn_flags conn) (WT_CONN_SERVER_RUN wt) = true ->
    FLD_ISSET (opsq_flush (async conn)) WT_ASYNC_FLUSHING = true ->
    u32 (flush_count (async conn) + 1) <> async_workers conn ->
    thread_outcome conn ops th st
      (set_async
         (set_flush_count (u32 (flush_count (async conn) + 1)) (async conn))
         conn)
      ops (set_pc (AT_FLUSH_WAIT FROM_OBSERVE) th)
      (mkST (st_eng st)
         (st_trace st ++ [EvLock (th_session th); EvUnlock (th_session th)]))
| out_still k r e :
    th_pc th = AT_FLUSH_WAIT k ->
    FLD_ISSET (opsq_flush (async conn)) WT_ASYNC_FLUSHING = true ->
    __wt_cond_wait wt (th_session th) (st_eng st) = (r, e) ->
    r = 0 \/ r = ETIMEDOUT wt ->
    thread_outcome conn ops th st conn ops th
      (mkST e
         (st_trace st ++
          [EvCondWait (th_session th) r; EvLock (th_session th);
           EvUnlock (th_session th)]))
| out_resume a e :
    th_pc th = AT_FLUSH_WAIT (FROM_ARM a) ->
    FLD_ISSET (opsq_flush (async conn)) WT_ASYNC_FLUSHING = false ->
    __wt_cond_wait wt (th_session th) (st_eng st) = (0, e) ->
    thread_outcome conn ops th st conn ops (set_pc (AT_OP a) th)
      (mkST e
         (st_trace st ++
          [EvCondWait (th_session th) 0; EvLock (th_session th);
           EvUnlock (th_session th)]))
| out_empty e d :
    dequeue_entry conn th st e d ->
    opqh (async conn) = [] ->
    thread_outcome conn ops th st conn ops (set_pc AT_LOOP th)
      (mkST e
         (st_trace st ++ d ++
          [EvUnlock (th_session th); EvYield (th_session th)]))
| out_take e d a rest op :
    dequeue_entry conn th st e d ->
    opqh (async conn) = a :: rest ->
    ops !! a = Some op ->
    a <> flush_op (async conn) ->
    thread_outcome conn ops th st
      (set_async
         (set_cur_queue (u32 (cur_queue (async conn) - 1))
            (set_opqh rest (async conn))) conn)
      (<[a := set_op_state WT_ASYNCOP_WORKING op]> ops)
      (set_pc (AT_OP a) th)
      (mkST e (st_trace st ++ d ++ [EvUnlock (th_session th)]))
| out_arm e d rest op :
    dequeue_entry conn th st e d ->
    opqh (async conn) = flush_op (async conn) :: rest ->
    ops !! flush_op (async conn) = Some op ->
    thread_outcome conn ops th st
      (set_async
         (set_flush_count 1
            (set_opsq_flush
               (FLD_SET (opsq_flush (async conn)) WT_ASYNC_FLUSHING)
               (set_cur_queue (u32 (cur_queue (async conn) - 1))
                  (set_opqh rest (async conn))))) conn)
      (<[flush_op (async conn) := set_op_state WT_ASYNCOP_WORKING op]> ops)
      (set_pc (AT_FLUSH_WAIT (FROM_ARM (flush_op (async conn)))) th)
      (mkST e (st_trace st ++ d ++ [EvUnlock (th_session th)]))
| out_skip a :
    th_pc th = AT_OP a ->
    a = flush_op (async conn) ->
    thread_outcome conn ops th st conn ops (set_pc AT_LOOP th)
      (mkST (st_eng st) (st_trace st ++ [EvYield (th_session th)]))
| out_handle a op r op' w' st1 :
    th_pc th = AT_OP a ->
    a <> flush_op (async conn) ->
    ops !! a = Some op ->
    __async_worker_op wt (th_session th) op (th_worker th)
      (mkST (st_eng st) (st_trace st ++ [EvWorkerOp (th_session th) a]))
    = ((r, op', w'), st1) ->
    thread_outcome conn ops th st conn (<[a := op']> ops)
      (mkThread (th_session th) AT_LOOP w')
      (mkST (st_eng st1) (st_trace st1 ++ [EvYield (th_session th)])).

(** ** A small engine for concrete runs *)

(** The engine state is the next cursor address; the statuses of the
    allocation, of [open_cursor], of the cursor search and of the callback
    are fixed by the arguments, every other call succeeds.  The constants
    have sample values; no property below depends on them. *)
Definition toy (calloc_r open_r search_r notify_r : Z) : wt_internal :=
  {| E := Z;
     WT_NOTFOUND := -31803;
     EINVAL := 22;
     ETIMEDOUT := 110;
     WT_CURSTD_KEY_SET := 384;
     WT_CURSTD_VALUE_SET := 98304;
     WT_CONN_SERVER_RUN := 256;
     WT_TRET := fun r t =>
       if negb (t =? 0) &&
          ((t =? -31804) || (r =? 0) || (r =? -31801) || (r =? -31803))
       then t else r;
     __wt_txn_begin := fun _ e => (0, e);
     __wt_txn_commit := fun _ e => (0, e);
     __wt_txn_rollback := fun _ e => (0, e);
     __wt_calloc_def := fun _ e => (calloc_r, e);
     open_cursor := fun _ _ _ e => ((open_r, e), e + 1);
     __wt_cursor_set_raw_key := fun _ _ e => e;
     __wt_cursor_set_raw_value := fun _ _ e => e;
     __wt_cursor_get_raw_value := fun _ _ => [Byte.x76];
     raw_value_flags := fun f => Z.lor f 32768;
     cursor_insert := fun _ e => (0, e);
     cursor_remove := fun _ e => (0, e);
     cursor_search := fun _ e => (search_r, e);
     cursor_reset := fun _ e => (0, e);
     cursor_close := fun _ e => (0, e);
     cb_notify := fun _ _ _ _ e => (notify_r, e);
     __wt_cond_wait := fun _ e => (0, e);
     __wt_cond_signal := fun _ e => (0, e) |}.

(** The engine on which every call succeeds. *)
Definition toy_ok : wt_internal := toy 0 0 0 0.

(** The engine before any call: the first cursor will be at address 100. *)
Definition toy_init (calloc_r open_r search_r notify_r : Z)
  : ST (toy calloc_r open_r search_r notify_r) :=
  mkST (wt := toy calloc_r open_r search_r notify_r) 100 [].

Definition toy_st : ST toy_ok := toy_init 0 0 0 0.

(** Two formats for different tables whose hash pairs coincide, and a
    format for a third table with hashes of its own. *)
Definition fmt_a : WT_ASYNC_FORMAT := mkFormat "table:a" "" 7 9.
Definition fmt_b : WT_ASYNC_FORMAT := mkFormat "table:b" "" 7 9.
Definition fmt_c : WT_ASYNC_FORMAT := mkFormat "table:c" "" 8 9.

Definition item_k : WT_ITEM := [Byte.x6b].
Definition item_x : WT_ITEM := [Byte.x78].

Definition mk_op (f : WT_ASYNC_FORMAT) (t : WT_ASYNC_OPTYPE)
    (cb : option WT_ASYNC_CALLBACK) : WT_ASYNC_OP_IMPL :=
  mkOp (mkCursor item_k item_x (384 + 98304 + 1)) f WT_ASYNCOP_WORKING t cb.

Definition worker0 : WT_ASYNC_WORKER_STATE := mkWorker [] 0.

(** A cache of two cursors, the newer at the head, and the state in which
    a worker that opened them stands. *)
Definition worker2 : WT_ASYNC_WORKER_STATE :=
  mkWorker [mkAc 9 8 101; mkAc 9 7 100] 2.

Definition toy_st2 : ST toy_ok :=
  mkST (wt := toy_ok) 102
    [EvCalloc 1 0; EvOpenCursor 1 "table:a" "" 0 100;
     EvCalloc 1 0; EvOpenCursor 1 "table:c" "" 0 101].

(** The uri made of [n] letters a. *)
Fixpoint a_uri (n : nat) : string :=
  match n with
  | O => EmptyString
  | S n' => String "a"%char (a_uri n')
  end.

(** The sentinel and an insert on [table:a], both enqueued. *)
Definition the_flush_op : WT_ASYNC_OP_IMPL :=
  mkOp (mkCursor [] [] 0) (mkFormat "" "" 0 0) WT_ASYNCOP_ENQUEUED
    (WT_AOP_OTHER 0) None.
Definition the_insert : WT_ASYNC_OP_IMPL :=
  mkOp (mkCursor item_k item_x (384 + 98304)) fmt_a WT_ASYNCOP_ENQUEUED
    WT_AOP_INSERT None.

(** A pool of one worker with the sentinel (at address 1000) alone on the
    queue, a flush in progress. *)
Definition sys_single : System toy_ok :=
  mkSys (wt := toy_ok)
    (mkConn 256 1 (mkAsync [1000] 1 WT_ASYNC_FLUSH_IN_PROGRESS 0 1000))
    {[ 1000 := the_flush_op ]}
    [mkThread 1 AT_LOOP worker0]
    toy_st.

(** A pool of two workers; an insert (at address 2000) is queued ahead of
    the sentinel. *)
Definition sys_pair : System toy_ok :=
  mkSys (wt := toy_ok)
    (mkConn 256 2 (mkAsync [2000; 1000] 2 WT_ASYNC_FLUSH_IN_PROGRESS 0 1000))
    (<[ 2000 := the_insert ]> {[ 1000 := the_flush_op ]})
    [mkThread 1 AT_LOOP worker0; mkThread 2 AT_LOOP worker0]
    toy_st.

(** The single worker has taken the sentinel. *)
Definition sys_single_armed : System toy_ok :=
  default sys_single (run_workers [0%nat] sys_single).

(** The first worker holds the insert; the sentinel is at the head. *)
Definition sys_pair_held : System toy_ok :=
  default sys_pair (run_workers [0%nat] sys_pair).

(** The first worker holds the insert, the second has taken the sentinel. *)
Definition sys_pair_armed : System toy_ok :=
  default sys_pair (run_workers [0%nat; 1%nat] sys_pair).

(** Then the first worker runs the handler on the insert. *)
Definition sys_pair_done : System toy_ok :=
  default sys_pair (run_workers [0%nat; 1%nat; 0%nat] sys_pair).

(** Then the first worker comes back to the loop, finds FLUSHING set and
    is the last of the two. *)
Definition sys_pair_last : System toy_ok :=
  default sys_pair (run_workers [0%nat; 1%nat; 0%nat; 0%nat] sys_pair).

(** The run flag is cleared after the second worker has taken the
    sentinel, the first still holding the insert. *)
Definition sys_pair_stopped : System toy_ok := shutdown toy_ok sys_pair_armed.

(** Then the first worker runs the handler and comes back to the loop
    test. *)
Definition sys_pair_back : System toy_ok :=
  default sys_pair (run_workers [0%nat] sys_pair_stopped).

(** Then it finds the run flag clear and returns. *)
Definition sys_pair_gone : System toy_ok :=
  default sys_pair (run_workers [0%nat; 0%nat] sys_pair_stopped).

(** Then the second worker wakes once in the flush wait. *)
Definition sys_pair_left : System toy_ok :=
  default sys_pair (run_workers [0%nat; 0%nat; 1%nat] sys_pair_stopped).

(** A pool of one worker with two inserts (at addresses 2000 and 2001) on
    the queue and no flush, and the pool after the worker has handled
    both. *)
Definition sys_solo : System toy_ok :=
  mkSys (wt := toy_ok)
    (mkConn 256 1 (mkAsync [2000; 2001] 2 0 0 1000))
    (<[ 2000 := the_insert ]> (<[ 2001 := the_insert ]> {[ 1000 := the_flush_op ]}))
    [mkThread 1 AT_LOOP worker0]
    toy_st.

Definition sys_solo_done : System toy_ok :=
  default sys_solo (run_workers [0%nat; 0%nat; 0%nat; 0%nat] sys_solo).

(** The flush has completed and the first worker stands before its
    signal.  The initiator of the flush sees COMPLETE and clears the
    flags; a second flush begins; the insert, free again, is enqueued
    behind the sentinel. *)
Definition sys_pair_reset : System toy_ok := flush_end sys_pair_last.

Definition sys_pair_again : System toy_ok :=
  default sys_pair (flush_begin sys_pair_reset).

Definition sys_pair_more : System toy_ok :=
  default sys_pair (enqueue 2000 sys_pair_again).

(** Then the second worker wakes, comes back to the loop and takes the
    sentinel: FLUSHING is set again, the insert is at the head. *)
Definition sys_pair_rearmed : System toy_ok :=
  default sys_pair (run_workers [1%nat; 1%nat; 1%nat] sys_pair_more).

(** Then the first worker signals, locks, and takes the insert. *)
Definition sys_pair_taken : System toy_ok :=
  default sys_pair (run_workers [0%nat] sys_pair_rearmed).

(** Then it runs the handler on it. *)
Definition sys_pair_ran : System toy_ok :=
  default sys_pair (run_workers [0%nat; 0%nat] sys_pair_rearmed).

(** The same with a quiet second flush: the first worker signals, finds
    the queue empty and comes back to the loop before the flags are
    cleared, the second flush begins and the insert is enqueued; the
    second worker then takes the sentinel. *)
Definition sys_calm : System toy_ok :=
  default sys_pair (run_workers [0%nat] sys_pair_last).

Definition sys_calm_reset : System toy_ok := flush_end sys_calm.

Definition sys_calm_again : System toy_ok :=
  default sys_pair (flush_begin sys_calm_reset).

Definition sys_calm_more : System toy_ok :=
  default sys_pair (enqueue 2000 sys_calm_again).

Definition sys_calm_rearmed : System toy_ok :=
  default sys_pair (run_workers [1%nat; 1%nat; 1%nat] sys_calm_more).

(** The pool of two workers, the first of which has passed the loop
    test when the run flag is cleared, and the pool after this worker has
    taken the lock. *)
Definition pool_pair_late : Pool toy_ok :=
  mkPool (shutdown toy_ok sys_pair) [0%nat].

Definition pool_pair_took : Pool toy_ok :=
  mkPool (default sys_pair (late_step 0 (shutdown toy_ok sys_pair))) [].

(** The first worker has run the handler and passed the loop test for
    the next turn when the run flag is cleared, FLUSHING being set: the
    system after it has taken the lock. *)
Definition sys_pair_counted : System toy_ok :=
  default sys_pair (late_step 0 (shutdown toy_ok sys_pair_done)).

(** The pool in which the run flag is cleared after the second worker has
    taken the sentinel, no worker having passed the loop test, and the
    pool after the first worker has run the handler and returned and the
    second has woken once. *)
Definition pool_pair_stopped : Pool toy_ok := mkPool sys_pair_stopped [].

Definition pool_pair_left : Pool toy_ok := mkPool sys_pair_left [].

(** * Properties *)

(** Unfold the monad and the wrappers of the engine calls. *)
Ltac run :=
  unfold bind, ret, txn_begin, txn_commit, txn_rollback, calloc_def, wt_free,
    session_open_cursor, set_raw_key, set_raw_value, get_raw_value,
    c_insert, c_remove, c_search, c_reset, c_close, cb_call,
    cond_wait, cond_signal, emit, call, call_void; simpl.

(** ** The cursor cache *)

Section CursorCache.

Context (wt : wt_internal).

(** The loop finds nothing exactly when no entry carries the hash pair. *)
Lemma cursorqh_foreach_None f q :
  cursorqh_foreach f q = None <-> Forall (fun ac => ac_matches f ac = false) q.
Proof.
  induction q as [|ac q IH]; simpl.
  - split; [constructor | reflexivity].
  - destruct (ac_matches f ac) eqn:Hm.
    + split; [discriminate|]. intros H. inversion H; congruence.
    + rewrite IH. split.
      * intros H. constructor; assumption.
      * intros H. inversion H; assumption.
Qed.

(** The loop returns the first entry, from the head, that carries the
    hash pair. *)
Lemma cursorqh_foreach_Some f q ac :
  cursorqh_foreach f q = Some ac <->
  exists l1 l2, q = l1 ++ ac :: l2 /\ ac_matches f ac = true /\
                Forall (fun x => ac_matches f x = false) l1.
Proof.
  induction q as [|a q IH]; simpl.
  - split; [discriminate|].
    intros (l1 & l2 & H & _). destruct l1; discriminate.
  - destruct (ac_matches f a) eqn:Hm.
    + split.
      * intros [= <-]. exists [], q. repeat split; auto.
      * intros (l1 & l2 & Hq & Hac & Hl1).
        destruct l1 as [|b l1]; simpl in Hq.
        -- congruence.
        -- injection Hq as -> _. inversion Hl1; congruence.
    + rewrite IH. split.
      * intros (l1 & l2 & -> & Hac & Hl1).
        exists (a :: l1), l2. repeat split; auto.
      * intros (l1 & l2 & Hq & Hac & Hl1).
        destruct l1 as [|b l1]; simpl in Hq.
        -- injection Hq as -> _. congruence.
        -- injection Hq as -> ->. inversion Hl1; subst.
           exists l1, l2. repeat split; auto.
Qed.

Lemma ac_matches_true f ac :
  ac_matches f ac = true <->
  cfg_hash f = ac_cfg_hash ac /\ uri_hash f = ac_uri_hash ac.
Proof. unfold ac_matches. rewrite andb_true_iff, !Z.eqb_eq. tauto. Qed.

Lemma ac_matches_false f ac :
  ac_matches f ac = false <->
  cfg_hash f <> ac_cfg_hash ac \/ uri_hash f <> ac_uri_hash ac.
Proof. unfold ac_matches. rewrite andb_false_iff, !Z.eqb_neq. tauto. Qed.

(** The signature test reads the two hashes of the format only. *)
Lemma ac_matches_hashes f g ac :
  cfg_hash f = cfg_hash g -> uri_hash f = uri_hash g ->
  ac_matches f ac = ac_matches g ac.
Proof. unfold ac_matches. intros -> ->. reflexivity. Qed.

Lemma cursorqh_foreach_hashes f g q :
  cfg_hash f = cfg_hash g -> uri_hash f = uri_hash g ->
  cursorqh_foreach f q = cursorqh_foreach g q.
Proof.
  intros Hc Hu. induction q as [|ac q IH]; simpl; [reflexivity|].
  rewrite (ac_matches_hashes f g ac Hc Hu), IH. reflexivity.
Qed.

(** A hit: no call leaves the file and nothing changes. *)
Lemma worker_cursor_hit s op w st ac :
  cursorqh_foreach (op_format op) (cursorqh w) = Some ac ->
  __async_worker_cursor wt s op w st = ((0, w, ac_c ac), st).
Proof. intros H. unfold __async_worker_cursor. rewrite H. reflexivity. Qed.

(** A miss: the three ways out. *)
Lemma worker_cursor_miss s op w st :
  cursorqh_foreach (op_format op) (cursorqh w) = None ->
  let '(rc, e1) := __wt_calloc_def wt s (st_eng st) in
  let '((ro, c), e2) :=
    open_cursor wt s (uri (op_format op)) (config (op_format op)) e1 in
  __async_worker_cursor wt s op w st =
    if negb (rc =? 0) then
      ((rc, w, NULL), mkST e1 (st_trace st ++ [EvCalloc s rc]))
    else if negb (ro =? 0) then
      ((ro, w, NULL),
       mkST e2 (st_trace st ++
                [EvCalloc s rc;
                 EvOpenCursor s (uri (op_format op)) (config (op_format op)) ro c;
                 EvFree s]))
    else
      ((0, mkWorker (mkAc (cfg_hash (op_format op)) (uri_hash (op_format op)) c
                       :: cursorqh w)
             (u32 (num_cursors w + 1)), c),
       mkST e2 (st_trace st ++
                [EvCalloc s rc;
                 EvOpenCursor s (uri (op_format op)) (config (op_format op)) ro c])).
Proof.
  intros H.
  destruct (__wt_calloc_def wt s (st_eng st)) as [rc e1] eqn:Hc.
  destruct (open_cursor wt s _ _ e1) as [[ro c] e2] eqn:Ho.
  unfold __async_worker_cursor. rewrite H. run. rewrite Hc.
  destruct (negb (rc =? 0)); [reflexivity|]. simpl. rewrite Ho.
  destruct (negb (ro =? 0)); simpl; rewrite <- !app_assoc; reflexivity.
Qed.

End CursorCache.

Section CursorCacheProperties.

Context (wt : wt_internal).

Lemma opened_for_app tr tr' c f :
  opened_for tr c f -> opened_for (tr ++ tr') c f.
Proof. intros [s H]. exists s. apply in_or_app. left. exact H. Qed.

Lemma cache_wf_app known tr tr' q :
  cache_wf known tr q -> cache_wf known (tr ++ tr') q.
Proof.
  intros H ac Hac. destruct (H ac Hac) as (f & ? & ? & ? & ?).
  exists f. repeat split; auto using opened_for_app.
Qed.

Lemma cache_wf_nil known tr : cache_wf known tr [].
Proof. intros ac []. Qed.

(** The cache invariant is kept by every get-or-open call for an op whose
    format is known. *)
Lemma worker_cursor_cache_wf known s op w st :
  known (op_format op) ->
  cache_wf known (st_trace st) (cursorqh w) ->
  let '((_, w', _), st') := __async_worker_cursor wt s op w st in
  cache_wf known (st_trace st') (cursorqh w').
Proof.
  intros Hk Hwf.
  destruct (cursorqh_foreach (op_format op) (cursorqh w)) as [ac|] eqn:Hf.
  - rewrite (worker_cursor_hit wt s op w st ac Hf). exact Hwf.
  - pose proof (worker_cursor_miss wt s op w st Hf) as Hm.
    destruct (__wt_calloc_def wt s (st_eng st)) as [rc e1].
    destruct (open_cursor wt s _ _ e1) as [[ro c] e2].
    rewrite Hm.
    destruct (negb (rc =? 0)); simpl; [apply cache_wf_app, Hwf|].
    destruct (negb (ro =? 0)) eqn:Hro; simpl; [apply cache_wf_app, Hwf|].
    apply negb_false_iff, Z.eqb_eq in Hro. subst ro.
    intros ac [<-|Hac].
    + exists (op_format op). simpl. repeat split; [exact Hk|].
      exists s. apply in_or_app. right. simpl. auto.
    + exact (cache_wf_app _ _ _ _ Hwf ac Hac).
Qed.

(** C6 (as amended): a lookup walks the cache from its head and the first
    entry whose two hashes equal those of the op's format wins; the uri and
    config strings are not compared; nothing is opened and nothing changes;
    the cursor returned was opened for a known format with that hash pair,
    and it was opened for the op's own uri and config when the op's format
    is known and the hash pair determines the uri and the config among the
    known formats. *)
Theorem worker_cursor_lookup known s op w st l1 ac l2 :
  cache_wf known (st_trace st) (cursorqh w) ->
  cursorqh w = l1 ++ ac :: l2 ->
  Forall (fun x => cfg_hash (op_format op) <> ac_cfg_hash x \/
                   uri_hash (op_format op) <> ac_uri_hash x) l1 ->
  cfg_hash (op_format op) = ac_cfg_hash ac ->
  uri_hash (op_format op) = ac_uri_hash ac ->
  __async_worker_cursor wt s op w st = ((0, w, ac_c ac), st) /\
  (exists f, known f /\
             cfg_hash f = cfg_hash (op_format op) /\
             uri_hash f = uri_hash (op_format op) /\
             opened_for (st_trace st) (ac_c ac) f) /\
  (known (op_format op) -> hashes_determine known ->
   opened_for (st_trace st) (ac_c ac) (op_format op)).
Proof.
  intros Hwf Hq Hl1 Hc Hu.
  assert (Hfind : cursorqh_foreach (op_format op) (cursorqh w) = Some ac).
  { apply cursorqh_foreach_Some. exists l1, l2. repeat split; auto.
    - apply ac_matches_true. auto.
    - eapply Forall_impl; [exact Hl1|]. intros x Hx.
      apply ac_matches_false. exact Hx. }
  assert (Hex : exists f, known f /\
             cfg_hash f = cfg_hash (op_format op) /\
             uri_hash f = uri_hash (op_format op) /\
             opened_for (st_trace st) (ac_c ac) f).
  { destruct (Hwf ac) as (f & Hk & Hfc & Hfu & Hop).
    - rewrite Hq. apply in_or_app. right. left. reflexivity.
    - exists f. repeat split; congruence. }
  split; [apply worker_cursor_hit; exact Hfind|].
  split; [exact Hex|].
  intros Hk Hinj. destruct Hex as (f & Hkf & Hfc & Hfu & s' & Hin).
  destruct (Hinj f (op_format op) Hkf Hk Hfc Hfu) as [Huri Hcfg].
  exists s'. rewrite <- Huri, <- Hcfg. exact Hin.
Qed.

(** What one get-or-open call adds to the trace: at most one call of
    [open_cursor], and no opened cursor when the call fails. *)
Lemma worker_cursor_opens s op w st :
  let '((r, _, _), st') := __async_worker_cursor wt s op w st in
  exists delta, st_trace st' = st_trace st ++ delta /\
                (count_opens delta <= 1)%nat /\
                (count_opened delta <= 1)%nat /\
                (r <> 0 -> count_opened delta = 0%nat).
Proof.
  destruct (cursorqh_foreach (op_format op) (cursorqh w)) as [ac|] eqn:Hf.
  - rewrite (worker_cursor_hit wt s op w st ac Hf).
    exists []. rewrite app_nil_r. unfold count_opens, count_opened. simpl.
    repeat split; auto.
  - pose proof (worker_cursor_miss wt s op w st Hf) as Hm.
    destruct (__wt_calloc_def wt s (st_eng st)) as [rc e1].
    destruct (open_cursor wt s _ _ e1) as [[ro c] e2].
    rewrite Hm. clear Hm.
    destruct (negb (rc =? 0)); simpl.
    { eexists. split; [reflexivity|].
      unfold count_opens, count_opened. simpl. repeat split; auto. }
    destruct (Z.eqb_spec ro 0) as [->|Hro]; simpl.
    + eexists. split; [reflexivity|].
      unfold count_opens, count_opened. simpl. repeat split; auto.
      intros H. contradiction H. reflexivity.
    + eexists. split; [reflexivity|].
      unfold count_opens, count_opened. simpl.
      destruct (Z.eqb_spec ro 0); [contradiction|]. simpl. repeat split; auto.
Qed.

(** After a get-or-open call that returned a cursor, a call for a format
    with the same hash pair is a hit on that cursor, in whatever state the
    engine is by then. *)
Lemma worker_cursor_second_hit s op1 op2 w st :
  cfg_hash (op_format op1) = cfg_hash (op_format op2) ->
  uri_hash (op_format op1) = uri_hash (op_format op2) ->
  let '((r1, w1, c1), _) := __async_worker_cursor wt s op1 w st in
  r1 = 0 ->
  forall st', __async_worker_cursor wt s op2 w1 st' = ((0, w1, c1), st').
Proof.
  intros Hc Hu.
  destruct (cursorqh_foreach (op_format op1) (cursorqh w)) as [ac|] eqn:Hf.
  - rewrite (worker_cursor_hit wt s op1 w st ac Hf). intros _ st'.
    rewrite (cursorqh_foreach_hashes _ (op_format op2)) in Hf by assumption.
    apply worker_cursor_hit. exact Hf.
  - pose proof (worker_cursor_miss wt s op1 w st Hf) as Hm.
    destruct (__wt_calloc_def wt s (st_eng st)) as [rc e1].
    destruct (open_cursor wt s _ _ e1) as [[ro c] e2].
    rewrite Hm. clear Hm.
    destruct (negb (rc =? 0)) eqn:Hrc; simpl.
    { intros ->. discriminate. }
    destruct (negb (ro =? 0)) eqn:Hro; simpl.
    { intros ->. discriminate. }
    intros _ st'.
    apply (worker_cursor_hit wt s op2 _ _
             (mkAc (cfg_hash (op_format op1)) (uri_hash (op_format op1)) c)).
    simpl. unfold ac_matches. simpl. rewrite Hc, Hu, !Z.eqb_refl. reflexivity.
Qed.

(** A get-or-open call that fails leaves the cache as it was, and the
    next call for the same hash pair misses again. *)
Lemma worker_cursor_failed s op w st :
  let '((r, w', c), _) := __async_worker_cursor wt s op w st in
  r <> 0 ->
  w' = w /\ c = NULL /\ cursorqh_foreach (op_format op) (cursorqh w) = None.
Proof.
  destruct (cursorqh_foreach (op_format op) (cursorqh w)) as [ac|] eqn:Hf.
  - rewrite (worker_cursor_hit wt s op w st ac Hf). intros H.
    contradiction H. reflexivity.
  - pose proof (worker_cursor_miss wt s op w st Hf) as Hm.
    destruct (__wt_calloc_def wt s (st_eng st)) as [rc e1].
    destruct (open_cursor wt s _ _ e1) as [[ro c] e2].
    rewrite Hm. clear Hm.
    destruct (negb (rc =? 0)); simpl; [auto|].
    destruct (Z.eqb_spec ro 0) as [->|Hro]; simpl; [|auto].
    intros H. contradiction H. reflexivity.
Qed.

(** What a get-or-open call that returns a cursor has done: a hit, or an
    allocation and one [open_cursor] on the uri and config of the op's
    format, whose cursor is cached at the head. *)
Lemma worker_cursor_returned s op w st :
  let '((r, w', c), st') := __async_worker_cursor wt s op w st in
  r = 0 ->
  (exists ac, cursorqh_foreach (op_format op) (cursorqh w) = Some ac /\
              ac_c ac = c /\ w' = w /\ st' = st) \/
  (cursorqh_foreach (op_format op) (cursorqh w) = None /\
   st_trace st' = st_trace st ++
     [EvCalloc s 0;
      EvOpenCursor s (uri (op_format op)) (config (op_format op)) 0 c] /\
   w' = mkWorker
          (mkAc (cfg_hash (op_format op)) (uri_hash (op_format op)) c
             :: cursorqh w)
          (u32 (num_cursors w + 1))).
Proof.
  destruct (cursorqh_foreach (op_format op) (cursorqh w)) as [ac|] eqn:Hf.
  - rewrite (worker_cursor_hit wt s op w st ac Hf). intros _.
    left. exists ac. auto.
  - pose proof (worker_cursor_miss wt s op w st Hf) as Hm.
    destruct (__wt_calloc_def wt s (st_eng st)) as [rc e1].
    destruct (open_cursor wt s _ _ e1) as [[ro c] e2].
    rewrite Hm. clear Hm.
    destruct (Z.eqb_spec rc 0) as [->|Hrc]; simpl; [|intros; contradiction].
    destruct (Z.eqb_spec ro 0) as [->|Hro]; simpl; [|intros; contradiction].
    intros _. right. auto.
Qed.

(** A call that misses allocates, and calls [open_cursor] when the
    allocation succeeds. *)
Lemma worker_cursor_miss_calls s op w st :
  cursorqh_foreach (op_format op) (cursorqh w) = None ->
  exists rc tl,
    st_trace (snd (__async_worker_cursor wt s op w st)) =
      st_trace st ++ EvCalloc s rc :: tl /\
    (rc = 0 ->
     exists ro c tl',
       tl = EvOpenCursor s (uri (op_format op)) (config (op_format op)) ro c
              :: tl').
Proof.
  intros Hf. pose proof (worker_cursor_miss wt s op w st Hf) as Hm.
  destruct (__wt_calloc_def wt s (st_eng st)) as [rc e1].
  destruct (open_cursor wt s _ _ e1) as [[ro c] e2].
  rewrite Hm. clear Hm.
  destruct (Z.eqb_spec rc 0) as [->|Hrc]; simpl.
  - destruct (negb (ro =? 0)); simpl; eexists _, _;
      (split; [reflexivity|]); intros _; eexists _, _, _; reflexivity.
  - eexists _, _. split; [reflexivity|]. intros; contradiction.
Qed.

(** C9 (as amended): take two consecutive get-or-open calls of a worker
    for formats with the same hash pair, the second made on the cache the
    first left and in whatever state the engine is by then.  Between them
    they open at most one cursor.  When the first returns a cursor, it has
    found it in the cache, or it has opened it with one call of
    [open_cursor] on the uri and config of its format and cached it at the
    head; the cache then serves that cursor, and the second call returns
    it from the cache, calls nothing and changes nothing.  When the first
    fails, the cache is as it was and the second call misses again: it
    allocates and, the allocation done, calls [open_cursor] once more. *)
Theorem consecutive_ops_one_open s op1 op2 w st st' :
  cfg_hash (op_format op1) = cfg_hash (op_format op2) ->
  uri_hash (op_format op1) = uri_hash (op_format op2) ->
  let '((r1, w1, c1), st1) := __async_worker_cursor wt s op1 w st in
  let '((r2, w2, c2), st2) := __async_worker_cursor wt s op2 w1 st' in
  (exists d1 d2,
     st_trace st1 = st_trace st ++ d1 /\
     st_trace st2 = st_trace st' ++ d2 /\
     (count_opened d1 + count_opened d2 <= 1)%nat /\
     (r1 = 0 ->
      (count_opens d1 <= 1)%nat /\ d2 = [] /\
      ((exists ac, cursorqh_foreach (op_format op1) (cursorqh w) = Some ac /\
                   ac_c ac = c1 /\ w1 = w /\ d1 = []) \/
       (cursorqh_foreach (op_format op1) (cursorqh w) = None /\
        d1 = [EvCalloc s 0;
              EvOpenCursor s (uri (op_format op1)) (config (op_format op1))
                0 c1] /\
        w1 = mkWorker
               (mkAc (cfg_hash (op_format op1)) (uri_hash (op_format op1)) c1
                  :: cursorqh w)
               (u32 (num_cursors w + 1))))) /\
     (r1 <> 0 ->
      w1 = w /\ c1 = NULL /\
      exists rc tl,
        d2 = EvCalloc s rc :: tl /\
        (rc = 0 ->
         exists ro c tl',
           tl = EvOpenCursor s (uri (op_format op2)) (config (op_format op2))
                  ro c :: tl'))) /\
  (r1 = 0 ->
   serves w1 (op_format op2) c1 /\
   r2 = 0 /\ c2 = c1 /\ w2 = w1 /\ st2 = st').
Proof.
  intros Hc Hu.
  pose proof (worker_cursor_opens s op1 w st) as H1.
  pose proof (worker_cursor_second_hit s op1 op2 w st Hc Hu) as Hhit.
  pose proof (worker_cursor_returned s op1 w st) as Hret.
  pose proof (worker_cursor_failed s op1 w st) as Hfail.
  destruct (__async_worker_cursor wt s op1 w st) as [[[r1 w1] c1] st1].
  destruct H1 as (d1 & Hd1 & Hn1 & Ho1 & Hz1).
  pose proof (worker_cursor_opens s op2 w1 st') as H2.
  destruct (Z.eq_dec r1 0) as [Hr1|Hr1].
  - rewrite (Hhit Hr1 st') in *.
    assert (Hserve : serves w1 (op_format op2) c1).
    { destruct (Hret Hr1) as [(ac & Hf & Hac & -> & _)|(Hf & _ & ->)].
      - exists ac. split; [|exact Hac].
        rewrite <- (cursorqh_foreach_hashes (op_format op1)) by assumption.
        exact Hf.
      - exists (mkAc (cfg_hash (op_format op1)) (uri_hash (op_format op1)) c1).
        split; [|reflexivity]. simpl. unfold ac_matches. simpl.
        rewrite <- Hc, <- Hu, !Z.eqb_refl. reflexivity. }
    split.
    + exists d1, []. rewrite app_nil_r. split; [exact Hd1|].
      split; [reflexivity|].
      split; [unfold count_opened at 2; simpl; lia|].
      split; [|intros; contradiction].
      intros _. split; [exact Hn1|]. split; [reflexivity|].
      destruct (Hret Hr1) as [(ac & Hf & Hac & -> & ->)|(Hf & Ht & ->)].
      * left. exists ac. repeat split; auto.
        apply (app_inv_head (st_trace st)). rewrite app_nil_r.
        symmetry. exact Hd1.
      * right. split; [exact Hf|]. split; [|reflexivity].
        apply (app_inv_head (st_trace st)). rewrite <- Hd1. exact Ht.
    + intros _. split; [exact Hserve|]. repeat split.
  - destruct (Hfail Hr1) as (-> & -> & Hnone).
    rewrite (cursorqh_foreach_hashes _ (op_format op2)) in Hnone by assumption.
    pose proof (worker_cursor_miss_calls s op2 w st' Hnone)
      as (rc & tl & Ht2 & Hopen).
    destruct (__async_worker_cursor wt s op2 w st') as [[[r2 w2] c2] st2].
    destruct H2 as (d2 & Hd2 & _ & Ho2 & _).
    split; [|intros; contradiction].
    exists d1, d2. split; [exact Hd1|]. split; [exact Hd2|].
    split; [rewrite (Hz1 Hr1); simpl; exact Ho2|].
    split; [intros; contradiction|].
    intros _. split; [reflexivity|]. split; [reflexivity|].
    exists rc, tl. split; [|exact Hopen].
    apply (app_inv_head (st_trace st')). rewrite <- Hd2. exact Ht2.
Qed.

End CursorCacheProperties.

(** C6 (as stated) fails: after an op on [table:a], an op on [table:b]
    whose format has the same two hashes is served the cursor that was
    opened on [table:a]; no cursor was ever opened on [table:b]. *)
Lemma worker_cursor_hash_collision :
  let '((_, w1, c1), st1) :=
    __async_worker_cursor toy_ok 1 (mk_op fmt_a WT_AOP_INSERT None) worker0 toy_st in
  __async_worker_cursor toy_ok 1 (mk_op fmt_b WT_AOP_INSERT None) w1 st1 =
    ((0, w1, c1), st1) /\
  opened_for (st_trace st1) c1 fmt_a /\
  ~ returns_usable toy_ok 1 (mk_op fmt_b WT_AOP_INSERT None) w1 st1.
Proof.
  vm_compute. split; [reflexivity|]. split.
  - exists 1. right. left. reflexivity.
  - intros H. destruct (H eq_refl) as [s Hin].
    destruct Hin as [Hin|[Hin|[]]]; discriminate Hin.
Qed.

Lemma worker_cursor_lookup_witness :
  __async_worker_cursor toy_ok 1 (mk_op fmt_a WT_AOP_SEARCH None) worker2 toy_st2
  = ((0, worker2, 100), toy_st2) /\
  (exists f, (f = fmt_a \/ f = fmt_c) /\
             cfg_hash f = cfg_hash fmt_a /\ uri_hash f = uri_hash fmt_a /\
             opened_for (st_trace toy_st2) 100 f) /\
  opened_for (st_trace toy_st2) 100 fmt_a.
Proof.
  destruct (worker_cursor_lookup toy_ok (fun f => f = fmt_a \/ f = fmt_c) 1
              (mk_op fmt_a WT_AOP_SEARCH None) worker2 toy_st2
              [mkAc 9 8 101] (mkAc 9 7 100) []) as (H1 & H2 & H3).
  - intros ac [<-|[<-|[]]].
    + exists fmt_c. repeat split; [right; reflexivity|]. exists 1. simpl. tauto.
    + exists fmt_a. repeat split; [left; reflexivity|]. exists 1. simpl. tauto.
  - reflexivity.
  - constructor; [|constructor]. right. simpl. lia.
  - reflexivity.
  - reflexivity.
  - split; [exact H1|]. split; [exact H2|]. apply H3.
    + left. reflexivity.
    + intros f g [-> | ->] [-> | ->] Hc Hu; simpl in Hu; try lia; split; reflexivity.
Defined.

(** C9 (as stated) fails: on an engine whose [open_cursor] fails, the
    first call for [table:a] caches nothing, and the next call for the same
    format is no hit: it calls [open_cursor] again. *)
Lemma failed_open_is_retried :
  let '((r1, w1, c1), st1) :=
    __async_worker_cursor (toy 0 5 0 0) 1 (mk_op fmt_a WT_AOP_INSERT None)
      worker0 (toy_init 0 5 0 0) in
  let '((r2, w2, c2), st2) :=
    __async_worker_cursor (toy 0 5 0 0) 1 (mk_op fmt_a WT_AOP_SEARCH None)
      w1 st1 in
  r1 = 5 /\ w1 = worker0 /\ r2 = 5 /\
  st_trace st2 =
    [EvCalloc 1 0; EvOpenCursor 1 "table:a" EmptyString 5 100; EvFree 1;
     EvCalloc 1 0; EvOpenCursor 1 "table:a" EmptyString 5 101; EvFree 1] /\
  count_opens (st_trace st2) = 2%nat.
Proof. vm_compute. repeat split. Qed.

Lemma consecutive_ops_one_open_witness :
  let '((r1, w1, c1), st1) :=
    __async_worker_cursor toy_ok 1 (mk_op fmt_a WT_AOP_INSERT None) worker0 toy_st in
  let '((r2, w2, c2), st2) :=
    __async_worker_cursor toy_ok 1 (mk_op fmt_a WT_AOP_SEARCH None) w1 toy_st2 in
  (exists d1 d2,
     st_trace st1 = st_trace toy_st ++ d1 /\
     st_trace st2 = st_trace toy_st2 ++ d2 /\
     (count_opened d1 + count_opened d2 <= 1)%nat /\
     (r1 = 0 ->
      (count_opens d1 <= 1)%nat /\ d2 = [] /\
      ((exists ac, cursorqh_foreach fmt_a (cursorqh worker0) = Some ac /\
                   ac_c ac = c1 /\ w1 = worker0 /\ d1 = []) \/
       (cursorqh_foreach fmt_a (cursorqh worker0) = None /\
        d1 = [EvCalloc 1 0; EvOpenCursor 1 (uri fmt_a) (config fmt_a) 0 c1] /\
        w1 = mkWorker
               (mkAc (cfg_hash fmt_a) (uri_hash fmt_a) c1 :: cursorqh worker0)
               (u32 (num_cursors worker0 + 1))))) /\
     (r1 <> 0 ->
      w1 = worker0 /\ c1 = NULL /\
      exists rc tl,
        d2 = EvCalloc 1 rc :: tl /\
        (rc = 0 ->
         exists ro c tl',
           tl = EvOpenCursor 1 (uri fmt_a) (config fmt_a) ro c :: tl'))) /\
  (r1 = 0 ->
   serves w1 fmt_a c1 /\
   r2 = 0 /\ c2 = c1 /\ w2 = w1 /\ st2 = toy_st2).
Proof.
  exact (consecutive_ops_one_open toy_ok 1 (mk_op fmt_a WT_AOP_INSERT None)
           (mk_op fmt_a WT_AOP_SEARCH None) worker0 toy_st toy_st2
           eq_refl eq_refl).
Defined.

(** ** The executor *)

Section Executor.

Context (wt : wt_internal).

(** C7: the executor first binds the op's key as the raw key of the
    cursor; INSERT and UPDATE (after binding the value) call the cursor's
    insert, REMOVE its remove and SEARCH its search, with the status of
    that call returned; after a search with status 0 the raw value of the
    cursor is read and stored in the op's value, every other field of the
    op kept; after any other search (NOT_FOUND included) and for every
    other kind the op is unchanged; a kind outside the four returns
    EINVAL and calls no cursor method. *)
Theorem execop_dispatch s op c st :
  let k := cur_key (op_c op) in
  let v := cur_value (op_c op) in
  let '((r, op'), st') := __async_worker_execop wt s op c st in
  exists tail, st_trace st' = st_trace st ++ EvSetRawKey c k :: tail /\
  match op_optype op with
  | WT_AOP_INSERT | WT_AOP_UPDATE =>
      tail = [EvSetRawValue c v; EvInsert c r] /\ op' = op
  | WT_AOP_REMOVE =>
      tail = [EvRemove c r] /\ op' = op
  | WT_AOP_SEARCH =>
      (r = 0 /\
       exists val, tail = [EvSearch c 0; EvGetRawValue c val] /\
                   val = __wt_cursor_get_raw_value wt c (st_eng st') /\
                   cur_value (op_c op') = val /\
                   op' = set_op_c
                           (mkCursor k val
                              (raw_value_flags wt (cur_flags (op_c op)))) op)
      \/
      (r <> 0 /\ tail = [EvSearch c r] /\ op' = op)
  | WT_AOP_OTHER _ =>
      r = EINVAL wt /\ op' = op /\
      tail = [EvSetRawValue c v; EvErr s (EINVAL wt)]
  end.
Proof.
  unfold __async_worker_execop. run.
  destruct (op_optype op); run.
  - destruct (cursor_insert wt c _) as [r e]. simpl.
    eexists. rewrite <- !app_assoc. simpl. repeat split.
  - destruct (cursor_insert wt c _) as [r e]. simpl.
    eexists. rewrite <- !app_assoc. simpl. repeat split.
  - destruct (cursor_remove wt c _) as [r e]. simpl.
    eexists. rewrite <- !app_assoc. simpl. repeat split.
  - destruct (cursor_search wt c _) as [r e]. simpl.
    destruct (Z.eqb_spec r 0) as [->|Hr]; simpl.
    + eexists. rewrite <- !app_assoc. simpl. split; [reflexivity|].
      left. split; [reflexivity|]. eexists. repeat split.
    + eexists. rewrite <- !app_assoc. simpl. split; [reflexivity|].
      right. repeat split. exact Hr.
  - eexists. rewrite <- !app_assoc. simpl. repeat split.
Qed.

(** The executor keeps the callback of the op. *)
Lemma execop_op_cb s op c st :
  op_cb (snd (fst (__async_worker_execop wt s op c st))) = op_cb op.
Proof.
  unfold __async_worker_execop. run.
  destruct (op_optype op); run;
    try (destruct (cursor_insert wt c _) as [r e]; reflexivity);
    try (destruct (cursor_remove wt c _) as [r e]; reflexivity);
    try reflexivity.
  destruct (cursor_search wt c _) as [r e]. simpl.
  destruct (negb (r =? 0)); reflexivity.
Qed.

(** The executor makes calls on the cursor only. *)
Lemma execop_inner s op c st :
  exists d, st_trace (snd (__async_worker_execop wt s op c st)) = st_trace st ++ d /\
            Forall (fun e => inner e = true) d.
Proof.
  unfold __async_worker_execop. run.
  destruct (op_optype op); run;
    try (destruct (cursor_insert wt c _) as [r e]; simpl);
    try (destruct (cursor_remove wt c _) as [r e]; simpl);
    try (destruct (cursor_search wt c _) as [r e]; simpl;
         destruct (negb (r =? 0)); simpl);
    rewrite <- ?app_assoc; simpl;
    eexists; (split; [reflexivity|]); repeat constructor.
Qed.

End Executor.

(** ** The op handler *)

Section Handler.

Context (wt : wt_internal).

Lemma commit_test_spec status cb_ret :
  commit_test wt status cb_ret = true <->
  (status = 0 \/ status = WT_NOTFOUND wt) /\ cb_ret = 0.
Proof.
  unfold commit_test. rewrite andb_true_iff, orb_true_iff, !Z.eqb_eq. tauto.
Qed.

Lemma txn_begin_trace s st :
  st_trace (snd (txn_begin wt s st)) =
  st_trace st ++ [EvTxnBegin s (fst (txn_begin wt s st))].
Proof. run. destruct (__wt_txn_begin wt s _). reflexivity. Qed.

(** A get-or-open call allocates, opens and frees only; when it fails it leaves
    the worker state as it was, and when it succeeds the cursor it returns
    is in the cache. *)
Lemma worker_cursor_effects s op w st :
  let '((r, w', c), st') := __async_worker_cursor wt s op w st in
  (exists d, st_trace st' = st_trace st ++ d /\
             Forall (fun e => inner e = true) d) /\
  (r <> 0 -> w' = w) /\
  (r = 0 -> exists ac, In ac (cursorqh w') /\ ac_c ac = c).
Proof.
  destruct (cursorqh_foreach (op_format op) (cursorqh w)) as [ac|] eqn:Hf.
  - rewrite (worker_cursor_hit wt s op w st ac Hf).
    split; [exists []; rewrite app_nil_r; auto|]. split; [auto|].
    intros _. exists ac. split; [|reflexivity].
    apply cursorqh_foreach_Some in Hf. destruct Hf as (l1 & l2 & -> & _).
    apply in_or_app. right. left. reflexivity.
  - pose proof (worker_cursor_miss wt s op w st Hf) as Hm.
    destruct (__wt_calloc_def wt s (st_eng st)) as [rc e1].
    destruct (open_cursor wt s _ _ e1) as [[ro c] e2].
    rewrite Hm. clear Hm.
    destruct (Z.eqb_spec rc 0) as [->|Hrc]; simpl.
    2:{ split; [eexists; split; [reflexivity|repeat constructor]|].
        split; [auto|]. intros; contradiction. }
    destruct (Z.eqb_spec ro 0) as [->|Hro]; simpl.
    2:{ split; [eexists; split; [reflexivity|repeat constructor]|].
        split; [auto|]. intros; contradiction. }
    split; [eexists; split; [reflexivity|repeat constructor]|].
    split; [intros H; contradiction H; reflexivity|].
    intros _. eexists. split; [left; reflexivity|reflexivity].
Qed.

Lemma run_callback_inner op status st :
  exists d, st_trace (snd (run_callback wt op status st)) = st_trace st ++ d /\
            Forall (fun e => inner e = true) d.
Proof.
  unfold run_callback.
  destruct (op_cb op) as [[[f|]]|]; run;
    try (exists []; rewrite app_nil_r; split; [reflexivity|constructor]).
  destruct (cb_notify wt f op status 0 _) as [r e]. simpl.
  eexists. split; [reflexivity|repeat constructor].
Qed.

(** Without a callback, or without its notify member, the callback return
    stays 0 and nothing is called. *)
Lemma run_callback_none op status st :
  op_cb op = None \/ op_cb op = Some (mkCallback None) ->
  run_callback wt op status st = (0, st).
Proof. unfold run_callback. intros [->| ->]; reflexivity. Qed.

(** The handler, call by call. *)
Lemma worker_op_unfold s op w st :
  __async_worker_op wt s op w st =
  let '(r0, st1) := txn_begin wt s st in
  if negb (r0 =? 0) then ((r0, op, w), st1)
  else
    let '((r1, w1, c), st2) := __async_worker_cursor wt s op w st1 in
    if negb (r1 =? 0) then ((r1, op, w1), st2)
    else
      let '((status, op1), st3) := __async_worker_execop wt s op c st2 in
      let '(cb_ret, st4) := run_callback wt op1 status st3 in
      let '(t, st5) :=
        (if commit_test wt status cb_ret
         then txn_commit wt s else txn_rollback wt s) st4 in
      let '(rr, st6) := c_reset wt c st5 in
      ((0, recycled wt op1, w1), st6).
Proof.
  unfold __async_worker_op, bind at 1.
  destruct (txn_begin wt s st) as [r0 st1].
  destruct (negb (r0 =? 0)); [reflexivity|].
  unfold bind at 1.
  destruct (__async_worker_cursor wt s op w st1) as [[[r1 w1] c] st2].
  destruct (negb (r1 =? 0)); [reflexivity|].
  unfold bind at 1.
  destruct (__async_worker_execop wt s op c st2) as [[status op1] st3].
  unfold bind at 1.
  destruct (run_callback wt op1 status st3) as [cb_ret st4].
  unfold bind at 1.
  destruct ((if commit_test wt status cb_ret
             then txn_commit wt s else txn_rollback wt s) st4) as [t st5].
  unfold bind at 1.
  destruct (c_reset wt c st5) as [rr st6]. reflexivity.
Qed.

(** The handler touches the cursor cache through its get-or-open call
    only. *)
Lemma worker_op_cache s op w st :
  snd (fst (__async_worker_op wt s op w st)) =
  if negb (fst (txn_begin wt s st) =? 0) then w
  else snd (fst (fst (__async_worker_cursor wt s op w (snd (txn_begin wt s st))))).
Proof.
  rewrite (worker_op_unfold s op w st).
  destruct (txn_begin wt s st) as [r0 st1]. simpl fst. simpl snd.
  destruct (negb (r0 =? 0)); [reflexivity|].
  destruct (__async_worker_cursor wt s op w st1) as [[[r1 w1] c] st2].
  destruct (negb (r1 =? 0)); [reflexivity|].
  destruct (__async_worker_execop wt s op c st2) as [[status op1] st3].
  destruct (run_callback wt op1 status st3) as [cb_ret st4].
  destruct ((if commit_test wt status cb_ret
             then txn_commit wt s else txn_rollback wt s) st4) as [t st5].
  destruct (c_reset wt c st5) as [rr st6]. reflexivity.
Qed.

End Handler.

Section HandlerProperties.

Context (wt : wt_internal).

Lemma filter_no_resolution d :
  Forall (fun e => inner e = true) d -> List.filter is_resolution d = [].
Proof.
  induction 1 as [|e d He _ IH]; simpl; [reflexivity|].
  destruct e; try discriminate He; exact IH.
Qed.

Lemma filter_no_worker_op d :
  Forall (fun e => inner e = true) d -> List.filter is_worker_op d = [].
Proof.
  induction 1 as [|e d He _ IH]; simpl; [reflexivity|].
  destruct e; try discriminate He; exact IH.
Qed.

Lemma FLD_CLR_lor_l f a b : Z.land (FLD_CLR f (Z.lor a b)) a = 0.
Proof.
  unfold FLD_CLR. apply Z.bits_inj'. intros n Hn.
  rewrite !Z.land_spec, Z.lnot_spec, Z.lor_spec, Z.bits_0 by lia.
  destruct (Z.testbit f n), (Z.testbit a n), (Z.testbit b n); reflexivity.
Qed.

Lemma FLD_CLR_lor_r f a b : Z.land (FLD_CLR f (Z.lor a b)) b = 0.
Proof. rewrite Z.lor_comm. apply FLD_CLR_lor_l. Qed.

(** C8: once the transaction has begun and a cursor has been obtained, the
    handler releases the op whatever the commit or rollback returned: the
    op comes back in state FREE with its key-set and value-set flags
    cleared and its other fields as the executor left them; the last call
    of the handler is the reset of the cursor, right after the commit or
    rollback; the cursor is still in the worker's cache. *)
Theorem op_recycled s op w st :
  fst (txn_begin wt s st) = 0 ->
  fst (fst (fst (__async_worker_cursor wt s op w (snd (txn_begin wt s st))))) = 0 ->
  let '(_, st1) := txn_begin wt s st in
  let '((_, _, c), st2) := __async_worker_cursor wt s op w st1 in
  let '((_, op1), _) := __async_worker_execop wt s op c st2 in
  let '((_, op', w'), st') := __async_worker_op wt s op w st in
  op_state op' = WT_ASYNCOP_FREE /\
  Z.land (cur_flags (op_c op')) (WT_CURSTD_KEY_SET wt) = 0 /\
  Z.land (cur_flags (op_c op')) (WT_CURSTD_VALUE_SET wt) = 0 /\
  op' = recycled wt op1 /\
  (exists tr ev rr, st_trace st' = tr ++ [ev; EvReset c rr] /\
                    is_resolution ev = true) /\
  (exists ac, In ac (cursorqh w') /\ ac_c ac = c).
Proof.
  rewrite (worker_op_unfold wt s op w st).
  destruct (txn_begin wt s st) as [r0 st1]. simpl fst. simpl snd.
  intros ->. simpl negb. cbv iota.
  pose proof (worker_cursor_effects wt s op w st1) as Hc.
  destruct (__async_worker_cursor wt s op w st1) as [[[r1 w1] c] st2].
  simpl fst. intros ->. simpl negb. cbv iota.
  destruct Hc as (_ & _ & Hin). specialize (Hin eq_refl).
  destruct (__async_worker_execop wt s op c st2) as [[status op1] st3].
  destruct (run_callback wt op1 status st3) as [cb_ret st4].
  assert (Hres : exists t ev, ((if commit_test wt status cb_ret
             then txn_commit wt s else txn_rollback wt s) st4) =
             (t, mkST (snd (if commit_test wt status cb_ret
                            then __wt_txn_commit wt s (st_eng st4)
                            else __wt_txn_rollback wt s (st_eng st4)))
                   (st_trace st4 ++ [ev])) /\ is_resolution ev = true).
  { destruct (commit_test wt status cb_ret); run.
    - destruct (__wt_txn_commit wt s _) as [t e]. eexists _, _. split; reflexivity.
    - destruct (__wt_txn_rollback wt s _) as [t e]. eexists _, _. split; reflexivity. }
  destruct Hres as (t & ev & -> & Hev).
  unfold c_reset, call. simpl.
  destruct (cursor_reset wt c _) as [rr e6]. simpl.
  split; [reflexivity|].
  split; [apply FLD_CLR_lor_l|].
  split; [apply FLD_CLR_lor_r|].
  split; [reflexivity|].
  split; [|exact Hin].
  exists (st_trace st4), ev, rr. rewrite <- app_assoc. split; [reflexivity|exact Hev].
Qed.

(** When the transaction has begun and a cursor has been obtained, the
    handler returns 0. *)
Lemma worker_op_status_zero s op w st :
  fst (txn_begin wt s st) = 0 ->
  fst (fst (fst (__async_worker_cursor wt s op w (snd (txn_begin wt s st))))) = 0 ->
  fst (fst (fst (__async_worker_op wt s op w st))) = 0.
Proof.
  rewrite (worker_op_unfold wt s op w st).
  destruct (txn_begin wt s st) as [r0 st1]. simpl fst. simpl snd.
  intros ->. simpl negb. cbv iota.
  destruct (__async_worker_cursor wt s op w st1) as [[[r1 w1] c] st2].
  simpl fst. intros ->. simpl negb. cbv iota.
  destruct (__async_worker_execop wt s op c st2) as [[status op1] st3].
  destruct (run_callback wt op1 status st3) as [cb_ret st4].
  destruct ((if commit_test wt status cb_ret
             then txn_commit wt s else txn_rollback wt s) st4) as [t st5].
  destruct (c_reset wt c st5) as [rr st6]. reflexivity.
Qed.

(** When the cursor cannot be obtained the handler returns at once: the
    op and the worker state are as they were, and no transaction has been
    resolved and no callback called since the begin. *)
Lemma worker_op_cursor_failure s op w st :
  fst (txn_begin wt s st) = 0 ->
  fst (fst (fst (__async_worker_cursor wt s op w (snd (txn_begin wt s st))))) <> 0 ->
  let '((r1, _, _), st2) :=
    __async_worker_cursor wt s op w (snd (txn_begin wt s st)) in
  __async_worker_op wt s op w st = ((r1, op, w), st2) /\
  exists d, st_trace st2 = st_trace st ++ EvTxnBegin s 0 :: d /\
            Forall (fun e => inner e = true) d /\
            Forall (fun e => match e with EvNotify _ _ _ _ => False | _ => True end) d.
Proof.
  rewrite (worker_op_unfold wt s op w st).
  pose proof (txn_begin_trace wt s st) as Hb.
  destruct (txn_begin wt s st) as [r0 st1]. simpl in Hb. simpl fst. simpl snd.
  intros ->. simpl negb. cbv iota.
  pose proof (worker_cursor_effects wt s op w st1) as Hc.
  destruct (cursorqh_foreach (op_format op) (cursorqh w)) as [ac|] eqn:Hf.
  { rewrite (worker_cursor_hit wt s op w st1 ac Hf). simpl. congruence. }
  pose proof (worker_cursor_miss wt s op w st1 Hf) as Hm.
  destruct (__wt_calloc_def wt s (st_eng st1)) as [rc e1].
  destruct (open_cursor wt s _ _ e1) as [[ro c] e2].
  rewrite Hm. clear Hm Hc.
  destruct (Z.eqb_spec rc 0) as [->|Hrc]; simpl.
  2:{ intros _. destruct (Z.eqb_spec rc 0); [contradiction|]. simpl.
      split; [reflexivity|]. exists [EvCalloc s rc].
      rewrite Hb, <- app_assoc. repeat split; repeat constructor. }
  destruct (Z.eqb_spec ro 0) as [->|Hro]; simpl.
  { congruence. }
  intros _. destruct (Z.eqb_spec ro 0); [contradiction|]. simpl.
  split; [reflexivity|]. eexists.
  rewrite Hb, <- app_assoc. repeat split; repeat constructor.
Qed.

End HandlerProperties.

Lemma op_recycled_witness :
  let wt := toy 0 0 0 1 in
  let op := mk_op fmt_a WT_AOP_INSERT (Some (mkCallback (Some 77))) in
  let st := toy_init 0 0 0 1 in
  let '(_, st1) := txn_begin wt 1 st in
  let '((_, _, c), st2) := __async_worker_cursor wt 1 op worker0 st1 in
  let '((_, op1), _) := __async_worker_execop wt 1 op c st2 in
  let '((_, op', w'), st') := __async_worker_op wt 1 op worker0 st in
  op_state op' = WT_ASYNCOP_FREE /\
  Z.land (cur_flags (op_c op')) (WT_CURSTD_KEY_SET wt) = 0 /\
  Z.land (cur_flags (op_c op')) (WT_CURSTD_VALUE_SET wt) = 0 /\
  op' = recycled wt op1 /\
  (exists tr ev rr, st_trace st' = tr ++ [ev; EvReset c rr] /\
                    is_resolution ev = true) /\
  (exists ac, In ac (cursorqh w') /\ ac_c ac = c).
Proof.
  exact (op_recycled (toy 0 0 0 1) 1
           (mk_op fmt_a WT_AOP_INSERT (Some (mkCallback (Some 77))))
           worker0 (toy_init 0 0 0 1) eq_refl eq_refl).
Defined.

(** C1 (the code at the failing inputs): with a transaction begun, an
    [open_cursor] that fails with status 5, or an allocation that fails
    with status 12, makes the handler return that status at once.  The
    cursor cache is unchanged and the entry allocated for the failed open
    is freed, but the trace ends there: no rollback follows the begin, the
    callback of the op is not called, and the op is still in state
    WORKING. *)
Theorem worker_op_cursor_failure_leaves_txn_open :
  let op := mk_op fmt_a WT_AOP_INSERT (Some (mkCallback (Some 77))) in
  __async_worker_op (toy 0 5 0 0) 1 op worker0 (toy_init 0 5 0 0)
  = ((5, op, worker0),
     mkST (wt := toy 0 5 0 0) 101
       [EvTxnBegin 1 0; EvCalloc 1 0; EvOpenCursor 1 "table:a" "" 5 100;
        EvFree 1]) /\
  __async_worker_op (toy 12 0 0 0) 1 op worker0 (toy_init 12 0 0 0)
  = ((12, op, worker0),
     mkST (wt := toy 12 0 0 0) 100 [EvTxnBegin 1 0; EvCalloc 1 12]) /\
  op_state op = WT_ASYNCOP_WORKING.
Proof. repeat split. Qed.

(** ** The flush barrier *)

Section FlushBarrier.

Context (wt : wt_internal).

(** A single-bit mask is set exactly when the bit is. *)
Lemma FLD_ISSET_pow2 f k : 0 <= k -> FLD_ISSET f (2 ^ k) = Z.testbit f k.
Proof.
  intros Hk. unfold FLD_ISSET.
  assert (H : Z.land f (2 ^ k) = if Z.testbit f k then 2 ^ k else 0).
  { apply Z.bits_inj'. intros n Hn.
    rewrite Z.land_spec, Z.pow2_bits_eqb by lia.
    destruct (Z.eqb_spec k n) as [->|Hne].
    - destruct (Z.testbit f n); simpl.
      + rewrite Z.pow2_bits_true; auto.
      + rewrite Z.bits_0. reflexivity.
    - rewrite andb_false_r. destruct (Z.testbit f k).
      + rewrite Z.pow2_bits_false; auto.
      + rewrite Z.bits_0. reflexivity. }
  rewrite H. destruct (Z.testbit f k); simpl.
  - destruct (Z.eqb_spec (2 ^ k) 0) as [H0|]; [|reflexivity].
    pose proof (Z.pow_pos_nonneg 2 k). lia.
  - reflexivity.
Qed.

Lemma flushing_bit a : flushing a = Z.testbit (opsq_flush a) 2.
Proof. apply (FLD_ISSET_pow2 _ 2). lia. Qed.

Lemma flush_complete_bit a : flush_complete a = Z.testbit (opsq_flush a) 0.
Proof. apply (FLD_ISSET_pow2 _ 0). lia. Qed.

Lemma testbit_FLD_SET f k n :
  0 <= k -> 0 <= n ->
  Z.testbit (FLD_SET f (2 ^ k)) n = Z.testbit f n || (k =? n).
Proof.
  intros Hk Hn. unfold FLD_SET. rewrite Z.lor_spec, Z.pow2_bits_eqb by lia.
  reflexivity.
Qed.

Lemma testbit_FLD_CLR f k n :
  0 <= k -> 0 <= n ->
  Z.testbit (FLD_CLR f (2 ^ k)) n = Z.testbit f n && negb (k =? n).
Proof.
  intros Hk Hn. unfold FLD_CLR.
  rewrite Z.land_spec, Z.lnot_spec, Z.pow2_bits_eqb by lia. reflexivity.
Qed.

Lemma testbit_set_FLUSHING f n :
  0 <= n ->
  Z.testbit (FLD_SET f WT_ASYNC_FLUSHING) n = Z.testbit f n || (2 =? n).
Proof. intros Hn. apply (testbit_FLD_SET f 2 n); lia. Qed.

Lemma testbit_clr_FLUSHING f n :
  0 <= n ->
  Z.testbit (FLD_CLR f WT_ASYNC_FLUSHING) n = Z.testbit f n && negb (2 =? n).
Proof. intros Hn. apply (testbit_FLD_CLR f 2 n); lia. Qed.

Lemma testbit_set_COMPLETE f n :
  0 <= n ->
  Z.testbit (FLD_SET f WT_ASYNC_FLUSH_COMPLETE) n = Z.testbit f n || (0 =? n).
Proof. intros Hn. apply (testbit_FLD_SET f 0 n); lia. Qed.

(** Taking the sentinel arms the flush. *)
Lemma flushing_armed a :
  flushing (set_flush_count 1
              (set_opsq_flush (FLD_SET (opsq_flush a) WT_ASYNC_FLUSHING) a)) = true.
Proof.
  rewrite flushing_bit. cbn [opsq_flush set_flush_count set_opsq_flush].
  rewrite testbit_set_FLUSHING by lia. apply orb_true_r.
Qed.

(** What the last worker leaves in the flush word. *)
Lemma flush_word_last f :
  let f' := FLD_CLR (FLD_SET f WT_ASYNC_FLUSH_COMPLETE) WT_ASYNC_FLUSHING in
  FLD_ISSET f' WT_ASYNC_FLUSHING = false /\
  FLD_ISSET f' WT_ASYNC_FLUSH_COMPLETE = true.
Proof.
  cbv zeta.
  change (FLD_ISSET ?x WT_ASYNC_FLUSHING) with (FLD_ISSET x (2 ^ 2)).
  change (FLD_ISSET ?x WT_ASYNC_FLUSH_COMPLETE) with (FLD_ISSET x (2 ^ 0)).
  rewrite !FLD_ISSET_pow2 by lia.
  rewrite !testbit_clr_FLUSHING, !testbit_set_COMPLETE by lia.
  cbn [Z.eqb negb]. rewrite andb_false_r, orb_true_r. auto.
Qed.

(** The cleanup calls add closes and frees to the trace, nothing else. *)
Lemma close_cursors_trace s q st :
  exists d, st_trace (snd (close_cursors wt s q st)) = st_trace st ++ d /\
            Forall (fun e => is_worker_op e = false) d.
Proof.
  revert st. induction q as [|ac q IH]; intros st; simpl.
  - exists []. rewrite app_nil_r. split; [reflexivity|constructor].
  - run. destruct (cursor_close wt (ac_c ac) (st_eng st)) as [r e]. simpl.
    destruct (IH (mkST e ((st_trace st ++ [EvClose (ac_c ac) r]) ++ [EvFree s])))
      as (d & Hd & Hn).
    exists (EvClose (ac_c ac) r :: EvFree s :: d).
    rewrite Hd. simpl. rewrite <- !app_assoc. simpl.
    split; [reflexivity|]. repeat constructor. exact Hn.
Qed.

Lemma worker_exit_eq conn ops th st :
  worker_exit wt conn ops th st =
  (Some (conn, ops, set_pc EXITED th),
   snd (close_cursors wt (th_session th) (cursorqh (th_worker th)) st)).
Proof.
  unfold worker_exit, bind.
  destruct (close_cursors wt _ _ st) as [[] st']. reflexivity.
Qed.

Lemma worker_err_eq conn ops th r locked st :
  worker_err wt conn ops th r locked st =
  (Some (conn, ops, set_pc EXITED th),
   snd (close_cursors wt (th_session th) (cursorqh (th_worker th))
          (mkST (st_eng st)
             (st_trace st ++ EvErr (th_session th) r ::
                (if locked then [EvUnlock (th_session th)] else []))))).
Proof.
  unfold worker_err. run. destruct locked; run; rewrite worker_exit_eq;
    rewrite <- ?app_assoc; reflexivity.
Qed.

(** A worker that enters the loop with the server running and FLUSHING
    set: it counts itself; if that makes the count equal the number of
    workers it sets COMPLETE, clears FLUSHING and releases the lock, to
    signal next; otherwise it releases the lock and waits.  The queue is
    not touched. *)
Lemma thread_step_observe conn ops th st :
  th_pc th = AT_LOOP ->
  FLD_ISSET (conn_flags conn) (WT_CONN_SERVER_RUN wt) = true ->
  flushing (async conn) = true ->
  let n := u32 (flush_count (async conn) + 1) in
  let st' := mkST (st_eng st)
               (st_trace st ++ [EvLock (th_session th); EvUnlock (th_session th)]) in
  __wt_async_worker wt conn ops th st =
  if n =? async_workers conn then
    (Some (set_async
             (set_opsq_flush
                (FLD_CLR (FLD_SET (opsq_flush (async conn)) WT_ASYNC_FLUSH_COMPLETE)
                   WT_ASYNC_FLUSHING)
                (set_flush_count n (async conn))) conn,
           ops, set_pc AT_SIGNAL th), st')
  else
    (Some (set_async (set_flush_count n (async conn)) conn,
           ops, set_pc (AT_FLUSH_WAIT FROM_OBSERVE) th), st').
Proof.
  intros Hpc Hrun Hfl. unfold __wt_async_worker. rewrite Hpc, Hrun. run.
  unfold flushing in Hfl. rewrite Hfl.
  destruct (_ =? async_workers conn); run.
  - rewrite <- app_assoc. reflexivity.
  - unfold __async_flush_wait, flush_wait_test. simpl. rewrite Hfl. run.
    rewrite <- app_assoc. reflexivity.
Qed.

(** A worker that wakes inside [__async_flush_wait] while FLUSHING is
    set: unless the wait failed, it locks, sees the flag, unlocks and
    waits again. *)
Lemma thread_step_still_flushing conn ops th st k :
  th_pc th = AT_FLUSH_WAIT k ->
  flushing (async conn) = true ->
  let s := th_session th in
  let '(r, e) := __wt_cond_wait wt s (st_eng st) in
  __wt_async_worker wt conn ops th st =
  if negb (r =? 0) && negb (r =? ETIMEDOUT wt) then
    worker_err wt conn ops th r false (mkST e (st_trace st ++ [EvCondWait s r]))
  else
    (Some (conn, ops, th),
     mkST e (st_trace st ++ [EvCondWait s r; EvLock s; EvUnlock s])).
Proof.
  intros Hpc Hfl. simpl.
  destruct (__wt_cond_wait wt (th_session th) (st_eng st)) as [r e] eqn:Hw.
  unfold __wt_async_worker. rewrite Hpc. unfold flush_wait_wake. run. rewrite Hw.
  assert (Hth : set_pc (AT_FLUSH_WAIT k) th = th).
  { destruct th. simpl in Hpc. subst. reflexivity. }
  destruct (negb (r =? 0) && negb (r =? ETIMEDOUT wt)) eqn:Herr; simpl.
  - apply andb_true_iff in Herr. destruct Herr as [Hr0 _].
    destruct k; simpl; rewrite Hr0; reflexivity.
  - unfold flush_wait_test. unfold flushing in Hfl. rewrite Hfl. run.
    destruct k; simpl; rewrite Hth, <- !app_assoc; reflexivity.
Qed.

End FlushBarrier.

Section WorkerLoop.

Context (wt : wt_internal).

(** The handler adds no worker-loop event to the trace. *)
Lemma worker_op_trace s op w st :
  exists d, st_trace (snd (__async_worker_op wt s op w st)) = st_trace st ++ d /\
            List.filter is_worker_op d = [].
Proof.
  rewrite (worker_op_unfold wt s op w st).
  pose proof (txn_begin_trace wt s st) as Hb.
  destruct (txn_begin wt s st) as [r0 st1]. simpl in Hb.
  destruct (negb (r0 =? 0)).
  { eexists. split; [exact Hb|reflexivity]. }
  pose proof (worker_cursor_effects wt s op w st1) as Hc.
  destruct (__async_worker_cursor wt s op w st1) as [[[r1 w1] c] st2].
  destruct Hc as ((d2 & Hd2 & Hn2) & _ & _).
  destruct (negb (r1 =? 0)).
  { exists ([EvTxnBegin s r0] ++ d2). simpl snd.
    rewrite Hd2, Hb, <- app_assoc. split; [reflexivity|].
    rewrite List.filter_app, (filter_no_worker_op _ Hn2). reflexivity. }
  pose proof (execop_inner wt s op c st2) as (d3 & Hd3 & Hn3).
  destruct (__async_worker_execop wt s op c st2) as [[status op1] st3].
  simpl in Hd3.
  pose proof (run_callback_inner wt op1 status st3) as (d4 & Hd4 & Hn4).
  destruct (run_callback wt op1 status st3) as [cb_ret st4].
  simpl in Hd4.
  assert (Hres : exists t ev e5,
             ((if commit_test wt status cb_ret
               then txn_commit wt s else txn_rollback wt s) st4) =
             (t, mkST e5 (st_trace st4 ++ [ev])) /\ is_worker_op ev = false).
  { destruct (commit_test wt status cb_ret); run.
    - destruct (__wt_txn_commit wt s _) as [t e]. eexists _, _, _. split; reflexivity.
    - destruct (__wt_txn_rollback wt s _) as [t e]. eexists _, _, _. split; reflexivity. }
  destruct Hres as (t & ev & e5 & -> & Hev).
  unfold c_reset, call. simpl.
  destruct (cursor_reset wt c e5) as [rr e6]. simpl.
  exists ([EvTxnBegin s r0] ++ d2 ++ d3 ++ d4 ++ [ev; EvReset c rr]).
  split.
  { rewrite Hd4, Hd3, Hd2, Hb, <- !app_assoc. reflexivity. }
  rewrite !List.filter_app, (filter_no_worker_op _ Hn2),
    (filter_no_worker_op _ Hn3), (filter_no_worker_op _ Hn4).
  simpl. rewrite Hev. reflexivity.
Qed.

Lemma filter_worker_op_close d :
  Forall (fun e => is_worker_op e = false) d -> List.filter is_worker_op d = [].
Proof.
  induction 1 as [|e d He _ IH]; simpl; [reflexivity|].
  rewrite He. exact IH.
Qed.

(** The three ways through the dequeue: the queue is empty; the head is an
    op, which the thread takes along; the head is the sentinel, on which
    the thread sets FLUSHING, sets the count to 1 and goes to wait. *)
Lemma worker_dequeue_cases conn ops th st conn' ops' th' st' :
  worker_dequeue wt conn ops th st = (Some (conn', ops', th'), st') ->
  let s := th_session th in
  (opqh (async conn) = [] /\ conn' = conn /\ ops' = ops /\
   th' = set_pc AT_LOOP th /\
   st' = mkST (st_eng st) (st_trace st ++ [EvUnlock s; EvYield s]))
  \/
  (exists a rest op,
     opqh (async conn) = a :: rest /\ ops !! a = Some op /\
     a <> flush_op (async conn) /\
     conn' = set_async
               (set_cur_queue (u32 (cur_queue (async conn) - 1))
                  (set_opqh rest (async conn))) conn /\
     ops' = <[a := set_op_state WT_ASYNCOP_WORKING op]> ops /\
     th' = set_pc (AT_OP a) th /\
     st' = mkST (st_eng st) (st_trace st ++ [EvUnlock s]))
  \/
  (exists rest op,
     opqh (async conn) = flush_op (async conn) :: rest /\
     ops !! flush_op (async conn) = Some op /\
     conn' = set_async
               (set_flush_count 1
                  (set_opsq_flush
                     (FLD_SET (opsq_flush (async conn)) WT_ASYNC_FLUSHING)
                     (set_cur_queue (u32 (cur_queue (async conn) - 1))
                        (set_opqh rest (async conn))))) conn /\
     ops' = <[flush_op (async conn) := set_op_state WT_ASYNCOP_WORKING op]> ops /\
     th' = set_pc (AT_FLUSH_WAIT (FROM_ARM (flush_op (async conn)))) th /\
     st' = mkST (st_eng st) (st_trace st ++ [EvUnlock s])).
Proof.
  unfold worker_dequeue. intros H. simpl.
  destruct (opqh (async conn)) as [|a rest] eqn:Hq.
  - left. revert H. run. rewrite <- app_assoc. intros [= <- <- <- <-]. auto.
  - right. destruct (ops !! a) as [op|] eqn:Hop; [|discriminate H].
    cbn [flush_op set_cur_queue set_opqh] in H.
    destruct (Z.eqb_spec a (flush_op (async conn))) as [Ha|Ha].
    + right. subst a. exists rest, op.
      unfold __async_flush_wait, flush_wait_test in H.
      pose proof (flushing_armed
                    (set_cur_queue (u32 (cur_queue (async conn) - 1))
                       (set_opqh rest (async conn)))) as Hfl.
      unfold flushing in Hfl. cbn [opsq_flush set_flush_count set_opsq_flush
        set_cur_queue set_opqh cur_queue flush_count flush_op opqh] in Hfl, H.
      rewrite Hfl in H. revert H. run.
      intros [= <- <- <- <-]. repeat split; auto.
    + left. exists a, rest, op. revert H. unfold worker_unlock. run.
      intros [= <- <- <- <-]. repeat split; auto.
Qed.

End WorkerLoop.

Section WorkerSteps.

Context (wt : wt_internal).

Lemma summary_quiet conn th (st : ST wt) th' (st' : ST wt) d :
  st_trace st' = st_trace st ++ d ->
  List.filter is_worker_op d = [] ->
  step_summary conn th st conn th' st'.
Proof.
  intros Hd Hf. split; [reflexivity|]. split; [congruence|].
  exists d. auto.
Qed.

Lemma summary_exit conn ops th (st : ST wt) conn' ops' th' st' d0 st0 :
  st_trace st0 = st_trace st ++ d0 ->
  List.filter is_worker_op d0 = [] ->
  worker_exit wt conn ops th st0 = (Some (conn', ops', th'), st') ->
  step_summary conn th st conn' th' st'.
Proof.
  intros Hd0 Hf0. rewrite worker_exit_eq. intros [= <- <- <- <-].
  destruct (close_cursors_trace wt (th_session th) (cursorqh (th_worker th)) st0)
    as (d & Hd & Hn).
  apply (summary_quiet _ _ _ _ _ (d0 ++ d)).
  - rewrite Hd, Hd0, app_assoc. reflexivity.
  - rewrite List.filter_app, Hf0, (filter_worker_op_close _ Hn). reflexivity.
Qed.

Lemma summary_err conn ops th (st : ST wt) conn' ops' th' st' d0 st0 r locked :
  st_trace st0 = st_trace st ++ d0 ->
  List.filter is_worker_op d0 = [] ->
  worker_err wt conn ops th r locked st0 = (Some (conn', ops', th'), st') ->
  step_summary conn th st conn' th' st'.
Proof.
  intros Hd0 Hf0. rewrite worker_err_eq. intros [= <- <- <- <-].
  match goal with |- context [close_cursors wt ?s ?q ?x] =>
    destruct (close_cursors_trace wt s q x) as (d & Hd & Hn) end.
  simpl in Hd.
  apply (summary_quiet _ _ _ _ _
           (d0 ++ (EvErr (th_session th) r ::
                   (if locked then [EvUnlock (th_session th)] else [])) ++ d)).
  - rewrite Hd, Hd0, <- !app_assoc. reflexivity.
  - rewrite !List.filter_app, Hf0, (filter_worker_op_close _ Hn).
    destruct locked; reflexivity.
Qed.

Lemma summary_dequeue conn ops th (st : ST wt) conn' ops' th' st' d0 st0 :
  st_trace st0 = st_trace st ++ d0 ->
  List.filter is_worker_op d0 = [] ->
  worker_dequeue wt conn ops th st0 = (Some (conn', ops', th'), st') ->
  step_summary conn th st conn' th' st'.
Proof.
  intros Hd0 Hf0 H. apply worker_dequeue_cases in H. simpl in H.
  destruct H as [(Hq & -> & -> & -> & ->)
                |[(a & rest & op & Hq & Hop & Ha & -> & -> & -> & ->)
                 |(rest & op & Hq & Hop & -> & -> & -> & ->)]].
  - eapply summary_quiet.
    + simpl. rewrite Hd0, <- app_assoc. reflexivity.
    + rewrite List.filter_app, Hf0. reflexivity.
  - split; [reflexivity|]. split.
    + unfold flushing. simpl. congruence.
    + eexists. split.
      * simpl. rewrite Hd0, <- app_assoc. reflexivity.
      * left. rewrite List.filter_app, Hf0. reflexivity.
  - split; [reflexivity|]. split.
    + intros _ _. exists rest. repeat split. exact Hq.
    + eexists. split.
      * simpl. rewrite Hd0, <- app_assoc. reflexivity.
      * left. rewrite List.filter_app, Hf0. reflexivity.
Qed.

(** The summary holds of every step. *)
Lemma thread_step_summary conn ops th st conn' ops' th' st' :
  __wt_async_worker wt conn ops th st = (Some (conn', ops', th'), st') ->
  step_summary conn th st conn' th' st'.
Proof.
  intros H.
  destruct (th_pc th) as [| |k|a|] eqn:Hpc.
  - (* the loop test *)
    destruct (FLD_ISSET (conn_flags conn) (WT_CONN_SERVER_RUN wt)) eqn:Hrun.
    + destruct (flushing (async conn)) eqn:Hfl.
      * pose proof (thread_step_observe wt conn ops th st Hpc Hrun Hfl) as Ho.
        simpl in Ho. rewrite Ho in H. clear Ho.
        destruct (_ =? async_workers conn); injection H as <- <- <- <-.
        -- split; [reflexivity|]. split; [congruence|].
           eexists. split; [reflexivity|]. left. reflexivity.
        -- split; [reflexivity|]. split; [congruence|].
           eexists. split; [reflexivity|]. left. reflexivity.
      * unfold __wt_async_worker in H. rewrite Hpc, Hrun in H.
        unfold flushing in Hfl. revert H. run. rewrite Hfl.
        apply summary_dequeue with (d0 := [EvLock (th_session th)]);
          reflexivity.
    + unfold __wt_async_worker in H. rewrite Hpc, Hrun in H. simpl in H.
      revert H. apply summary_exit with (d0 := []);
        [rewrite app_nil_r|]; reflexivity.
  - (* the signal of the last worker *)
    unfold __wt_async_worker in H. rewrite Hpc in H. revert H. run.
    destruct (__wt_cond_signal wt (th_session th) (st_eng st)) as [r e]. simpl.
    destruct (negb (r =? 0)).
    + apply summary_err with (d0 := [EvCondSignal (th_session th) r]);
        reflexivity.
    + apply summary_dequeue
        with (d0 := [EvCondSignal (th_session th) r; EvLock (th_session th)]).
      * simpl. rewrite <- app_assoc. reflexivity.
      * reflexivity.
  - (* inside the flush wait *)
    destruct (flushing (async conn)) eqn:Hfl.
    + pose proof (thread_step_still_flushing wt conn ops th st k Hpc Hfl) as Hw.
      simpl in Hw.
      destruct (__wt_cond_wait wt (th_session th) (st_eng st)) as [r e].
      rewrite Hw in H. clear Hw.
      destruct (negb (r =? 0) && negb (r =? ETIMEDOUT wt)).
      * revert H. apply summary_err with (d0 := [EvCondWait (th_session th) r]);
          reflexivity.
      * injection H as <- <- <- <-. eapply summary_quiet; reflexivity.
    + unfold __wt_async_worker in H. rewrite Hpc in H.
      unfold flush_wait_wake, flush_wait_test in H.
      unfold flushing in Hfl. revert H. run. rewrite Hfl.
      destruct (__wt_cond_wait wt (th_session th) (st_eng st)) as [r e]. simpl.
      destruct (negb (r =? 0) && negb (r =? ETIMEDOUT wt)) eqn:Herr; simpl.
      * apply andb_true_iff in Herr. destruct Herr as [Hr0 _].
        destruct k; simpl; rewrite Hr0;
          apply summary_err with (d0 := [EvCondWait (th_session th) r]);
          reflexivity.
      * destruct k as [|a]; simpl; destruct (negb (r =? 0)).
        -- apply summary_err
             with (d0 := [EvCondWait (th_session th) r; EvLock (th_session th)]);
             [simpl; rewrite <- app_assoc|]; reflexivity.
        -- apply summary_dequeue
             with (d0 := [EvCondWait (th_session th) r; EvLock (th_session th)]);
             [simpl; rewrite <- app_assoc|]; reflexivity.
        -- apply summary_err
             with (d0 := [EvCondWait (th_session th) r; EvLock (th_session th)]);
             [simpl; rewrite <- app_assoc|]; reflexivity.
        -- unfold worker_unlock. run. intros [= <- <- <- <-].
           eapply summary_quiet.
           ++ simpl. rewrite <- !app_assoc. reflexivity.
           ++ reflexivity.
  - (* holding an op *)
    unfold __wt_async_worker in H. rewrite Hpc in H.
    destruct (Z.eqb_spec a (flush_op (async conn))) as [Ha|Ha]; simpl in H.
    + revert H. run. intros [= <- <- <- <-].
      eapply summary_quiet; reflexivity.
    + destruct (ops !! a) as [op|]; [|discriminate H].
      revert H. run.
      match goal with |- context [__async_worker_op wt ?s ?o ?w ?x] =>
        destruct (worker_op_trace wt s o w x) as (d & Hd & Hn);
        destruct (__async_worker_op wt s o w x) as [[[r op'] w'] st1] end.
      simpl in Hd. simpl. intros [= <- <- <- <-].
      split; [reflexivity|]. split; [congruence|].
      exists ([EvWorkerOp (th_session th) a] ++ d ++ [EvYield (th_session th)]).
      split.
      * simpl. rewrite Hd, <- !app_assoc. reflexivity.
      * right. exists a. repeat split; auto.
        simpl. rewrite List.filter_app, Hn. reflexivity.
  - (* returned *)
    unfold __wt_async_worker in H. rewrite Hpc in H. discriminate H.
Qed.

End WorkerSteps.

Section Pool.

Context (wt : wt_internal).

Lemma run_workers_rtc sched (s s' : System wt) :
  run_workers sched s = Some s' -> rtc (step wt) s s'.
Proof.
  revert s. induction sched as [|i sched IH]; intros s; simpl.
  - intros [= ->]. apply rtc_refl.
  - destruct (worker_step wt i s) as [s1|] eqn:H1; [|discriminate].
    intros H. eapply rtc_l; [apply (step_worker wt i s s1 H1)|]. auto.
Qed.


(** A step of thread [i], seen from the pool. *)
Lemma worker_step_inv i (s s' : System wt) :
  worker_step wt i s = Some s' ->
  exists th conn' ops' th' st',
    sys_threads s !! i = Some th /\
    __wt_async_worker wt (sys_conn s) (sys_ops s) th (sys_st s) =
      (Some (conn', ops', th'), st') /\
    s' = mkSys conn' ops' (<[i := th']> (sys_threads s)) st'.
Proof.
  unfold worker_step. destruct (sys_threads s !! i) as [th|] eqn:Hth; [|discriminate].
  destruct (__wt_async_worker wt _ _ th _) as [[[[conn' ops'] th']|] st'] eqn:Hs;
    [|discriminate].
  intros [= <-]. eauto 10.
Qed.

(** The address of the sentinel never changes. *)
Lemma step_flush_op (s s' : System wt) :
  step wt s s' -> flush_op (sys_async s') = flush_op (sys_async s).
Proof.
  intros [i s1 s2 H|s1]; [|reflexivity].
  apply worker_step_inv in H.
  destruct H as (th & conn' & ops' & th' & st' & _ & H & ->).
  apply thread_step_summary in H. destruct H as [H _]. exact H.
Qed.

Lemma rtc_flush_op (s s' : System wt) :
  rtc (step wt) s s' -> flush_op (sys_async s') = flush_op (sys_async s).
Proof.
  induction 1 as [|s1 s2 s3 H12 _ IH]; [reflexivity|].
  rewrite IH. apply step_flush_op. exact H12.
Qed.

(** Every op a step hands to the handler is not the sentinel. *)
Lemma step_worker_ops (s s' : System wt) sess a :
  step wt s s' ->
  In (EvWorkerOp sess a) (st_trace (sys_st s')) ->
  In (EvWorkerOp sess a) (st_trace (sys_st s)) \/ a <> flush_op (sys_async s).
Proof.
  intros [i s1 s2 H|s1] Hin; [|left; exact Hin].
  apply worker_step_inv in H.
  destruct H as (th & conn' & ops' & th' & st' & _ & H & ->).
  apply thread_step_summary in H. destruct H as (_ & _ & d & Hd & Hf).
  simpl in Hin. rewrite Hd in Hin. apply in_app_or in Hin.
  destruct Hin as [Hin|Hin]; [left; exact Hin|]. right.
  assert (Hin' : In (EvWorkerOp sess a) (List.filter is_worker_op d)).
  { apply List.filter_In. split; [exact Hin|reflexivity]. }
  destruct Hf as [Hf|(a' & _ & Ha' & Hf)]; rewrite Hf in Hin'.
  - destruct Hin'.
  - destruct Hin' as [[= <- <-]|[]]. exact Ha'.
Qed.

(** While every thread is inside the flush wait or has returned, and
    FLUSHING is set, nothing changes the async structure: FLUSHING is
    never cleared. *)
Lemma parked_forever (s s' : System wt) :
  rtc (step wt) s s' ->
  flushing (sys_async s) = true ->
  Forall parked (sys_threads s) ->
  sys_async s' = sys_async s /\ Forall parked (sys_threads s').
Proof.
  induction 1 as [s|s1 s2 s3 H12 _ IH]; intros Hfl Hp; [auto|].
  assert (H2 : sys_async s2 = sys_async s1 /\ Forall parked (sys_threads s2)).
  { destruct H12 as [i s1 s2 H|s1]; [|auto].
    apply worker_step_inv in H.
    destruct H as (th & conn' & ops' & th' & st' & Hth & H & ->).
    assert (Hpth : parked th).
    { eapply Forall_lookup_1; eauto. }
    unfold parked in Hpth.
    destruct (th_pc th) as [| |k| |] eqn:Hpc; try contradiction.
    - pose proof (thread_step_still_flushing wt _ (sys_ops s1) th (sys_st s1) k
                    Hpc Hfl) as Hw.
      simpl in Hw.
      destruct (__wt_cond_wait wt (th_session th) (st_eng (sys_st s1))) as [r e].
      rewrite Hw in H. clear Hw.
      destruct (negb (r =? 0) && negb (r =? ETIMEDOUT wt)).
      + rewrite worker_err_eq in H. injection H as <- <- <- <-.
        split; [reflexivity|]. simpl. apply Forall_insert; [exact Hp|].
        unfold parked. simpl. exact I.
      + injection H as <- <- <- <-.
        split; [reflexivity|]. simpl. apply Forall_insert; [exact Hp|].
        unfold parked. rewrite Hpc. exact I.
    - unfold __wt_async_worker in H. rewrite Hpc in H. discriminate H. }
  destruct H2 as [Ha2 Hp2].
  destruct IH as [Ha3 Hp3]; [rewrite Ha2; exact Hfl|exact Hp2|].
  split; [congruence|exact Hp3].
Qed.

End Pool.

Section PoolProperties.

Context (wt : wt_internal).


Lemma rtc_worker_ops (s0 s : System wt) sess a :
  rtc (step wt) s0 s ->
  In (EvWorkerOp sess a) (st_trace (sys_st s)) ->
  In (EvWorkerOp sess a) (st_trace (sys_st s0)) \/ a <> flush_op (sys_async s0).
Proof.
  induction 1 as [|s1 s2 s3 H12 _ IH]; [auto|]. intros Hin.
  destruct (IH Hin) as [Hin2|Hne].
  - eapply step_worker_ops; eauto.
  - right. rewrite <- (step_flush_op wt s1 s2 H12). exact Hne.
Qed.

(** C5: a step that takes FLUSHING from clear to set is the step of the
    one worker that removes the sentinel from the head of the queue: after
    it the sentinel is off the queue, the count is 1 and that worker is in
    the flush wait.  And no worker ever calls the handler on the sentinel:
    every op handed to [__async_worker_op] in the course of a run is
    another op. *)
Theorem flushing_set_by_sentinel_pop (s0 s s' : System wt) :
  rtc (step wt) s0 s ->
  step wt s s' ->
  (flushing (sys_async s) = false -> flushing (sys_async s') = true ->
   exists i th' rest,
     worker_step wt i s = Some s' /\
     opqh (sys_async s) = flush_op (sys_async s) :: rest /\
     opqh (sys_async s') = rest /\
     flush_count (sys_async s') = 1 /\
     sys_threads s' !! i = Some th' /\
     th_pc th' = AT_FLUSH_WAIT (FROM_ARM (flush_op (sys_async s)))) /\
  (forall sess a,
     In (EvWorkerOp sess a) (st_trace (sys_st s')) ->
     In (EvWorkerOp sess a) (st_trace (sys_st s0)) \/
     a <> flush_op (sys_async s0)).
Proof.
  intros H0 Hs. split.
  - intros Hf Hf'. destruct Hs as [i s1 s2 H|s1].
    + pose proof H as Hi. apply worker_step_inv in H.
      destruct H as (th & conn' & ops' & th' & st' & Hth & H & ->).
      apply thread_step_summary in H. destruct H as (_ & Harm & _).
      destruct (Harm Hf Hf') as (rest & Hq & Hq' & Hc & Hpc).
      exists i, th', rest. repeat split; auto.
      simpl. apply list_lookup_insert_eq. eapply lookup_lt_Some. exact Hth.
    + unfold sys_async in Hf, Hf'. simpl in Hf'. congruence.
  - intros sess a. apply rtc_worker_ops. eapply rtc_r; eauto.
Qed.

(** C10: the worker loop calls the handler on the op it holds, returns to
    the loop test whatever status the handler gives back, and that status
    is 0 whenever the transaction has begun and a cursor has been
    obtained. *)
Theorem worker_op_status_discarded conn ops th (st : ST wt) a op :
  th_pc th = AT_OP a ->
  a <> flush_op (async conn) ->
  ops !! a = Some op ->
  let s := th_session th in
  let st0 := mkST (st_eng st) (st_trace st ++ [EvWorkerOp s a]) in
  let '((r, op', w'), st1) := __async_worker_op wt s op (th_worker th) st0 in
  (fst (txn_begin wt s st0) = 0 ->
   fst (fst (fst (__async_worker_cursor wt s op (th_worker th)
                    (snd (txn_begin wt s st0))))) = 0 ->
   r = 0) /\
  __wt_async_worker wt conn ops th st =
    (Some (conn, <[a := op']> ops, mkThread s AT_LOOP w'),
     mkST (st_eng st1) (st_trace st1 ++ [EvYield s])).
Proof.
  intros Hpc Ha Hop. simpl.
  pose proof (worker_op_status_zero wt (th_session th) op (th_worker th)
                (mkST (st_eng st) (st_trace st ++ [EvWorkerOp (th_session th) a])))
    as Hz.
  unfold __wt_async_worker. rewrite Hpc, Hop.
  destruct (Z.eqb_spec a (flush_op (async conn))) as [|_]; [contradiction|].
  run.
  destruct (__async_worker_op wt _ op _ _) as [[[r op'] w'] st1].
  simpl. split; [exact Hz|reflexivity].
Qed.

End PoolProperties.

(** ** Counting the workers of a flush *)

Section FlushCount.

Context (wt : wt_internal).

(** The last worker signals as soon as it runs again. *)
Lemma thread_step_signal conn ops th (st : ST wt) conn' ops' th' st' :
  th_pc th = AT_SIGNAL ->
  __wt_async_worker wt conn ops th st = (Some (conn', ops', th'), st') ->
  exists r d, st_trace st' = st_trace st ++ EvCondSignal (th_session th) r :: d.
Proof.
  intros Hpc. unfold __wt_async_worker. rewrite Hpc. run.
  destruct (__wt_cond_signal wt (th_session th) (st_eng st)) as [r e]. simpl.
  destruct (negb (r =? 0)).
  - rewrite worker_err_eq. intros [= <- <- <- <-].
    match goal with |- context [close_cursors wt ?s ?q ?x] =>
      destruct (close_cursors_trace wt s q x) as (d & Hd & _) end.
    simpl in Hd. exists r. eexists. rewrite Hd, <- !app_assoc. reflexivity.
  - intros H. apply worker_dequeue_cases in H. simpl in H.
    destruct H as [(_ & _ & _ & _ & ->)
                  |[(a & rest & op & _ & _ & _ & _ & _ & _ & ->)
                   |(rest & op & _ & _ & _ & _ & _ & ->)]];
      exists r; eexists; simpl; rewrite <- !app_assoc; reflexivity.
Qed.

(** A worker that has counted itself and waits is not counted again in
    the same flush: as long as steps are taken with FLUSHING set, a thread
    inside the flush wait stays there, or returns. *)
Lemma parked_while_flushing (s s' : System wt) i th :
  rtc step_flushing s s' ->
  sys_threads s !! i = Some th ->
  parked th ->
  exists th', sys_threads s' !! i = Some th' /\ parked th'.
Proof.
  intros H. revert th. induction H as [s|s1 s2 s3 [Hfl H12] _ IH]; intros th Hth Hp.
  { eauto. }
  assert (H2 : exists th2, sys_threads s2 !! i = Some th2 /\ parked th2).
  { destruct H12 as [j s1 s2 H|s1]; [|eauto].
    apply worker_step_inv in H.
    destruct H as (thj & conn' & ops' & thj' & st' & Hthj & H & ->). simpl.
    destruct (decide (j = i)) as [->|Hne].
    - rewrite Hth in Hthj. injection Hthj as <-.
      exists thj'. split.
      + apply list_lookup_insert_eq. eapply lookup_lt_Some. exact Hth.
      + unfold parked in Hp.
        destruct (th_pc th) as [| |k| |] eqn:Hpc; try contradiction.
        * pose proof (thread_step_still_flushing wt _ (sys_ops s1) th
                        (sys_st s1) k Hpc Hfl) as Hw.
          simpl in Hw.
          destruct (__wt_cond_wait wt (th_session th) (st_eng (sys_st s1)))
            as [r e].
          rewrite Hw in H. clear Hw.
          destruct (negb (r =? 0) && negb (r =? ETIMEDOUT wt)).
          -- rewrite worker_err_eq in H. injection H as <- <- <- <-. exact I.
          -- injection H as <- <- <- <-. unfold parked. rewrite Hpc. exact I.
        * unfold __wt_async_worker in H. rewrite Hpc in H. discriminate H.
    - exists th. split; [|exact Hp].
      rewrite list_lookup_insert_ne by exact Hne. exact Hth. }
  destruct H2 as (th2 & Hth2 & Hp2). eauto.
Qed.

End FlushCount.

(** With two workers the flush does complete: the worker that comes to
    the loop second makes the count 2, sets COMPLETE and clears FLUSHING. *)
Example pair_flush_completes :
  run_workers [0%nat; 1%nat; 0%nat; 0%nat] sys_pair = Some sys_pair_last /\
  flushing (sys_async sys_pair_last) = false /\
  flush_complete (sys_async sys_pair_last) = true /\
  flush_count (sys_async sys_pair_last) = async_workers (sys_conn sys_pair_last) /\
  th_pc <$> sys_threads sys_pair_last = [AT_SIGNAL; AT_FLUSH_WAIT (FROM_ARM 1000)].
Proof.
  split; [vm_compute; reflexivity|].
  split; [vm_compute; reflexivity|].
  split; [vm_compute; reflexivity|].
  split; vm_compute; reflexivity.
Qed.

(** C3 (the code at the failing input): in a pool of one worker, the
    worker that takes the sentinel sets the count to 1, which is the
    number of workers, and goes to wait; from then on, under every
    schedule, FLUSHING stays set, COMPLETE is never set and the worker
    never leaves the flush wait other than by returning. *)
Theorem single_worker_flush_never_completes :
  worker_step toy_ok 0 sys_single = Some sys_single_armed /\
  opqh (sys_async sys_single_armed) = [] /\
  flush_count (sys_async sys_single_armed) =
    async_workers (sys_conn sys_single_armed) /\
  forall s', rtc (step toy_ok) sys_single_armed s' ->
    flushing (sys_async s') = true /\
    flush_complete (sys_async s') = false /\
    flush_count (sys_async s') = 1 /\
    Forall parked (sys_threads s').
Proof.
  split; [vm_compute; reflexivity|].
  split; [vm_compute; reflexivity|].
  split; [vm_compute; reflexivity|].
  intros s' Hs'.
  assert (Hth : sys_threads sys_single_armed =
                [mkThread 1 (AT_FLUSH_WAIT (FROM_ARM 1000)) worker0])
    by (vm_compute; reflexivity).
  destruct (parked_forever toy_ok sys_single_armed s' Hs') as [Ha Hp].
  - vm_compute. reflexivity.
  - rewrite Hth. constructor; [exact I|constructor].
  - rewrite Ha. repeat split; [vm_compute; reflexivity ..|exact Hp].
Qed.


Lemma flushing_set_by_sentinel_pop_witness :
  (flushing (sys_async sys_pair_held) = false ->
   flushing (sys_async sys_pair_armed) = true ->
   exists i th' rest,
     worker_step toy_ok i sys_pair_held = Some sys_pair_armed /\
     opqh (sys_async sys_pair_held) = flush_op (sys_async sys_pair_held) :: rest /\
     opqh (sys_async sys_pair_armed) = rest /\
     flush_count (sys_async sys_pair_armed) = 1 /\
     sys_threads sys_pair_armed !! i = Some th' /\
     th_pc th' = AT_FLUSH_WAIT (FROM_ARM (flush_op (sys_async sys_pair_held)))) /\
  (forall sess a,
     In (EvWorkerOp sess a) (st_trace (sys_st sys_pair_armed)) ->
     In (EvWorkerOp sess a) (st_trace (sys_st sys_pair)) \/
     a <> flush_op (sys_async sys_pair)).
Proof.
  apply (flushing_set_by_sentinel_pop toy_ok sys_pair sys_pair_held sys_pair_armed).
  - apply (run_workers_rtc toy_ok [0%nat]). vm_compute. reflexivity.
  - apply (step_worker toy_ok 1). vm_compute. reflexivity.
Defined.

Lemma worker_op_status_discarded_witness :
  let conn := sys_conn sys_pair_armed in
  let ops := sys_ops sys_pair_armed in
  let th := mkThread 1 (AT_OP 2000) worker0 in
  let st := sys_st sys_pair_armed in
  let op := set_op_state WT_ASYNCOP_WORKING the_insert in
  let st0 := mkST (st_eng st) (st_trace st ++ [EvWorkerOp 1 2000]) in
  let '((r, op', w'), st1) := __async_worker_op toy_ok 1 op worker0 st0 in
  (fst (txn_begin toy_ok 1 st0) = 0 ->
   fst (fst (fst (__async_worker_cursor toy_ok 1 op worker0
                    (snd (txn_begin toy_ok 1 st0))))) = 0 ->
   r = 0) /\
  __wt_async_worker toy_ok conn ops th st =
    (Some (conn, <[2000 := op']> ops, mkThread 1 AT_LOOP w'),
     mkST (st_eng st1) (st_trace st1 ++ [EvYield 1])).
Proof.
  apply (worker_op_status_discarded toy_ok (sys_conn sys_pair_armed)
           (sys_ops sys_pair_armed) (mkThread 1 (AT_OP 2000) worker0)
           (sys_st sys_pair_armed) 2000
           (set_op_state WT_ASYNCOP_WORKING the_insert)).
  - reflexivity.
  - vm_compute. discriminate.
  - vm_compute. reflexivity.
Defined.


(** ** Hash pairs do not determine formats *)

Lemma a_uri_length n : String.length (a_uri n) = n.
Proof. induction n as [|n IH]; simpl; [reflexivity|]. rewrite IH. reflexivity. Qed.

(** Whatever function computes a hash below a bound [B] from a uri, two
    different uris have the same hash. *)
Lemma hashes_collide (B : Z) (h : string -> Z) :
  (forall u, 0 <= h u < B) ->
  exists u1 u2, u1 <> u2 /\ h u1 = h u2.
Proof.
  intros Hh.
  destruct (nat_pigeonhole (fun i => Z.to_nat (h (a_uri i)))
              (S (Z.to_nat B)) (Z.to_nat B)) as (i1 & i2 & Hi & Heq).
  - apply Nat.lt_succ_diag_r.
  - intros i _. specialize (Hh (a_uri i)). apply Z2Nat.inj_lt; lia.
  - exists (a_uri i1), (a_uri i2). split.
    + intros Hu. apply (f_equal String.length) in Hu.
      rewrite !a_uri_length in Hu. lia.
    + pose proof (Hh (a_uri i1)). pose proof (Hh (a_uri i2)).
      apply Z2Nat.inj; lia.
Qed.

(** So for every 64-bit hash function there are two tables such that,
    after an op on the first, an op on the second is served the cursor of
    the first. *)
Lemma some_tables_share_a_cursor (h : string -> Z) :
  (forall u, 0 <= h u < 2 ^ 64) ->
  exists u1 u2, u1 <> u2 /\
    let f1 := mkFormat u1 EmptyString (h u1) (h EmptyString) in
    let f2 := mkFormat u2 EmptyString (h u2) (h EmptyString) in
    let '((_, w1, c1), st1) :=
      __async_worker_cursor toy_ok 1 (mk_op f1 WT_AOP_INSERT None) worker0 toy_st in
    __async_worker_cursor toy_ok 1 (mk_op f2 WT_AOP_INSERT None) w1 st1 =
      ((0, w1, c1), st1) /\
    ~ returns_usable toy_ok 1 (mk_op f2 WT_AOP_INSERT None) w1 st1.
Proof.
  intros Hh. destruct (hashes_collide (2 ^ 64) h Hh) as (u1 & u2 & Hne & Heq).
  exists u1, u2. split; [exact Hne|].
  cbn -[Z.pow]. unfold returns_usable, __async_worker_cursor. cbn -[Z.pow].
  unfold ac_matches. cbn -[Z.pow]. rewrite Heq, !Z.eqb_refl. cbn -[Z.pow].
  split; [reflexivity|].
  intros H. destruct (H eq_refl) as [s Hin]. cbn in Hin.
  destruct Hin as [Hin|[Hin|[]]]; [discriminate Hin|].
  injection Hin as _ Hu. congruence.
Qed.

(** ** Three runs of the handler *)

(** A search for a missing key: the callback is given WT_NOTFOUND, the
    transaction is committed, the value buffer of the op is untouched and
    the op is released. *)
Example search_missing_key :
  let op := mk_op fmt_a WT_AOP_SEARCH (Some (mkCallback (Some 77))) in
  __async_worker_op (toy 0 0 (-31803) 0) 1 op worker0 (toy_init 0 0 (-31803) 0)
  = ((0, mkOp (mkCursor item_k item_x 1) fmt_a WT_ASYNCOP_FREE WT_AOP_SEARCH
            (Some (mkCallback (Some 77))),
      mkWorker [mkAc 9 7 100] 1),
     mkST (wt := toy 0 0 (-31803) 0) 101
       [EvTxnBegin 1 0; EvCalloc 1 0; EvOpenCursor 1 "table:a" "" 0 100;
        EvSetRawKey 100 item_k; EvSearch 100 (-31803);
        EvNotify 77 (-31803) 0 0; EvTxnCommit 1 0; EvReset 100 0]).
Proof. reflexivity. Qed.

(** A search that finds its key: the value of the cursor is copied into
    the op before the callback is called with status 0. *)
Example search_existing_key :
  let op := mk_op fmt_a WT_AOP_SEARCH (Some (mkCallback (Some 77))) in
  __async_worker_op toy_ok 1 op worker0 toy_st
  = ((0, mkOp (mkCursor item_k [Byte.x76] 1) fmt_a WT_ASYNCOP_FREE
            WT_AOP_SEARCH (Some (mkCallback (Some 77))),
      mkWorker [mkAc 9 7 100] 1),
     mkST (wt := toy_ok) 101
       [EvTxnBegin 1 0; EvCalloc 1 0; EvOpenCursor 1 "table:a" "" 0 100;
        EvSetRawKey 100 item_k; EvSearch 100 0; EvGetRawValue 100 [Byte.x76];
        EvNotify 77 0 0 0; EvTxnCommit 1 0; EvReset 100 0]).
Proof. reflexivity. Qed.

(** An insert whose callback returns 1: the transaction is rolled back
    and the op is released all the same. *)
Example callback_refuses :
  let op := mk_op fmt_a WT_AOP_INSERT (Some (mkCallback (Some 77))) in
  __async_worker_op (toy 0 0 0 1) 1 op worker0 (toy_init 0 0 0 1)
  = ((0, mkOp (mkCursor item_k item_x 1) fmt_a WT_ASYNCOP_FREE WT_AOP_INSERT
            (Some (mkCallback (Some 77))),
      mkWorker [mkAc 9 7 100] 1),
     mkST (wt := toy 0 0 0 1) 101
       [EvTxnBegin 1 0; EvCalloc 1 0; EvOpenCursor 1 "table:a" "" 0 100;
        EvSetRawKey 100 item_k; EvSetRawValue 100 item_x; EvInsert 100 0;
        EvNotify 77 0 0 1; EvTxnRollback 1 0; EvReset 100 0]).
Proof. reflexivity. Qed.

(** * Further properties of the worker *)

(** ** Every step is one of the outcomes *)

Section Outcomes.

Context (wt : wt_internal).

Lemma dequeue_outcome conn ops th (st : ST wt) e d conn' ops' th' st' :
  dequeue_entry conn th st e d ->
  worker_dequeue wt conn ops th (mkST e (st_trace st ++ d)) =
    (Some (conn', ops', th'), st') ->
  thread_outcome conn ops th st conn' ops' th' st'.
Proof.
  intros He H. apply worker_dequeue_cases in H. simpl in H.
  destruct H as [(Hq & -> & -> & -> & ->)
                |[(a & rest & op & Hq & Hop & Ha & -> & -> & -> & ->)
                 |(rest & op & Hq & Hop & -> & -> & -> & ->)]];
    rewrite <- app_assoc.
  - apply out_empty; assumption.
  - apply out_take; assumption.
  - apply out_arm; assumption.
Qed.

Lemma err_outcome conn ops th (st : ST wt) e d r locked conn' ops' th' st' :
  err_entry conn th st e d r locked ->
  worker_err wt conn ops th r locked (mkST e (st_trace st ++ d)) =
    (Some (conn', ops', th'), st') ->
  thread_outcome conn ops th st conn' ops' th' st'.
Proof.
  intros He. rewrite worker_err_eq. intros [= <- <- <- <-].
  simpl. rewrite <- app_assoc. apply (out_err conn ops th st e d r locked He).
Qed.

(** The step function takes no other way. *)
Lemma thread_step_outcome conn ops th (st : ST wt) conn' ops' th' st' :
  __wt_async_worker wt conn ops th st = (Some (conn', ops', th'), st') ->
  thread_outcome conn ops th st conn' ops' th' st'.
Proof.
  intros H.
  destruct (th_pc th) as [| |k|a|] eqn:Hpc.
  - destruct (FLD_ISSET (conn_flags conn) (WT_CONN_SERVER_RUN wt)) eqn:Hrun.
    + destruct (flushing (async conn)) eqn:Hfl.
      * pose proof (thread_step_observe wt conn ops th st Hpc Hrun Hfl) as Ho.
        simpl in Ho. rewrite Ho in H. clear Ho.
        destruct (Z.eqb_spec (u32 (flush_count (async conn) + 1))
                    (async_workers conn));
          injection H as <- <- <- <-.
        -- apply out_last; assumption.
        -- apply out_observe; assumption.
      * unfold __wt_async_worker in H. rewrite Hpc, Hrun in H.
        unfold flushing in Hfl. revert H. run. rewrite Hfl.
        apply dequeue_outcome. apply entry_loop; assumption.
    + unfold __wt_async_worker in H. rewrite Hpc, Hrun in H. simpl in H.
      rewrite worker_exit_eq in H. injection H as <- <- <- <-.
      apply out_exit; assumption.
  - unfold __wt_async_worker in H. rewrite Hpc in H. revert H. run.
    destruct (__wt_cond_signal wt (th_session th) (st_eng st)) as [r e] eqn:Hs.
    simpl. destruct (Z.eqb_spec r 0) as [->|Hr]; simpl.
    + rewrite <- app_assoc. simpl.
      apply (dequeue_outcome conn ops th st e
               [EvCondSignal (th_session th) 0; EvLock (th_session th)]).
      apply entry_signal; assumption.
    + apply (err_outcome conn ops th st e [EvCondSignal (th_session th) r]).
      apply err_signal; assumption.
  - destruct (flushing (async conn)) eqn:Hfl.
    + pose proof (thread_step_still_flushing wt conn ops th st k Hpc Hfl) as Hw.
      simpl in Hw.
      destruct (__wt_cond_wait wt (th_session th) (st_eng st)) as [r e] eqn:Hc.
      rewrite Hw in H. clear Hw.
      destruct (Z.eqb_spec r 0) as [->|Hr]; simpl in H.
      * injection H as <- <- <- <-. eapply out_still; eauto.
      * destruct (Z.eqb_spec r (ETIMEDOUT wt)) as [Ht|Ht]; simpl in H.
        -- injection H as <- <- <- <-. eapply out_still; eauto.
        -- revert H.
           apply (err_outcome conn ops th st e [EvCondWait (th_session th) r]).
           eapply err_wait; eauto.
    + unfold __wt_async_worker in H. rewrite Hpc in H.
      unfold flush_wait_wake, flush_wait_test in H.
      unfold flushing in Hfl. revert H. run. rewrite Hfl.
      destruct (__wt_cond_wait wt (th_session th) (st_eng st)) as [r e] eqn:Hc.
      simpl.
      destruct (Z.eqb_spec r 0) as [->|Hr]; simpl.
      * destruct k as [|a]; simpl.
        -- rewrite <- app_assoc. simpl.
           apply (dequeue_outcome conn ops th st e
                    [EvCondWait (th_session th) 0; EvLock (th_session th)]).
           apply entry_wake; assumption.
        -- unfold worker_unlock. run. intros [= <- <- <- <-].
           rewrite <- !app_assoc. simpl. apply out_resume; assumption.
      * destruct (Z.eqb_spec r (ETIMEDOUT wt)) as [Ht|Ht]; simpl.
        -- destruct k as [|a]; simpl;
             (destruct (Z.eqb_spec r 0); [contradiction|]); simpl;
             rewrite <- app_assoc; simpl;
             apply (err_outcome conn ops th st e
                      [EvCondWait (th_session th) r; EvLock (th_session th)]);
             eapply err_timedout; eauto.
        -- destruct k as [|a]; simpl;
             (destruct (Z.eqb_spec r 0); [contradiction|]); simpl;
             apply (err_outcome conn ops th st e [EvCondWait (th_session th) r]);
             eapply err_wait; eauto.
  - unfold __wt_async_worker in H. rewrite Hpc in H.
    destruct (Z.eqb_spec a (flush_op (async conn))) as [Ha|Ha]; simpl in H.
    + revert H. run. intros [= <- <- <- <-]. apply (out_skip conn ops th st a); assumption.
    + destruct (ops !! a) as [op|] eqn:Hop; [|discriminate H].
      revert H. run.
      destruct (__async_worker_op wt (th_session th) op (th_worker th) _)
        as [[[r op'] w'] st1] eqn:Hh.
      simpl. intros [= <- <- <- <-].
      eapply out_handle; eauto.
  - unfold __wt_async_worker in H. rewrite Hpc in H. discriminate H.
Qed.

End Outcomes.

(** ** More on the handler *)

Section HandlerMore.

Context (wt : wt_internal).

Lemma exec_event_inner e : exec_event e = true -> inner e = true.
Proof. destruct e; simpl; congruence. Qed.

(** What the executor does to the op: nothing, or, after a search with
    status 0, the store of the value found. *)
Lemma execop_result s op c st :
  let '((r, op'), st') := __async_worker_execop wt s op c st in
  (exists d, st_trace st' = st_trace st ++ d /\
             Forall (fun e => exec_event e = true) d) /\
  (op' = op \/
   (op_optype op = WT_AOP_SEARCH /\ r = 0 /\
    op' = op_set_raw_value wt (__wt_cursor_get_raw_value wt c (st_eng st')) op)).
Proof.
  unfold __async_worker_execop. run.
  destruct (op_optype op) eqn:Hk; run;
    try (destruct (cursor_insert wt c _) as [r e]; simpl);
    try (destruct (cursor_remove wt c _) as [r e]; simpl);
    try (destruct (cursor_search wt c _) as [r e]; simpl;
         destruct (Z.eqb_spec r 0) as [->|Hr]; simpl);
    rewrite <- ?app_assoc; simpl;
    (split; [eexists; (split; [reflexivity|]); repeat constructor|]);
    auto.
Qed.

(** The callback is called once when a notify function is registered,
    with the status given and flags 0, and not at all otherwise. *)
Lemma run_callback_trace op status st :
  let '(cb_ret, st') := run_callback wt op status st in
  st_trace st' = st_trace st ++
    match registered op with
    | Some f => [EvNotify f status 0 cb_ret]
    | None => []
    end.
Proof.
  unfold run_callback, registered.
  destruct (op_cb op) as [[[f|]]|]; run; rewrite ?app_nil_r; try reflexivity.
  destruct (cb_notify wt f op status 0 _) as [r e]. reflexivity.
Qed.

Lemma execop_registered s op c st :
  registered (snd (fst (__async_worker_execop wt s op c st))) = registered op.
Proof. unfold registered. rewrite execop_op_cb. reflexivity. Qed.

(** A handler that returns 0 has begun its transaction and obtained a
    cursor. *)
Lemma worker_op_zero_inv s op w st :
  fst (fst (fst (__async_worker_op wt s op w st))) = 0 ->
  fst (txn_begin wt s st) = 0 /\
  fst (fst (fst (__async_worker_cursor wt s op w (snd (txn_begin wt s st))))) = 0.
Proof.
  rewrite (worker_op_unfold wt s op w st).
  destruct (txn_begin wt s st) as [r0 st1]. simpl fst. simpl snd.
  destruct (Z.eqb_spec r0 0) as [->|Hr0]; simpl; [|intros; contradiction].
  destruct (__async_worker_cursor wt s op w st1) as [[[r1 w1] c] st2].
  simpl fst.
  destruct (Z.eqb_spec r1 0) as [->|Hr1]; simpl; [auto|intros; contradiction].
Qed.

(** The handler's calls, in order: the begin; the calls of the
    get-or-open; the calls of the executor; the callback, if one is
    registered, with the executor's status and flags 0; the commit or
    rollback; the reset. *)
Lemma worker_op_shape s op w st :
  fst (txn_begin wt s st) = 0 ->
  fst (fst (fst (__async_worker_cursor wt s op w (snd (txn_begin wt s st))))) = 0 ->
  let '(_, st1) := txn_begin wt s st in
  let '((_, _, c), st2) := __async_worker_cursor wt s op w st1 in
  let '((status, op1), st3) := __async_worker_execop wt s op c st2 in
  let '(cb_ret, _) := run_callback wt op1 status st3 in
  let '(_, st') := __async_worker_op wt s op w st in
  exists dx ev rr,
    st_trace st' =
      st_trace st2 ++ dx ++
      match registered op with
      | Some f => [EvNotify f status 0 cb_ret]
      | None => []
      end ++ [ev; EvReset c rr] /\
    Forall (fun e => exec_event e = true) dx /\
    is_resolution ev = true.
Proof.
  rewrite (worker_op_unfold wt s op w st).
  destruct (txn_begin wt s st) as [r0 st1]. simpl fst. simpl snd.
  intros ->. simpl negb. cbv iota.
  destruct (__async_worker_cursor wt s op w st1) as [[[r1 w1] c] st2].
  simpl fst. intros ->. simpl negb. cbv iota.
  pose proof (execop_result s op c st2) as Hx.
  pose proof (execop_registered s op c st2) as Hreg.
  destruct (__async_worker_execop wt s op c st2) as [[status op1] st3].
  destruct Hx as ((dx & Hdx & Hfx) & _). simpl in Hreg.
  pose proof (run_callback_trace op1 status st3) as Hn.
  destruct (run_callback wt op1 status st3) as [cb_ret st4].
  rewrite Hreg in Hn.
  assert (Hres : exists t ev e5,
             ((if commit_test wt status cb_ret
               then txn_commit wt s else txn_rollback wt s) st4) =
             (t, mkST e5 (st_trace st4 ++ [ev])) /\ is_resolution ev = true).
  { destruct (commit_test wt status cb_ret); run.
    - destruct (__wt_txn_commit wt s _) as [t e]. eexists _, _, _. split; reflexivity.
    - destruct (__wt_txn_rollback wt s _) as [t e]. eexists _, _, _. split; reflexivity. }
  destruct Hres as (t & ev & e5 & -> & Hev).
  unfold c_reset, call. simpl.
  destruct (cursor_reset wt c e5) as [rr e6]. simpl.
  exists dx, ev, rr. split; [|split; assumption].
  rewrite Hn, Hdx, <- !app_assoc. reflexivity.
Qed.

End HandlerMore.

Section HandlerExtras.

Context (wt : wt_internal).

Lemma filter_notify_inner_cursor s op w st :
  exists d, st_trace (snd (__async_worker_cursor wt s op w st)) = st_trace st ++ d /\
            List.filter is_notify d = [] /\ List.filter is_resolution d = [] /\
            Forall (fun e => exec_event e = false) d.
Proof.
  destruct (cursorqh_foreach (op_format op) (cursorqh w)) as [ac|] eqn:Hf.
  - rewrite (worker_cursor_hit wt s op w st ac Hf).
    exists []. rewrite app_nil_r. repeat split; constructor.
  - pose proof (worker_cursor_miss wt s op w st Hf) as Hm.
    destruct (__wt_calloc_def wt s (st_eng st)) as [rc e1].
    destruct (open_cursor wt s _ _ e1) as [[ro c] e2].
    rewrite Hm. clear Hm.
    destruct (negb (rc =? 0)); simpl;
      [|destruct (negb (ro =? 0)); simpl];
      eexists; (split; [reflexivity|]); repeat split; repeat constructor.
Qed.

Lemma filter_exec_events (p : Event -> bool) d :
  (forall e, exec_event e = true -> p e = false) ->
  Forall (fun e => exec_event e = true) d -> List.filter p d = [].
Proof.
  intros Hp. induction 1 as [|e d He _ IH]; simpl; [reflexivity|].
  rewrite (Hp e He). exact IH.
Qed.

(** X1: once the transaction has begun and a cursor has been obtained,
    the handler calls the callback exactly once when a notify function is
    registered, and never otherwise; the call comes after every call of the
    executor, carries the executor's status and flags 0, and is followed at
    once by the one commit or rollback and then the reset. *)
Theorem callback_between_execop_and_resolution s op w st :
  fst (txn_begin wt s st) = 0 ->
  fst (fst (fst (__async_worker_cursor wt s op w (snd (txn_begin wt s st))))) = 0 ->
  let '(_, st1) := txn_begin wt s st in
  let '((_, _, c), st2) := __async_worker_cursor wt s op w st1 in
  let '((status, op1), st3) := __async_worker_execop wt s op c st2 in
  let '(cb_ret, _) := run_callback wt op1 status st3 in
  let '(_, st') := __async_worker_op wt s op w st in
  exists pre ev rr,
    st_trace st' =
      st_trace st ++ pre ++
      match registered op with
      | Some f => [EvNotify f status 0 cb_ret]
      | None => []
      end ++ [ev; EvReset c rr] /\
    List.filter is_notify pre = [] /\
    List.filter is_resolution pre = [] /\
    is_resolution ev = true.
Proof.
  intros H0 H1.
  pose proof (worker_op_shape wt s op w st H0 H1) as Hs.
  pose proof (txn_begin_trace wt s st) as Hb.
  destruct (txn_begin wt s st) as [r0 st1]. simpl in H0, H1, Hb. subst r0.
  pose proof (filter_notify_inner_cursor s op w st1) as (dc & Hdc & Hnc & Hrc & _).
  destruct (__async_worker_cursor wt s op w st1) as [[[r1 w1] c] st2].
  simpl in Hdc.
  destruct (__async_worker_execop wt s op c st2) as [[status op1] st3].
  destruct (run_callback wt op1 status st3) as [cb_ret st4].
  destruct (__async_worker_op wt s op w st) as [res st'].
  destruct Hs as (dx & ev & rr & Ht & Hdx & Hev).
  exists ([EvTxnBegin s 0] ++ dc ++ dx), ev, rr.
  split; [|split; [|split]].
  - rewrite Ht, Hdc, Hb, <- !app_assoc. reflexivity.
  - rewrite !List.filter_app, Hnc.
    rewrite (filter_exec_events is_notify dx); [reflexivity| |exact Hdx].
    intros e; destruct e; simpl; congruence.
  - rewrite !List.filter_app, Hrc.
    rewrite (filter_exec_events is_resolution dx); [reflexivity| |exact Hdx].
    intros e; destruct e; simpl; congruence.
  - exact Hev.
Qed.

(** X2: a handler that returns a status other than 0 has done nothing for
    its op: the op is as it was (not released, flags not cleared), the
    cursor cache is as it was, the callback has not been called and no
    transaction has been committed or rolled back. *)
Theorem failed_handler_leaves_op s op w st :
  fst (fst (fst (__async_worker_op wt s op w st))) <> 0 ->
  let '((_, op', w'), st') := __async_worker_op wt s op w st in
  op' = op /\ w' = w /\
  exists d, st_trace st' = st_trace st ++ d /\
            List.filter is_notify d = [] /\
            List.filter is_resolution d = [].
Proof.
  rewrite (worker_op_unfold wt s op w st).
  pose proof (txn_begin_trace wt s st) as Hb.
  destruct (txn_begin wt s st) as [r0 st1]. simpl in Hb.
  destruct (Z.eqb_spec r0 0) as [->|Hr0]; simpl.
  2:{ intros _. repeat split. eexists. split; [exact Hb|]. split; reflexivity. }
  pose proof (filter_notify_inner_cursor s op w st1) as (dc & Hdc & Hnc & Hrc & _).
  pose proof (worker_cursor_effects wt s op w st1) as He.
  destruct (__async_worker_cursor wt s op w st1) as [[[r1 w1] c] st2].
  simpl in Hdc. destruct He as (_ & Hw & _).
  destruct (Z.eqb_spec r1 0) as [->|Hr1]; simpl.
  - destruct (__async_worker_execop wt s op c st2) as [[status op1] st3].
    destruct (run_callback wt op1 status st3) as [cb_ret st4].
    destruct ((if commit_test wt status cb_ret
               then txn_commit wt s else txn_rollback wt s) st4) as [t st5].
    destruct (c_reset wt c st5) as [rr st6]. simpl. intros H. contradiction.
  - intros _. split; [reflexivity|]. split; [exact (Hw Hr1)|].
    exists ([EvTxnBegin s 0] ++ dc). split.
    + rewrite Hdc, Hb, <- app_assoc. reflexivity.
    + rewrite !List.filter_app, Hnc, Hrc. split; reflexivity.
Qed.

(** X3: the handler never changes the key, the format, the kind or the
    callback of its op, and it changes the value buffer only for a SEARCH
    whose cursor search returned 0. *)
Theorem handler_keeps_op_fields s op w st :
  let '((_, op', _), _) := __async_worker_op wt s op w st in
  cur_key (op_c op') = cur_key (op_c op) /\
  op_format op' = op_format op /\
  op_optype op' = op_optype op /\
  op_cb op' = op_cb op /\
  (cur_value (op_c op') <> cur_value (op_c op) ->
   op_optype op = WT_AOP_SEARCH /\
   exists c tr tr', st_trace (snd (__async_worker_op wt s op w st)) =
                    tr ++ EvSearch c 0 :: tr').
Proof.
  rewrite (worker_op_unfold wt s op w st).
  destruct (txn_begin wt s st) as [r0 st1].
  destruct (negb (r0 =? 0)).
  { do 4 (split; [reflexivity|]). intros Hne. contradiction Hne. reflexivity. }
  destruct (__async_worker_cursor wt s op w st1) as [[[r1 w1] c] st2].
  destruct (negb (r1 =? 0)).
  { do 4 (split; [reflexivity|]). intros Hne. contradiction Hne. reflexivity. }
  assert (Hx : let '((r, op1), st3) := __async_worker_execop wt s op c st2 in
               (op1 = op /\ True) \/
               (op_optype op = WT_AOP_SEARCH /\ r = 0 /\
                op1 = op_set_raw_value wt
                        (__wt_cursor_get_raw_value wt c (st_eng st3)) op /\
                exists tr, st_trace st3 = tr ++ [EvSearch c 0;
                  EvGetRawValue c (__wt_cursor_get_raw_value wt c (st_eng st3))])).
  { unfold __async_worker_execop. run.
    destruct (op_optype op) eqn:Hk; run;
      try (destruct (cursor_insert wt c _) as [r e]; simpl; auto);
      try (destruct (cursor_remove wt c _) as [r e]; simpl; auto); auto.
    destruct (cursor_search wt c _) as [r e]; simpl.
    destruct (Z.eqb_spec r 0) as [->|Hr]; simpl; auto.
    right. repeat split.
    exists (st_trace st2 ++ [EvSetRawKey c (cur_key (op_c op))]).
    rewrite <- (app_assoc _ [EvSearch c 0]). reflexivity. }
  destruct (__async_worker_execop wt s op c st2) as [[status op1] st3].
  pose proof (run_callback_trace wt op1 status st3) as Hn.
  destruct (run_callback wt op1 status st3) as [cb_ret st4].
  assert (Hres : exists t ev e5,
             ((if commit_test wt status cb_ret
               then txn_commit wt s else txn_rollback wt s) st4) =
             (t, mkST e5 (st_trace st4 ++ [ev]))).
  { destruct (commit_test wt status cb_ret); run.
    - destruct (__wt_txn_commit wt s _) as [t e]. eexists _, _, _. reflexivity.
    - destruct (__wt_txn_rollback wt s _) as [t e]. eexists _, _, _. reflexivity. }
  destruct Hres as (t & ev & e5 & ->).
  unfold c_reset, call. simpl.
  destruct (cursor_reset wt c e5) as [rr e6]. simpl.
  destruct Hx as [[-> _]|(Hk & -> & -> & tr & Htr)].
  - do 4 (split; [reflexivity|]). intros Hne. contradiction Hne. reflexivity.
  - do 4 (split; [reflexivity|]). intros _. split; [exact Hk|].
    exists c. rewrite Hn, Htr. eexists tr, _.
    rewrite <- !app_assoc. simpl. reflexivity.
Qed.

(** X4: after a handler that returned 0, the handler of the next op of
    the same worker, if its format has the same hash pair, allocates
    nothing and opens nothing, in whatever state the engine is by then,
    and leaves the cursor cache as it found it. *)
Theorem second_handler_opens_nothing s op1 op2 w st st' :
  cfg_hash (op_format op1) = cfg_hash (op_format op2) ->
  uri_hash (op_format op1) = uri_hash (op_format op2) ->
  fst (fst (fst (__async_worker_op wt s op1 w st))) = 0 ->
  let '((_, _, w1), _) := __async_worker_op wt s op1 w st in
  let '((_, _, w2), st2) := __async_worker_op wt s op2 w1 st' in
  w2 = w1 /\
  exists d, st_trace st2 = st_trace st' ++ d /\
            List.filter is_calloc d = [] /\
            count_opens d = 0%nat.
Proof.
  intros Hc Hu Hz.
  destruct (worker_op_zero_inv wt s op1 w st Hz) as [Hb Hcur].
  pose proof (worker_op_cache wt s op1 w st) as Hw1.
  rewrite Hb in Hw1. simpl in Hw1.
  pose proof (worker_cursor_second_hit wt s op1 op2 w (snd (txn_begin wt s st))
                Hc Hu) as Hhit.
  destruct (__async_worker_cursor wt s op1 w (snd (txn_begin wt s st)))
    as [[[r1 wc] c1] stc].
  simpl in Hcur, Hw1. specialize (Hhit Hcur).
  destruct (__async_worker_op wt s op1 w st) as [[[r op1'] w1] st1].
  simpl in Hw1. subst w1.
  rewrite (worker_op_unfold wt s op2 wc st').
  pose proof (txn_begin_trace wt s st') as Hb2.
  destruct (txn_begin wt s st') as [r0 sta]. simpl in Hb2.
  destruct (negb (r0 =? 0)).
  { split; [reflexivity|]. eexists. split; [exact Hb2|]. split; reflexivity. }
  rewrite (Hhit sta). simpl negb. cbv iota.
  pose proof (execop_result wt s op2 c1 sta) as Hx.
  destruct (__async_worker_execop wt s op2 c1 sta) as [[status op2'] st3].
  destruct Hx as ((dx & Hdx & Hfx) & _).
  pose proof (run_callback_trace wt op2' status st3) as Hn.
  destruct (run_callback wt op2' status st3) as [cb_ret st4].
  assert (Hres : exists t ev e5,
             ((if commit_test wt status cb_ret
               then txn_commit wt s else txn_rollback wt s) st4) =
             (t, mkST e5 (st_trace st4 ++ [ev])) /\ is_resolution ev = true).
  { destruct (commit_test wt status cb_ret); run.
    - destruct (__wt_txn_commit wt s _) as [t e]. eexists _, _, _. split; reflexivity.
    - destruct (__wt_txn_rollback wt s _) as [t e]. eexists _, _, _. split; reflexivity. }
  destruct Hres as (t & ev & e5 & -> & Hev).
  unfold c_reset, call. simpl.
  destruct (cursor_reset wt c1 e5) as [rr e6]. simpl.
  split; [reflexivity|].
  eexists. split.
  { rewrite Hn, Hdx, Hb2, <- !app_assoc. reflexivity. }
  assert (Hdx1 : List.filter is_calloc dx = []).
  { apply filter_exec_events; [|exact Hfx]. intros e; destruct e; simpl; congruence. }
  assert (Hdx2 : List.filter is_open_cursor dx = []).
  { apply filter_exec_events; [|exact Hfx]. intros e; destruct e; simpl; congruence. }
  unfold count_opens. simpl. rewrite !List.filter_app, Hdx1, Hdx2.
  destruct (registered op2') as [f|]; simpl;
    destruct ev; simpl in Hev; try discriminate Hev; split; reflexivity.
Qed.

End HandlerExtras.

Lemma callback_between_execop_and_resolution_witness :
  let wt := toy 0 0 0 1 in
  let op := mk_op fmt_a WT_AOP_INSERT (Some (mkCallback (Some 77))) in
  let st := toy_init 0 0 0 1 in
  let '(_, st1) := txn_begin wt 1 st in
  let '((_, _, c), st2) := __async_worker_cursor wt 1 op worker0 st1 in
  let '((status, op1), st3) := __async_worker_execop wt 1 op c st2 in
  let '(cb_ret, _) := run_callback wt op1 status st3 in
  let '(_, st') := __async_worker_op wt 1 op worker0 st in
  exists pre ev rr,
    st_trace st' =
      st_trace st ++ pre ++
      match registered op with
      | Some f => [EvNotify f status 0 cb_ret]
      | None => []
      end ++ [ev; EvReset c rr] /\
    List.filter is_notify pre = [] /\
    List.filter is_resolution pre = [] /\
    is_resolution ev = true.
Proof.
  exact (callback_between_execop_and_resolution (toy 0 0 0 1) 1
           (mk_op fmt_a WT_AOP_INSERT (Some (mkCallback (Some 77))))
           worker0 (toy_init 0 0 0 1) eq_refl eq_refl).
Defined.

Lemma failed_handler_leaves_op_witness :
  let wt := toy 0 5 0 0 in
  let op := mk_op fmt_a WT_AOP_INSERT (Some (mkCallback (Some 77))) in
  let '((_, op', w'), st') := __async_worker_op wt 1 op worker0 (toy_init 0 5 0 0) in
  op' = op /\ w' = worker0 /\
  exists d, st_trace st' = st_trace (toy_init 0 5 0 0) ++ d /\
            List.filter is_notify d = [] /\
            List.filter is_resolution d = [].
Proof.
  apply (failed_handler_leaves_op (toy 0 5 0 0) 1
           (mk_op fmt_a WT_AOP_INSERT (Some (mkCallback (Some 77))))
           worker0 (toy_init 0 5 0 0)).
  vm_compute. discriminate.
Defined.

Lemma second_handler_opens_nothing_witness :
  let '((_, _, w1), _) :=
    __async_worker_op toy_ok 1 (mk_op fmt_a WT_AOP_INSERT None) worker0 toy_st in
  let '((_, _, w2), st2) :=
    __async_worker_op toy_ok 1 (mk_op fmt_a WT_AOP_SEARCH None) w1 toy_st2 in
  w2 = w1 /\
  exists d, st_trace st2 = st_trace toy_st2 ++ d /\
            List.filter is_calloc d = [] /\
            count_opens d = 0%nat.
Proof.
  exact (second_handler_opens_nothing toy_ok 1 (mk_op fmt_a WT_AOP_INSERT None)
           (mk_op fmt_a WT_AOP_SEARCH None) worker0 toy_st toy_st2
           eq_refl eq_refl eq_refl).
Defined.

(** ** The commit and rollback law *)

Section CommitLaw.

Context (wt : wt_internal).

(** The callback return of the handler: what the notify function
    returns when one is registered, 0 otherwise. *)
Lemma run_callback_value op status st :
  fst (run_callback wt op status st) =
  match registered op with
  | Some f => fst (cb_notify wt f op status 0 (st_eng st))
  | None => 0
  end.
Proof.
  unfold run_callback, registered.
  destruct (op_cb op) as [[[f|]]|]; run; try reflexivity.
  destruct (cb_notify wt f op status 0 _) as [r e]. reflexivity.
Qed.

(** C2: once the transaction has begun and a cursor has been obtained, the
    handler resolves the transaction exactly once.  The callback return is
    what the registered notify function returns when called on the op with
    the status of the executor and flags 0, and it is 0 when no notify
    function is registered; that call is the only callback call of the
    handler.  The resolution is a commit when the status of the executor is
    0 or WT_NOTFOUND and the callback return is 0, and a rollback in every
    other case. *)
Theorem commit_rollback_law s op w st :
  fst (txn_begin wt s st) = 0 ->
  fst (fst (fst (__async_worker_cursor wt s op w (snd (txn_begin wt s st))))) = 0 ->
  let '(_, st1) := txn_begin wt s st in
  let '((_, _, c), st2) := __async_worker_cursor wt s op w st1 in
  let '((status, op1), st3) := __async_worker_execop wt s op c st2 in
  let cb_ret :=
    match registered op with
    | Some f => fst (cb_notify wt f op1 status 0 (st_eng st3))
    | None => 0
    end in
  let '(_, st') := __async_worker_op wt s op w st in
  exists d ev,
    st_trace st' = st_trace st ++ d /\
    List.filter is_notify d =
      match registered op with
      | Some f => [EvNotify f status 0 cb_ret]
      | None => []
      end /\
    List.filter is_resolution d = [ev] /\
    ((status = 0 \/ status = WT_NOTFOUND wt) /\ cb_ret = 0 ->
     exists t, ev = EvTxnCommit s t) /\
    (~ ((status = 0 \/ status = WT_NOTFOUND wt) /\ cb_ret = 0) ->
     exists t, ev = EvTxnRollback s t).
Proof.
  rewrite (worker_op_unfold wt s op w st).
  pose proof (txn_begin_trace wt s st) as Hb.
  destruct (txn_begin wt s st) as [r0 st1]. simpl in Hb. simpl fst. simpl snd.
  intros ->. simpl negb. cbv iota.
  pose proof (filter_notify_inner_cursor wt s op w st1)
    as (dc & Hdc & Hnc & Hrc & _).
  destruct (__async_worker_cursor wt s op w st1) as [[[r1 w1] c] st2].
  simpl in Hdc. simpl fst. intros ->. simpl negb. cbv iota.
  pose proof (execop_result wt s op c st2) as Hx.
  pose proof (execop_registered wt s op c st2) as Hreg.
  destruct (__async_worker_execop wt s op c st2) as [[status op1] st3].
  destruct Hx as ((dx & Hdx & Hfx) & _). simpl in Hreg.
  pose proof (run_callback_trace wt op1 status st3) as Hn.
  pose proof (run_callback_value op1 status st3) as Hv.
  destruct (run_callback wt op1 status st3) as [cb_ret st4].
  simpl in Hv. rewrite Hreg in Hn, Hv. cbv zeta. rewrite <- Hv.
  set (nl := match registered op with
             | Some f => [EvNotify f status 0 cb_ret]
             | None => []
             end) in *.
  assert (Hnx : List.filter is_notify dx = []).
  { apply filter_exec_events; [|exact Hfx].
    intros e; destruct e; simpl; congruence. }
  assert (Hrx : List.filter is_resolution dx = []).
  { apply filter_exec_events; [|exact Hfx].
    intros e; destruct e; simpl; congruence. }
  assert (Hnn : List.filter is_notify nl = nl).
  { subst nl. destruct (registered op); reflexivity. }
  assert (Hrn : List.filter is_resolution nl = []).
  { subst nl. destruct (registered op); reflexivity. }
  pose proof (commit_test_spec wt status cb_ret) as Hct.
  destruct (commit_test wt status cb_ret).
  - unfold txn_commit, c_reset, call.
    destruct (__wt_txn_commit wt s (st_eng st4)) as [t e5]. simpl.
    destruct (cursor_reset wt c e5) as [rr e6]. simpl.
    exists
      ([EvTxnBegin s 0] ++ dc ++ dx ++ nl ++ [EvTxnCommit s t; EvReset c rr]),
      (EvTxnCommit s t).
    split.
    { rewrite Hn, Hdx, Hdc, Hb, <- !app_assoc. reflexivity. }
    split.
    { rewrite !List.filter_app, Hnc, Hnx, Hnn. simpl. apply app_nil_r. }
    split.
    { rewrite !List.filter_app, Hrc, Hrx, Hrn. reflexivity. }
    split; [eauto|]. intros H. contradiction H. apply Hct. reflexivity.
  - unfold txn_rollback, c_reset, call.
    destruct (__wt_txn_rollback wt s (st_eng st4)) as [t e5]. simpl.
    destruct (cursor_reset wt c e5) as [rr e6]. simpl.
    exists
      ([EvTxnBegin s 0] ++ dc ++ dx ++ nl ++ [EvTxnRollback s t; EvReset c rr]),
      (EvTxnRollback s t).
    split.
    { rewrite Hn, Hdx, Hdc, Hb, <- !app_assoc. reflexivity. }
    split.
    { rewrite !List.filter_app, Hnc, Hnx, Hnn. simpl. apply app_nil_r. }
    split.
    { rewrite !List.filter_app, Hrc, Hrx, Hrn. reflexivity. }
    split; [|eauto]. intros H. apply Hct in H. discriminate.
Qed.

End CommitLaw.

Lemma commit_rollback_law_witness :
  let wt := toy 0 0 0 1 in
  let op := mk_op fmt_a WT_AOP_INSERT (Some (mkCallback (Some 77))) in
  let st := toy_init 0 0 0 1 in
  let '(_, st1) := txn_begin wt 1 st in
  let '((_, _, c), st2) := __async_worker_cursor wt 1 op worker0 st1 in
  let '((status, op1), st3) := __async_worker_execop wt 1 op c st2 in
  let cb_ret :=
    match registered op with
    | Some f => fst (cb_notify wt f op1 status 0 (st_eng st3))
    | None => 0
    end in
  let '(_, st') := __async_worker_op wt 1 op worker0 st in
  exists d ev,
    st_trace st' = st_trace st ++ d /\
    List.filter is_notify d =
      match registered op with
      | Some f => [EvNotify f status 0 cb_ret]
      | None => []
      end /\
    List.filter is_resolution d = [ev] /\
    ((status = 0 \/ status = WT_NOTFOUND wt) /\ cb_ret = 0 ->
     exists t, ev = EvTxnCommit 1 t) /\
    (~ ((status = 0 \/ status = WT_NOTFOUND wt) /\ cb_ret = 0) ->
     exists t, ev = EvTxnRollback 1 t).
Proof.
  exact (commit_rollback_law (toy 0 0 0 1) 1
           (mk_op fmt_a WT_AOP_INSERT (Some (mkCallback (Some 77)))) worker0
           (toy_init 0 0 0 1) eq_refl eq_refl).
Defined.

(** ** The cursor cache over the life of a worker *)

Section CacheLife.

Context (wt : wt_internal).

Lemma foreach_None_sig f q :
  cursorqh_foreach f q = None ->
  ~ In (uri_hash f, cfg_hash f) (map ac_sig q).
Proof.
  intros Hn Hin. apply cursorqh_foreach_None in Hn.
  apply in_map_iff in Hin. destruct Hin as (ac & Hsig & Hac).
  rewrite List.Forall_forall in Hn. specialize (Hn ac Hac).
  apply ac_matches_false in Hn. unfold ac_sig in Hsig.
  injection Hsig as Hu Hc. destruct Hn; congruence.
Qed.

(** What a get-or-open call does to the cache: nothing, or one new entry
    at the head, with a hash pair no entry had, and the count one up. *)
Lemma worker_cursor_cache s op w st :
  let w' := snd (fst (fst (__async_worker_cursor wt s op w st))) in
  w' = w \/
  (exists c,
     cursorqh_foreach (op_format op) (cursorqh w) = None /\
     cursorqh w' =
       mkAc (cfg_hash (op_format op)) (uri_hash (op_format op)) c :: cursorqh w /\
     num_cursors w' = u32 (num_cursors w + 1)).
Proof.
  destruct (cursorqh_foreach (op_format op) (cursorqh w)) as [ac|] eqn:Hf.
  - rewrite (worker_cursor_hit wt s op w st ac Hf). left. reflexivity.
  - pose proof (worker_cursor_miss wt s op w st Hf) as Hm.
    destruct (__wt_calloc_def wt s (st_eng st)) as [rc e1].
    destruct (open_cursor wt s _ _ e1) as [[ro c] e2].
    rewrite Hm. clear Hm.
    destruct (negb (rc =? 0)); simpl; [left; reflexivity|].
    destruct (negb (ro =? 0)); simpl; [left; reflexivity|].
    right. exists c. repeat split.
Qed.

(** A property of the cache that every get-or-open call keeps is kept by
    every thread over every run of the pool. *)
Lemma cache_property_kept (P : WT_ASYNC_WORKER_STATE -> Prop) :
  (forall s op w st,
     P w -> P (snd (fst (fst (__async_worker_cursor wt s op w st))))) ->
  forall (s s' : System wt) i th,
    rtc (step wt) s s' ->
    sys_threads s !! i = Some th ->
    P (th_worker th) ->
    exists th', sys_threads s' !! i = Some th' /\ P (th_worker th').
Proof.
  intros HP s s' i th H. revert th.
  induction H as [s|s1 s2 s3 H12 _ IH]; intros th Hth Hp; [eauto|].
  assert (H2 : exists th2, sys_threads s2 !! i = Some th2 /\ P (th_worker th2)).
  { destruct H12 as [j s1 s2 H|s1]; [|eauto].
    apply worker_step_inv in H.
    destruct H as (thj & conn' & ops' & thj' & st' & Hthj & H & ->). simpl.
    destruct (decide (j = i)) as [->|Hne].
    - rewrite Hth in Hthj. injection Hthj as <-.
      exists thj'. split.
      + apply list_lookup_insert_eq. eapply lookup_lt_Some. exact Hth.
      + apply thread_step_outcome in H.
        destruct H; simpl; try exact Hp.
        match goal with Hh : __async_worker_op _ ?s0 ?o ?w0 ?x = _ |- _ =>
          pose proof (worker_op_cache wt s0 o w0 x) as Hc;
          rewrite Hh in Hc; cbn [fst snd] in Hc; rewrite Hc end.
        destruct (negb _); [exact Hp|]. apply HP. exact Hp.
    - exists th. split; [|exact Hp].
      rewrite list_lookup_insert_ne by exact Hne. exact Hth. }
  destruct H2 as (th2 & Hth2 & Hp2). eauto.
Qed.

(** X5: a worker's cursor cache never holds two entries with the same
    (uri_hash, cfg_hash) pair: if that is so of a thread at some point (as
    it is when the thread starts, with an empty cache), it is so in every
    later state of the pool. *)
Theorem cache_has_one_entry_per_hash_pair (s s' : System wt) i th :
  rtc (step wt) s s' ->
  sys_threads s !! i = Some th ->
  List.NoDup (map ac_sig (cursorqh (th_worker th))) ->
  exists th', sys_threads s' !! i = Some th' /\
              List.NoDup (map ac_sig (cursorqh (th_worker th'))).
Proof.
  apply (cache_property_kept
           (fun w => List.NoDup (map ac_sig (cursorqh w)))).
  intros sess op w st Hnd.
  destruct (worker_cursor_cache sess op w st) as [->|(c & Hf & -> & _)];
    [exact Hnd|].
  simpl. constructor; [|exact Hnd].
  apply foreach_None_sig. exact Hf.
Qed.



End CacheLife.

Lemma cache_has_one_entry_per_hash_pair_witness :
  exists th', sys_threads sys_pair_done !! 0%nat = Some th' /\
              List.NoDup (map ac_sig (cursorqh (th_worker th'))).
Proof.
  apply (cache_has_one_entry_per_hash_pair toy_ok sys_pair sys_pair_done 0
           (mkThread 1 AT_LOOP worker0)).
  - apply (run_workers_rtc toy_ok [0%nat; 1%nat; 0%nat]). vm_compute. reflexivity.
  - reflexivity.
  - constructor.
Defined.



(** ** Traces of the handler and of the cleanup *)

Section Traces.

Context (wt : wt_internal).

Lemma inner_handler_event e : inner e = true -> handler_event e = true.
Proof. destruct e; simpl; congruence. Qed.

(** Every call of the handler is a transaction, cursor, allocation or
    callback call. *)
Lemma worker_op_events s op w st :
  exists d, st_trace (snd (__async_worker_op wt s op w st)) = st_trace st ++ d /\
            Forall (fun e => handler_event e = true) d.
Proof.
  rewrite (worker_op_unfold wt s op w st).
  pose proof (txn_begin_trace wt s st) as Hb.
  destruct (txn_begin wt s st) as [r0 st1]. simpl in Hb.
  destruct (negb (r0 =? 0)).
  { eexists. split; [exact Hb|]. repeat constructor. }
  pose proof (worker_cursor_effects wt s op w st1) as Hc.
  destruct (__async_worker_cursor wt s op w st1) as [[[r1 w1] c] st2].
  destruct Hc as ((d2 & Hd2 & Hn2) & _ & _).
  assert (Hh2 : Forall (fun e => handler_event e = true) d2).
  { eapply Forall_impl; [exact Hn2|]. apply inner_handler_event. }
  destruct (negb (r1 =? 0)).
  { exists ([EvTxnBegin s r0] ++ d2). simpl snd.
    rewrite Hd2, Hb, <- app_assoc. split; [reflexivity|].
    constructor; [reflexivity|exact Hh2]. }
  pose proof (execop_inner wt s op c st2) as (d3 & Hd3 & Hn3).
  destruct (__async_worker_execop wt s op c st2) as [[status op1] st3].
  simpl in Hd3.
  pose proof (run_callback_inner wt op1 status st3) as (d4 & Hd4 & Hn4).
  destruct (run_callback wt op1 status st3) as [cb_ret st4].
  simpl in Hd4.
  assert (Hres : exists t ev e5,
             ((if commit_test wt status cb_ret
               then txn_commit wt s else txn_rollback wt s) st4) =
             (t, mkST e5 (st_trace st4 ++ [ev])) /\ handler_event ev = true).
  { destruct (commit_test wt status cb_ret); run.
    - destruct (__wt_txn_commit wt s _) as [t e]. eexists _, _, _. split; reflexivity.
    - destruct (__wt_txn_rollback wt s _) as [t e]. eexists _, _, _. split; reflexivity. }
  destruct Hres as (t & ev & e5 & -> & Hev).
  unfold c_reset, call. simpl.
  destruct (cursor_reset wt c e5) as [rr e6]. simpl.
  exists ([EvTxnBegin s r0] ++ d2 ++ d3 ++ d4 ++ [ev; EvReset c rr]).
  split.
  { rewrite Hd4, Hd3, Hd2, Hb, <- !app_assoc. reflexivity. }
  constructor; [reflexivity|].
  apply Forall_app. split; [exact Hh2|].
  apply Forall_app. split.
  { eapply Forall_impl; [exact Hn3|]. apply inner_handler_event. }
  apply Forall_app. split.
  { eapply Forall_impl; [exact Hn4|]. apply inner_handler_event. }
  repeat constructor. exact Hev.
Qed.

Lemma lock_scan_app h d1 d2 :
  lock_scan h (d1 ++ d2) =
  match lock_scan h d1 with
  | Some h' => lock_scan h' d2
  | None => None
  end.
Proof.
  revert h. induction d1 as [|e d1 IH]; intros h; simpl; [reflexivity|].
  destruct e; destruct h; simpl; auto.
Qed.

Lemma lock_scan_handler d :
  Forall (fun e => handler_event e = true) d -> lock_scan false d = Some false.
Proof.
  induction 1 as [|e d He _ IH]; simpl; [reflexivity|].
  destruct e; simpl in He; try discriminate He; exact IH.
Qed.

Lemma closed_cursors_handler d :
  Forall (fun e => handler_event e = true) d -> closed_cursors d = [].
Proof.
  induction 1 as [|e d He _ IH]; simpl; [reflexivity|].
  destruct e; simpl in He; try discriminate He; exact IH.
Qed.

Lemma handled_handler d :
  Forall (fun e => handler_event e = true) d -> handled d = [].
Proof.
  induction 1 as [|e d He _ IH]; simpl; [reflexivity|].
  destruct e; simpl in He; try discriminate He; exact IH.
Qed.

Lemma closed_cursors_app d1 d2 :
  closed_cursors (d1 ++ d2) = closed_cursors d1 ++ closed_cursors d2.
Proof. unfold closed_cursors. apply flat_map_app. Qed.

Lemma handled_app d1 d2 : handled (d1 ++ d2) = handled d1 ++ handled d2.
Proof. unfold handled. apply flat_map_app. Qed.

Lemma count_frees_app d1 d2 :
  count_frees (d1 ++ d2) = (count_frees d1 + count_frees d2)%nat.
Proof. unfold count_frees. rewrite List.filter_app, length_app. reflexivity. Qed.

(** The cleanup closes the cached cursors one by one, from the head of
    the cache, and frees each entry, whatever the closes return. *)
Lemma cleanup_trace th (st : ST wt) :
  exists d, st_trace (cleanup th st) = st_trace st ++ d /\
            closed_cursors d = map ac_c (cursorqh (th_worker th)) /\
            count_frees d = length (cursorqh (th_worker th)) /\
            handled d = [] /\
            lock_scan false d = Some false.
Proof.
  unfold cleanup. generalize (cursorqh (th_worker th)) as q. intros q.
  revert st. induction q as [|ac q IH]; intros st; simpl.
  - exists []. rewrite app_nil_r. repeat split.
  - run. destruct (cursor_close wt (ac_c ac) (st_eng st)) as [r e]. simpl.
    destruct (IH (mkST e ((st_trace st ++ [EvClose (ac_c ac) r])
                          ++ [EvFree (th_session th)])))
      as (d & Hd & Hc & Hf & Hh & Hl).
    exists (EvClose (ac_c ac) r :: EvFree (th_session th) :: d).
    rewrite Hd. simpl. rewrite <- !app_assoc. simpl.
    split; [reflexivity|]. unfold count_frees in *. simpl.
    rewrite Hc, Hf, Hh, Hl. repeat split.
Qed.

End Traces.

(** ** What a step leaves in the trace *)

Section StepTrace.

Context (wt : wt_internal).

Lemma dequeue_entry_facts conn th (st : ST wt) e d :
  dequeue_entry conn th st e d ->
  lock_scan false d = Some true /\ handled d = [] /\ closed_cursors d = [] /\
  (th_pc th = AT_LOOP /\
   FLD_ISSET (conn_flags conn) (WT_CONN_SERVER_RUN wt) = true /\
   flushing (async conn) = false \/
   th_pc th = AT_SIGNAL \/
   th_pc th = AT_FLUSH_WAIT FROM_OBSERVE /\ flushing (async conn) = false).
Proof.
  intros [Hpc Hrun Hfl|e' Hpc Hs|e' Hpc Hfl Hw]; repeat split; auto.
Qed.

Lemma err_entry_facts conn th (st : ST wt) e d r locked :
  err_entry conn th st e d r locked ->
  lock_scan false d = Some locked /\ handled d = [] /\ closed_cursors d = [] /\
  (th_pc th = AT_SIGNAL \/ exists k, th_pc th = AT_FLUSH_WAIT k).
Proof.
  intros [r' e' Hpc Hs Hr|k r' e' Hpc Hw Hr Ht|k r' e' Hpc Hfl Hw Hr Ht];
    repeat split; eauto.
Qed.

(** The events of a step of a thread: whether it ends in the return of
    the thread, the cursors it closes, the frees of the cleanup, the ops
    it hands to the handler and the state of the lock. *)
Lemma thread_step_trace conn ops th (st : ST wt) conn' ops' th' st' :
  thread_outcome conn ops th st conn' ops' th' st' ->
  exists d,
    st_trace st' = st_trace st ++ d /\
    lock_scan false d = Some false /\
    handled d = held_op (flush_op (async conn)) th /\
    (th_pc th' = EXITED /\
     closed_cursors d = map ac_c (cursorqh (th_worker th)) /\
     (count_frees d = length (cursorqh (th_worker th))) \/
     th_pc th' <> EXITED /\ closed_cursors d = []).
Proof.
  intros H. destruct H as
    [Hpc Hrun
    |e d r locked He
    |Hpc Hrun Hfl Hn
    |Hpc Hrun Hfl Hn
    |k r e Hpc Hfl Hw Hr
    |a e Hpc Hfl Hw
    |e d He Hq
    |e d a rest op He Hq Hop Ha
    |e d rest op He Hq Hop
    |a Hpc Ha
    |a op r op' w' st1 Hpc Ha Hop Hh].
  - destruct (cleanup_trace wt th st) as (d & Hd & Hc & Hf & Hh & Hl).
    exists d. unfold held_op. rewrite Hpc. repeat split; auto.
  - destruct (err_entry_facts _ _ _ _ _ _ _ He) as (Hl0 & Hh0 & Hc0 & Hpc).
    set (st1 := mkST e (st_trace st ++ d ++ EvErr (th_session th) r ::
                        (if locked then [EvUnlock (th_session th)] else []))).
    destruct (cleanup_trace wt th st1) as (d1 & Hd & Hc & Hf & Hh & Hl).
    exists ((d ++ EvErr (th_session th) r ::
             (if locked then [EvUnlock (th_session th)] else [])) ++ d1).
    split; [rewrite Hd; subst st1; simpl; rewrite <- !app_assoc; reflexivity|].
    assert (Hheld : held_op (flush_op (async conn)) th = []).
    { unfold held_op. destruct Hpc as [->|[k ->]]; reflexivity. }
    rewrite Hheld.
    split; [|split; [|left; split; [reflexivity|split]]].
    + rewrite !lock_scan_app, Hl0. simpl.
      destruct locked; simpl; exact Hl.
    + rewrite !handled_app, Hh0, Hh. destruct locked; reflexivity.
    + rewrite !closed_cursors_app, Hc0, Hc. destruct locked; reflexivity.
    + rewrite !count_frees_app, Hf.
      assert (Hz : count_frees d = 0%nat).
      { destruct He; reflexivity. }
      rewrite Hz. destruct locked; reflexivity.
  - eexists. split; [reflexivity|]. unfold held_op. rewrite Hpc.
    repeat split. right. split; [discriminate|reflexivity].
  - eexists. split; [reflexivity|]. unfold held_op. rewrite Hpc.
    repeat split. right. split; [discriminate|reflexivity].
  - eexists. split; [reflexivity|]. unfold held_op. rewrite Hpc.
    repeat split. right. split; [discriminate|reflexivity].
  - eexists. split; [reflexivity|]. unfold held_op. rewrite Hpc.
    repeat split. right. split; [discriminate|reflexivity].
  - destruct (dequeue_entry_facts _ _ _ _ _ He) as (Hl0 & Hh0 & Hc0 & Hpc).
    eexists. split; [reflexivity|].
    assert (Hheld : held_op (flush_op (async conn)) th = []).
    { unfold held_op. destruct Hpc as [(-> & _)|[->|(-> & _)]]; reflexivity. }
    rewrite Hheld, lock_scan_app, handled_app, closed_cursors_app, Hl0, Hh0, Hc0.
    repeat split. right. split; [discriminate|reflexivity].
  - destruct (dequeue_entry_facts _ _ _ _ _ He) as (Hl0 & Hh0 & Hc0 & Hpc).
    eexists. split; [reflexivity|].
    assert (Hheld : held_op (flush_op (async conn)) th = []).
    { unfold held_op. destruct Hpc as [(-> & _)|[->|(-> & _)]]; reflexivity. }
    rewrite Hheld, lock_scan_app, handled_app, closed_cursors_app, Hl0, Hh0, Hc0.
    repeat split. right. split; [discriminate|reflexivity].
  - destruct (dequeue_entry_facts _ _ _ _ _ He) as (Hl0 & Hh0 & Hc0 & Hpc).
    eexists. split; [reflexivity|].
    assert (Hheld : held_op (flush_op (async conn)) th = []).
    { unfold held_op. destruct Hpc as [(-> & _)|[->|(-> & _)]]; reflexivity. }
    rewrite Hheld, lock_scan_app, handled_app, closed_cursors_app, Hl0, Hh0, Hc0.
    repeat split. right. split; [discriminate|reflexivity].
  - eexists. split; [reflexivity|]. unfold held_op. rewrite Hpc.
    destruct (Z.eqb_spec a (flush_op (async conn))); [|contradiction].
    repeat split. right. split; [discriminate|reflexivity].
  - pose proof (worker_op_events wt (th_session th) op (th_worker th)
                  (mkST (st_eng st) (st_trace st ++ [EvWorkerOp (th_session th) a])))
      as (d & Hd & Hev).
    rewrite Hh in Hd. simpl in Hd.
    exists ([EvWorkerOp (th_session th) a] ++ d ++ [EvYield (th_session th)]).
    split; [simpl st_trace; rewrite Hd, <- !app_assoc; reflexivity|].
    unfold held_op. rewrite Hpc.
    destruct (Z.eqb_spec a (flush_op (async conn))); [contradiction|].
    split; [|split; [|right; split; [discriminate|]]].
    + simpl. rewrite lock_scan_app, (lock_scan_handler d Hev). reflexivity.
    + simpl. rewrite handled_app, (handled_handler d Hev). reflexivity.
    + simpl. rewrite closed_cursors_app, (closed_cursors_handler d Hev).
      reflexivity.
Qed.

End StepTrace.

(** ** Runs of the pool *)

Section PoolRuns.

Context (wt : wt_internal).

(** A step of thread [i] of the pool ends in one of the outcomes. *)
Lemma worker_step_outcome i (s s' : System wt) :
  worker_step wt i s = Some s' ->
  exists th conn' ops' th' st',
    sys_threads s !! i = Some th /\
    thread_outcome (sys_conn s) (sys_ops s) th (sys_st s) conn' ops' th' st' /\
    s' = mkSys conn' ops' (<[i := th']> (sys_threads s)) st'.
Proof.
  intros H. apply worker_step_inv in H.
  destruct H as (th & conn' & ops' & th' & st' & Hth & H & ->).
  exists th, conn', ops', th', st'. split; [exact Hth|].
  split; [|reflexivity]. apply thread_step_outcome. exact H.
Qed.

Lemma split_at_thread {A} (f : Thread -> list A) ths i th th' :
  ths !! i = Some th ->
  exists l1 l2,
    flat_map f ths = l1 ++ f th ++ l2 /\
    flat_map f (<[i := th']> ths) = l1 ++ f th' ++ l2.
Proof.
  intros Hth.
  exists (flat_map f (take i ths)), (flat_map f (drop (S i) ths)).
  split.
  - rewrite <- (take_drop_middle ths i th Hth) at 1.
    rewrite flat_map_app. reflexivity.
  - rewrite insert_take_drop by (eapply lookup_lt_Some; exact Hth).
    rewrite flat_map_app. reflexivity.
Qed.

(** What a step does to the connection: at most the head of the queue is
    taken, and then the counter goes down by one; the op the thread holds
    afterwards is the one it took, the sentinel apart. *)
Lemma thread_step_queue conn ops th (st : ST wt) conn' ops' th' st' :
  thread_outcome conn ops th st conn' ops' th' st' ->
  flush_op (async conn') = flush_op (async conn) /\
  conn_flags conn' = conn_flags conn /\
  async_workers conn' = async_workers conn /\
  exists taken,
    opqh (async conn) = taken ++ opqh (async conn') /\
    (length taken <= 1)%nat /\
    cur_queue (async conn') =
      match taken with
      | [] => cur_queue (async conn)
      | _ => u32 (cur_queue (async conn) - 1)
      end /\
    (arm_ok (flush_op (async conn)) th ->
     held_op (flush_op (async conn)) th' = real_ops (flush_op (async conn)) taken /\
     arm_ok (flush_op (async conn)) th').
Proof.
  intros H.
  destruct H as
    [Hpc Hrun
    |e d r locked He
    |Hpc Hrun Hfl Hn
    |Hpc Hrun Hfl Hn
    |k r e Hpc Hfl Hw Hr
    |a e Hpc Hfl Hw
    |e d He Hq
    |e d a rest op He Hq Hop Ha
    |e d rest op He Hq Hop
    |a Hpc Ha
    |a op r op' w' st1 Hpc Ha Hop Hh];
    (split; [reflexivity|]); (split; [reflexivity|]); (split; [reflexivity|]).
  - exists []. repeat split; [simpl; lia|]. intros a [=].
  - exists []. repeat split; [simpl; lia|]. intros a [=].
  - exists []. repeat split; [simpl; lia|]. intros a [=].
  - exists []. repeat split; [simpl; lia|]. intros a [=].
  - exists []. split; [reflexivity|]. split; [simpl; lia|].
    split; [reflexivity|]. intros Harm.
    split; [|exact Harm]. unfold held_op. rewrite Hpc. reflexivity.
  - exists []. split; [reflexivity|]. split; [simpl; lia|].
    split; [reflexivity|]. intros Harm.
    split; [|intros b [=]]. rewrite (Harm a Hpc). unfold held_op. simpl.
    rewrite Z.eqb_refl. reflexivity.
  - exists []. repeat split; [simpl; lia|]. intros a [=].
  - exists [a]. split; [exact Hq|]. split; [simpl; lia|].
    split; [reflexivity|]. intros _.
    split; [|intros b [=]]. unfold held_op, real_ops. simpl.
    destruct (Z.eqb_spec a (flush_op (async conn))); [contradiction|reflexivity].
  - exists [flush_op (async conn)]. split; [exact Hq|]. split; [simpl; lia|].
    split; [reflexivity|]. intros _. split; [|intros b [= <-]; reflexivity].
    unfold held_op, real_ops. simpl. rewrite Z.eqb_refl. reflexivity.
  - exists []. repeat split; [simpl; lia|]. intros b [=].
  - exists []. repeat split; [simpl; lia|]. intros b [=].
Qed.

Lemma perm_shuffle {A} (l1 h l2 r : list A) :
  Permutation ((l1 ++ h ++ l2) ++ r) (h ++ l1 ++ r ++ l2).
Proof.
  rewrite <- !app_assoc. rewrite (Permutation_app_comm l2 r).
  apply Permutation_app_swap_app.
Qed.

Lemma real_ops_app fl q1 q2 :
  real_ops fl (q1 ++ q2) = real_ops fl q1 ++ real_ops fl q2.
Proof. unfold real_ops. apply List.filter_app. Qed.

Lemma u32_pred_length (a : OPADDR) rest c :
  c = u32 (Z.of_nat (length (a :: rest))) ->
  u32 (c - 1) = u32 (Z.of_nat (length rest)).
Proof.
  intros ->. unfold u32. rewrite Zminus_mod_idemp_l. f_equal.
  simpl length. lia.
Qed.

(** A step of the pool, seen from the connection and the trace. *)
Lemma step_effects (s s' : System wt) :
  step wt s s' ->
  flush_op (sys_async s') = flush_op (sys_async s) /\
  async_workers (sys_conn s') = async_workers (sys_conn s) /\
  (queue_counted (sys_async s) -> queue_counted (sys_async s')) /\
  exists taken d,
    opqh (sys_async s) = taken ++ opqh (sys_async s') /\
    st_trace (sys_st s') = st_trace (sys_st s) ++ d /\
    lock_scan false d = Some false /\
    (Forall (arm_ok (flush_op (sys_async s))) (sys_threads s) ->
     Forall (arm_ok (flush_op (sys_async s))) (sys_threads s') /\
     Permutation
       (pool_held (flush_op (sys_async s)) (sys_threads s) ++
        real_ops (flush_op (sys_async s)) taken)
       (handled d ++ pool_held (flush_op (sys_async s)) (sys_threads s')) /\
     forall th, sys_threads s = [th] ->
       exists th', sys_threads s' = [th'] /\
         held_op (flush_op (sys_async s)) th ++
           real_ops (flush_op (sys_async s)) taken =
         handled d ++ held_op (flush_op (sys_async s)) th').
Proof.
  intros [i s1 s2 H|s1].
  - apply worker_step_outcome in H.
    destruct H as (th & conn' & ops' & th' & st' & Hth & H & ->).
    destruct (thread_step_queue _ _ _ _ _ _ _ _ H)
      as (Hfl & _ & Hw & taken & Hq & Hlen & Hc & Hheld).
    destruct (thread_step_trace wt _ _ _ _ _ _ _ _ H)
      as (d & Hd & Hl & Hh & _).
    unfold sys_async. cbn [sys_conn sys_threads sys_st].
    split; [exact Hfl|]. split; [exact Hw|]. split.
    { unfold queue_counted. intros Hqc. rewrite Hc.
      destruct taken as [|a taken]; simpl in Hq.
      - rewrite <- Hq. exact Hqc.
      - destruct taken as [|b taken].
        + apply (u32_pred_length a). rewrite Hqc, Hq. reflexivity.
        + simpl in Hlen. lia. }
    exists taken, d. split; [exact Hq|]. split; [exact Hd|].
    split; [exact Hl|]. intros Harm.
    assert (Hth_arm : arm_ok (flush_op (async (sys_conn s1))) th).
    { eapply Forall_lookup_1; eauto. }
    destruct (Hheld Hth_arm) as [Hheld' Harm'].
    split; [apply Forall_insert; assumption|]. split.
    + destruct (split_at_thread (held_op (flush_op (async (sys_conn s1))))
                  (sys_threads s1) i th th' Hth) as (l1 & l2 & E1 & E2).
      unfold pool_held. rewrite E1, E2, Hh, Hheld'. apply perm_shuffle.
    + intros th0 Hone. rewrite Hone in Hth.
      destruct i as [|i]; [|destruct i; discriminate Hth].
      injection Hth as ->. exists th'. rewrite Hone. split; [reflexivity|].
      rewrite Hh, Hheld'. reflexivity.
  - unfold sys_async. simpl. split; [reflexivity|]. split; [reflexivity|].
    split; [auto|]. exists [], []. rewrite app_nil_r.
    split; [reflexivity|]. split; [reflexivity|]. split; [reflexivity|].
    intros Harm. split; [exact Harm|]. split.
    + simpl. unfold real_ops. simpl. rewrite app_nil_r. reflexivity.
    + intros th Hone. exists th. split; [exact Hone|].
      unfold real_ops. simpl. rewrite app_nil_r. reflexivity.
Qed.

Lemma rtc_effects (s s' : System wt) :
  rtc (step wt) s s' ->
  flush_op (sys_async s') = flush_op (sys_async s) /\
  async_workers (sys_conn s') = async_workers (sys_conn s) /\
  (queue_counted (sys_async s) -> queue_counted (sys_async s')) /\
  exists taken d,
    opqh (sys_async s) = taken ++ opqh (sys_async s') /\
    st_trace (sys_st s') = st_trace (sys_st s) ++ d /\
    lock_scan false d = Some false /\
    (Forall (arm_ok (flush_op (sys_async s))) (sys_threads s) ->
     Forall (arm_ok (flush_op (sys_async s))) (sys_threads s') /\
     Permutation
       (pool_held (flush_op (sys_async s)) (sys_threads s) ++
        real_ops (flush_op (sys_async s)) taken)
       (handled d ++ pool_held (flush_op (sys_async s)) (sys_threads s')) /\
     forall th, sys_threads s = [th] ->
       exists th', sys_threads s' = [th'] /\
         held_op (flush_op (sys_async s)) th ++
           real_ops (flush_op (sys_async s)) taken =
         handled d ++ held_op (flush_op (sys_async s)) th').
Proof.
  induction 1 as [s|s1 s2 s3 H12 _ IH].
  - split; [reflexivity|]. split; [reflexivity|]. split; [auto|].
    exists [], []. rewrite app_nil_r.
    split; [reflexivity|]. split; [reflexivity|]. split; [reflexivity|].
    intros Harm. split; [exact Harm|]. split.
    + unfold real_ops. simpl. rewrite app_nil_r. reflexivity.
    + intros th Hone. exists th. split; [exact Hone|].
      unfold real_ops. simpl. rewrite app_nil_r. reflexivity.
  - destruct (step_effects s1 s2 H12)
      as (Hfl & Hw & Hqc & t1 & d1 & Hq1 & Hd1 & Hl1 & Hp1).
    destruct IH as (Hfl2 & Hw2 & Hqc2 & t2 & d2 & Hq2 & Hd2 & Hl2 & Hp2).
    rewrite Hfl in Hfl2, Hp2. rewrite Hw in Hw2.
    split; [exact Hfl2|]. split; [exact Hw2|]. split; [auto|].
    exists (t1 ++ t2), (d1 ++ d2).
    split; [rewrite Hq1, Hq2, app_assoc; reflexivity|].
    split; [rewrite Hd2, Hd1, app_assoc; reflexivity|].
    split; [rewrite lock_scan_app, Hl1; exact Hl2|].
    intros Harm.
    destruct (Hp1 Harm) as (Harm2 & Hperm1 & Hone1).
    destruct (Hp2 Harm2) as (Harm3 & Hperm2 & Hone2).
    split; [exact Harm3|]. split.
    + rewrite real_ops_app, handled_app, app_assoc, Hperm1.
      rewrite <- !app_assoc. apply Permutation_app_head. exact Hperm2.
    + intros th Hone. destruct (Hone1 th Hone) as (th2 & Hone' & E1).
      destruct (Hone2 th2 Hone') as (th3 & Hone'' & E2).
      exists th3. split; [exact Hone''|].
      rewrite real_ops_app, handled_app, app_assoc, E1.
      rewrite <- !app_assoc. f_equal. exact E2.
Qed.

End PoolRuns.

(** ** What a step does to the ops, the flush word and the queue *)

Section StepCases.

Context (wt : wt_internal).

(** The ops store after a step: one entry is written at most, the op the
    thread held or the op it took off the queue. *)
Lemma thread_step_ops conn ops th (st : ST wt) conn' ops' th' st' b :
  thread_outcome conn ops th st conn' ops' th' st' ->
  ops' !! b <> ops !! b ->
  (th_pc th = AT_OP b /\ b <> flush_op (async conn)) \/
  (exists op,
     opqh (async conn) = b :: opqh (async conn') /\
     ops !! b = Some op /\
     ops' !! b = Some (set_op_state WT_ASYNCOP_WORKING op)).
Proof.
  intros H Hne.
  destruct H as
    [Hpc Hrun
    |e d r locked He
    |Hpc Hrun Hfl Hn
    |Hpc Hrun Hfl Hn
    |k r e Hpc Hfl Hw Hr
    |a e Hpc Hfl Hw
    |e d He Hq
    |e d a rest op He Hq Hop Ha
    |e d rest op He Hq Hop
    |a Hpc Ha
    |a op r op' w' st1 Hpc Ha Hop Hh];
    try (contradiction Hne; reflexivity).
  - destruct (decide (b = a)) as [->|Hb].
    + right. exists op. split; [exact Hq|]. split; [exact Hop|].
      apply lookup_insert_eq.
    + contradiction Hne. apply lookup_insert_ne. congruence.
  - destruct (decide (b = flush_op (async conn))) as [->|Hb].
    + right. exists op. split; [exact Hq|]. split; [exact Hop|].
      apply lookup_insert_eq.
    + contradiction Hne. apply lookup_insert_ne. congruence.
  - destruct (decide (b = a)) as [->|Hb].
    + left. split; assumption.
    + contradiction Hne. apply lookup_insert_ne. congruence.
Qed.

(** The flush word after a step: unchanged, or FLUSHING set by the worker
    that takes the sentinel, or COMPLETE set and FLUSHING cleared by the
    worker that makes the count equal to the number of workers. *)
Lemma thread_step_flush_word conn ops th (st : ST wt) conn' ops' th' st' :
  thread_outcome conn ops th st conn' ops' th' st' ->
  (opsq_flush (async conn') = opsq_flush (async conn) /\
   th_pc th' <> AT_SIGNAL) \/
  (opsq_flush (async conn') =
     FLD_SET (opsq_flush (async conn)) WT_ASYNC_FLUSHING /\
   opqh (async conn) = flush_op (async conn) :: opqh (async conn') /\
   th_pc th' <> AT_SIGNAL) \/
  (opsq_flush (async conn') =
     FLD_CLR (FLD_SET (opsq_flush (async conn)) WT_ASYNC_FLUSH_COMPLETE)
       WT_ASYNC_FLUSHING /\
   flushing (async conn) = true /\
   FLD_ISSET (conn_flags conn) (WT_CONN_SERVER_RUN wt) = true /\
   th_pc th = AT_LOOP /\ th_pc th' = AT_SIGNAL /\
   flush_count (async conn') = async_workers conn /\
   opqh (async conn') = opqh (async conn)).
Proof.
  intros H.
  destruct H as
    [Hpc Hrun
    |e d r locked He
    |Hpc Hrun Hfl Hn
    |Hpc Hrun Hfl Hn
    |k r e Hpc Hfl Hw Hr
    |a e Hpc Hfl Hw
    |e d He Hq
    |e d a rest op He Hq Hop Ha
    |e d rest op He Hq Hop
    |a Hpc Ha
    |a op r op' w' st1 Hpc Ha Hop Hh];
    try (left; split; [reflexivity|simpl; discriminate]).
  - right. right. simpl. repeat split; assumption.
  - left. split; [reflexivity|]. rewrite Hpc. discriminate.
  - right. left. simpl. split; [reflexivity|]. split; [exact Hq|discriminate].
Qed.

(** A step that takes an entry off the queue is the step of a thread that
    found FLUSHING clear under the lock, or that has just signalled. *)
Lemma thread_step_dequeue conn ops th (st : ST wt) conn' ops' th' st' :
  thread_outcome conn ops th st conn' ops' th' st' ->
  opqh (async conn') = opqh (async conn) /\
  (past_loop_test th' = true -> th' = th \/
     FLD_ISSET (conn_flags conn) (WT_CONN_SERVER_RUN wt) = true) \/
  (exists a, opqh (async conn) = a :: opqh (async conn')) /\
  past_loop_test th' = false /\
  (th_pc th = AT_LOOP /\
   FLD_ISSET (conn_flags conn) (WT_CONN_SERVER_RUN wt) = true /\
   flushing (async conn) = false \/
   th_pc th = AT_SIGNAL \/
   th_pc th = AT_FLUSH_WAIT FROM_OBSERVE /\ flushing (async conn) = false).
Proof.
  intros H.
  destruct H as
    [Hpc Hrun
    |e d r locked He
    |Hpc Hrun Hfl Hn
    |Hpc Hrun Hfl Hn
    |k r e Hpc Hfl Hw Hr
    |a e Hpc Hfl Hw
    |e d He Hq
    |e d a rest op He Hq Hop Ha
    |e d rest op He Hq Hop
    |a Hpc Ha
    |a op r op' w' st1 Hpc Ha Hop Hh];
    try (left; split; [reflexivity|]; intros Hp; auto; discriminate Hp).
  - right. destruct (dequeue_entry_facts wt _ _ _ _ _ He) as (_ & _ & _ & Hpc).
    split; [exists a; exact Hq|]. split; [reflexivity|exact Hpc].
  - right. destruct (dequeue_entry_facts wt _ _ _ _ _ He) as (_ & _ & _ & Hpc).
    split; [eexists; exact Hq|]. split; [reflexivity|exact Hpc].
Qed.

End StepCases.

(** ** The life of a worker and of the pool *)

Section PoolLife.

Context (wt : wt_internal).

(** X8: a worker closes its cached cursors when it returns and at no
    other time: the step in which a thread returns closes the cursors of
    its cache, each once and in the order of the cache, and frees as many
    entries; a step after which the thread has not returned closes no
    cursor. *)
Theorem cursors_closed_at_return i (s s' : System wt) th :
  sys_threads s !! i = Some th ->
  worker_step wt i s = Some s' ->
  exists th' d,
    sys_threads s' !! i = Some th' /\
    st_trace (sys_st s') = st_trace (sys_st s) ++ d /\
    (th_pc th' = EXITED ->
     closed_cursors d = map ac_c (cursorqh (th_worker th)) /\
     count_frees d = length (cursorqh (th_worker th))) /\
    (th_pc th' <> EXITED -> closed_cursors d = []).
Proof.
  intros Hth H. apply worker_step_outcome in H.
  destruct H as (th0 & conn' & ops' & th' & st' & Hth0 & H & ->).
  rewrite Hth in Hth0. injection Hth0 as <-.
  destruct (thread_step_trace wt _ _ _ _ _ _ _ _ H) as (d & Hd & _ & _ & Hc).
  exists th', d. cbn [sys_threads sys_st].
  split; [apply list_lookup_insert_eq; eapply lookup_lt_Some; exact Hth|].
  split; [exact Hd|].
  destruct Hc as [(Hpc & Hc & Hf)|(Hpc & Hc)]; split; intros Hpc';
    try contradiction; auto.
Qed.

(** X9: in every run of the pool the lock is taken only when it is free
    and released only when it is held, no call other than the error report
    is made while it is held, and it is free after every step. *)
Theorem lock_never_held_across_calls (s s' : System wt) :
  rtc (step wt) s s' ->
  exists d,
    st_trace (sys_st s') = st_trace (sys_st s) ++ d /\
    lock_scan false d = Some false.
Proof.
  intros H. destruct (rtc_effects wt s s' H)
    as (_ & _ & _ & taken & d & _ & Hd & Hl & _).
  exists d. split; assumption.
Qed.

(** X10: the workers take entries off the head of the queue only: after
    any run the queue is a suffix of what it was.  And where [cur_queue]
    was the length of the queue (as a [uint32_t]), it still is. *)
Theorem queue_consumed_from_head (s s' : System wt) :
  rtc (step wt) s s' ->
  (exists taken, opqh (sys_async s) = taken ++ opqh (sys_async s')) /\
  (queue_counted (sys_async s) -> queue_counted (sys_async s')).
Proof.
  intros H. destruct (rtc_effects wt s s' H)
    as (_ & _ & Hqc & taken & d & Hq & _).
  split; [exists taken; exact Hq|exact Hqc].
Qed.

(** X11: every op is handled once.  Over any run of a pool in which the
    threads in the flush wait of line 264 hold the sentinel, the ops held
    by the threads at the start together with the entries taken off the
    queue, the sentinel left out, are the ops handed to the handler
    together with the ops held at the end, each as many times. *)
Theorem ops_handled_exactly_once (s s' : System wt) :
  Forall (arm_ok (flush_op (sys_async s))) (sys_threads s) ->
  rtc (step wt) s s' ->
  exists taken d,
    opqh (sys_async s) = taken ++ opqh (sys_async s') /\
    st_trace (sys_st s') = st_trace (sys_st s) ++ d /\
    Permutation
      (pool_held (flush_op (sys_async s)) (sys_threads s) ++
       real_ops (flush_op (sys_async s)) taken)
      (handled d ++ pool_held (flush_op (sys_async s)) (sys_threads s')).
Proof.
  intros Harm H. destruct (rtc_effects wt s s' H)
    as (_ & _ & _ & taken & d & Hq & Hd & _ & Hp).
  destruct (Hp Harm) as (_ & Hperm & _).
  exists taken, d. repeat split; assumption.
Qed.

(** X12: a single worker handles the ops in the order of the queue: the
    op it held at the start followed by the entries it took, the sentinel
    left out, is the sequence of the ops it handed to the handler followed
    by the op it holds at the end. *)
Theorem single_worker_fifo (s s' : System wt) th :
  sys_threads s = [th] ->
  arm_ok (flush_op (sys_async s)) th ->
  rtc (step wt) s s' ->
  exists taken d th',
    opqh (sys_async s) = taken ++ opqh (sys_async s') /\
    st_trace (sys_st s') = st_trace (sys_st s) ++ d /\
    sys_threads s' = [th'] /\
    held_op (flush_op (sys_async s)) th ++
      real_ops (flush_op (sys_async s)) taken =
    handled d ++ held_op (flush_op (sys_async s)) th'.
Proof.
  intros Hone Harm H. destruct (rtc_effects wt s s' H)
    as (_ & _ & _ & taken & d & Hq & Hd & _ & Hp).
  destruct Hp as (_ & _ & Hfifo).
  { rewrite Hone. constructor; [exact Harm|constructor]. }
  destruct (Hfifo th Hone) as (th' & Hone' & E).
  exists taken, d, th'. repeat split; assumption.
Qed.

(** X13: a step of a worker writes at most one op: the op the thread
    holds, when it runs the handler on it, or the op at the head of the
    queue, which it takes and whose state alone it changes, to WORKING. *)
Theorem worker_writes_only_its_op i (s s' : System wt) th b :
  sys_threads s !! i = Some th ->
  worker_step wt i s = Some s' ->
  sys_ops s' !! b <> sys_ops s !! b ->
  (th_pc th = AT_OP b /\ b <> flush_op (sys_async s)) \/
  (exists op,
     opqh (sys_async s) = b :: opqh (sys_async s') /\
     sys_ops s !! b = Some op /\
     sys_ops s' !! b = Some (set_op_state WT_ASYNCOP_WORKING op)).
Proof.
  intros Hth H Hne. apply worker_step_outcome in H.
  destruct H as (th0 & conn' & ops' & th' & st' & Hth0 & H & ->).
  rewrite Hth in Hth0. injection Hth0 as <-.
  exact (thread_step_ops wt _ _ _ _ _ _ _ _ b H Hne).
Qed.

End PoolLife.

Lemma cursors_closed_at_return_witness :
  exists th' d,
    sys_threads sys_pair_gone !! 0%nat = Some th' /\
    st_trace (sys_st sys_pair_gone) = st_trace (sys_st sys_pair_back) ++ d /\
    (th_pc th' = EXITED ->
     closed_cursors d = map ac_c (cursorqh (mkWorker [mkAc 9 7 100] 1)) /\
     count_frees d = length (cursorqh (mkWorker [mkAc 9 7 100] 1))) /\
    (th_pc th' <> EXITED -> closed_cursors d = []).
Proof.
  apply (cursors_closed_at_return toy_ok 0 sys_pair_back sys_pair_gone
           (mkThread 1 AT_LOOP (mkWorker [mkAc 9 7 100] 1))).
  - vm_compute. reflexivity.
  - vm_compute. reflexivity.
Defined.

Lemma lock_never_held_across_calls_witness :
  exists d,
    st_trace (sys_st sys_pair_last) = st_trace (sys_st sys_pair) ++ d /\
    lock_scan false d = Some false.
Proof.
  apply (lock_never_held_across_calls toy_ok sys_pair sys_pair_last).
  apply (run_workers_rtc toy_ok [0%nat; 1%nat; 0%nat; 0%nat]).
  vm_compute. reflexivity.
Defined.

Lemma queue_consumed_from_head_witness :
  (exists taken,
     opqh (sys_async sys_pair) = taken ++ opqh (sys_async sys_pair_held)) /\
  (queue_counted (sys_async sys_pair) -> queue_counted (sys_async sys_pair_held)).
Proof.
  apply (queue_consumed_from_head toy_ok sys_pair sys_pair_held).
  apply (run_workers_rtc toy_ok [0%nat]). vm_compute. reflexivity.
Defined.

Lemma ops_handled_exactly_once_witness :
  exists taken d,
    opqh (sys_async sys_pair) = taken ++ opqh (sys_async sys_pair_last) /\
    st_trace (sys_st sys_pair_last) = st_trace (sys_st sys_pair) ++ d /\
    Permutation
      (pool_held (flush_op (sys_async sys_pair)) (sys_threads sys_pair) ++
       real_ops (flush_op (sys_async sys_pair)) taken)
      (handled d ++
       pool_held (flush_op (sys_async sys_pair)) (sys_threads sys_pair_last)).
Proof.
  apply (ops_handled_exactly_once toy_ok sys_pair sys_pair_last).
  - repeat constructor; intros a Ha; vm_compute in Ha; discriminate Ha.
  - apply (run_workers_rtc toy_ok [0%nat; 1%nat; 0%nat; 0%nat]).
    vm_compute. reflexivity.
Defined.

Lemma single_worker_fifo_witness :
  exists taken d th',
    opqh (sys_async sys_solo) = taken ++ opqh (sys_async sys_solo_done) /\
    st_trace (sys_st sys_solo_done) = st_trace (sys_st sys_solo) ++ d /\
    sys_threads sys_solo_done = [th'] /\
    held_op (flush_op (sys_async sys_solo)) (mkThread 1 AT_LOOP worker0) ++
      real_ops (flush_op (sys_async sys_solo)) taken =
    handled d ++ held_op (flush_op (sys_async sys_solo)) th'.
Proof.
  apply (single_worker_fifo toy_ok sys_solo sys_solo_done
           (mkThread 1 AT_LOOP worker0)).
  - reflexivity.
  - intros a Ha. vm_compute in Ha. discriminate Ha.
  - apply (run_workers_rtc toy_ok [0%nat; 0%nat; 0%nat; 0%nat]).
    vm_compute. reflexivity.
Defined.

Lemma worker_writes_only_its_op_witness :
  (th_pc (mkThread 1 AT_LOOP worker0) = AT_OP 2000 /\
   2000 <> flush_op (sys_async sys_pair)) \/
  (exists op,
     opqh (sys_async sys_pair) = 2000 :: opqh (sys_async sys_pair_held) /\
     sys_ops sys_pair !! 2000 = Some op /\
     sys_ops sys_pair_held !! 2000 = Some (set_op_state WT_ASYNCOP_WORKING op)).
Proof.
  apply (worker_writes_only_its_op toy_ok 0 sys_pair sys_pair_held
           (mkThread 1 AT_LOOP worker0) 2000).
  - reflexivity.
  - vm_compute. reflexivity.
  - vm_compute. discriminate.
Defined.

(** ** The flush word, the queue and the run flag *)

Section FlushLife.

Context (wt : wt_internal).

(** X14: what a step of a worker does to the flush word.  It changes no
    bit other than COMPLETE and FLUSHING, so it never touches IN_PROGRESS;
    it never clears COMPLETE; and FLUSHING is cleared, or COMPLETE set,
    only in the step of the worker that comes to the loop, finds FLUSHING
    set and makes the count equal to the number of workers: that step does
    both, and the worker goes on to signal. *)
Theorem flush_word_transitions i (s s' : System wt) :
  worker_step wt i s = Some s' ->
  (forall n, 0 <= n -> n <> 0 -> n <> 2 ->
     Z.testbit (opsq_flush (sys_async s')) n =
     Z.testbit (opsq_flush (sys_async s)) n) /\
  (flush_complete (sys_async s) = true -> flush_complete (sys_async s') = true) /\
  (flushing (sys_async s) = true /\ flushing (sys_async s') = false \/
   flush_complete (sys_async s) = false /\ flush_complete (sys_async s') = true ->
   flushing (sys_async s) = true /\ flushing (sys_async s') = false /\
   flush_complete (sys_async s') = true /\
   flush_count (sys_async s') = async_workers (sys_conn s) /\
   opqh (sys_async s') = opqh (sys_async s) /\
   exists th th',
     sys_threads s !! i = Some th /\ th_pc th = AT_LOOP /\
     sys_threads s' !! i = Some th' /\ th_pc th' = AT_SIGNAL).
Proof.
  intros H. apply worker_step_outcome in H.
  destruct H as (th & conn' & ops' & th' & st' & Hth & H & ->).
  unfold sys_async. cbn [sys_conn sys_threads].
  rewrite !flushing_bit, !flush_complete_bit.
  destruct (thread_step_flush_word wt _ _ _ _ _ _ _ _ H)
    as [(Hw & _)|[(Hw & _)|(Hw & Hfl & _ & Hpc & Hpc' & Hc & Hq)]]; rewrite Hw.
  - split; [reflexivity|]. split; [auto|].
    intros [(H1 & H2)|(H1 & H2)]; congruence.
  - split; [|split].
    + intros n Hn H0 H2. rewrite testbit_set_FLUSHING by lia.
      destruct (Z.eqb_spec 2 n); [lia|apply orb_false_r].
    + rewrite testbit_set_FLUSHING by lia. intros ->. reflexivity.
    + rewrite !testbit_set_FLUSHING by lia.
      destruct (Z.testbit (opsq_flush (async (sys_conn s))) 2),
               (Z.testbit (opsq_flush (async (sys_conn s))) 0);
        intros [[H1 H2]|[H1 H2]]; vm_compute in H1, H2; congruence.
  - rewrite flushing_bit in Hfl.
    rewrite !testbit_clr_FLUSHING, !testbit_set_COMPLETE by lia.
    split; [|split].
    + intros n Hn H0 H2.
      rewrite testbit_clr_FLUSHING, testbit_set_COMPLETE by lia.
      destruct (Z.eqb_spec 2 n); [lia|]. destruct (Z.eqb_spec 0 n); [lia|].
      destruct (Z.testbit (opsq_flush (async (sys_conn s))) n); reflexivity.
    + intros ->. reflexivity.
    + intros _.
      split; [exact Hfl|]. split; [rewrite Hfl; reflexivity|].
      split; [destruct (Z.testbit (opsq_flush (async (sys_conn s))) 0);
              reflexivity|].
      split; [exact Hc|]. split; [exact Hq|].
      exists th, th'. repeat split; try assumption.
      apply list_lookup_insert_eq. eapply lookup_lt_Some. exact Hth.
Qed.

End FlushLife.

Lemma flush_word_transitions_witness :
  (forall n, 0 <= n -> n <> 0 -> n <> 2 ->
     Z.testbit (opsq_flush (sys_async sys_pair_last)) n =
     Z.testbit (opsq_flush (sys_async sys_pair_done)) n) /\
  (flush_complete (sys_async sys_pair_done) = true ->
   flush_complete (sys_async sys_pair_last) = true) /\
  (flushing (sys_async sys_pair_done) = true /\
   flushing (sys_async sys_pair_last) = false \/
   flush_complete (sys_async sys_pair_done) = false /\
   flush_complete (sys_async sys_pair_last) = true ->
   flushing (sys_async sys_pair_done) = true /\
   flushing (sys_async sys_pair_last) = false /\
   flush_complete (sys_async sys_pair_last) = true /\
   flush_count (sys_async sys_pair_last) = async_workers (sys_conn sys_pair_done) /\
   opqh (sys_async sys_pair_last) = opqh (sys_async sys_pair_done) /\
   exists th th',
     sys_threads sys_pair_done !! 0%nat = Some th /\ th_pc th = AT_LOOP /\
     sys_threads sys_pair_last !! 0%nat = Some th' /\ th_pc th' = AT_SIGNAL).
Proof.
  apply (flush_word_transitions toy_ok 0 sys_pair_done sys_pair_last).
  vm_compute. reflexivity.
Defined.

(** ** A get-or-open call that fails *)

Section CursorFailure.

Context (wt : wt_internal).

(** X18: a get-or-open call that fails leaves nothing behind.  The cache
    and its count are as before and no cursor is returned; either the
    allocation failed and nothing else was called, or the allocation
    succeeded, [open_cursor] failed and the entry was freed. *)
Theorem worker_cursor_failure s op w (st : ST wt) r w' c st' :
  __async_worker_cursor wt s op w st = ((r, w', c), st') ->
  r <> 0 ->
  w' = w /\ c = NULL /\
  exists d, st_trace st' = st_trace st ++ d /\
    (d = [EvCalloc s r] \/
     exists c0,
       d = [EvCalloc s 0;
            EvOpenCursor s (uri (op_format op)) (config (op_format op)) r c0;
            EvFree s]).
Proof.
  intros H Hr.
  destruct (cursorqh_foreach (op_format op) (cursorqh w)) as [ac|] eqn:Hf.
  - rewrite (worker_cursor_hit wt s op w st ac Hf) in H.
    injection H as <- _ _ _. contradiction Hr. reflexivity.
  - pose proof (worker_cursor_miss wt s op w st Hf) as Hm.
    destruct (__wt_calloc_def wt s (st_eng st)) as [rc e1].
    destruct (open_cursor wt s _ _ e1) as [[ro c0] e2].
    rewrite Hm in H. clear Hm.
    destruct (Z.eqb_spec rc 0) as [->|Hrc]; simpl in H.
    + destruct (Z.eqb_spec ro 0) as [->|Hro]; simpl in H.
      * injection H as <- _ _ _. contradiction Hr. reflexivity.
      * injection H as <- <- <- <-. repeat split.
        eexists. split; [reflexivity|]. right. exists c0. reflexivity.
    + injection H as <- <- <- <-. repeat split.
      eexists. split; [reflexivity|]. left. reflexivity.
Qed.

End CursorFailure.

Lemma worker_cursor_failure_witness :
  worker0 = worker0 /\ NULL = NULL /\
  exists d,
    st_trace (mkST (wt := toy 0 5 0 0) 101
                [EvCalloc 1 0; EvOpenCursor 1 "table:a" EmptyString 5 100; EvFree 1]) =
    st_trace (toy_init 0 5 0 0) ++ d /\
    (d = [EvCalloc 1 5] \/
     exists c0,
       d = [EvCalloc 1 0;
            EvOpenCursor 1 (uri (op_format (mk_op fmt_a WT_AOP_INSERT None)))
              (config (op_format (mk_op fmt_a WT_AOP_INSERT None))) 5 c0;
            EvFree 1]).
Proof.
  apply (worker_cursor_failure (toy 0 5 0 0) 1 (mk_op fmt_a WT_AOP_INSERT None)
           worker0 (toy_init 0 5 0 0) 5 worker0 NULL).
  - vm_compute. reflexivity.
  - lia.
Defined.

(** ** The flush barrier and the clients *)

Section Clients.

Context (wt : wt_internal).

Lemma run_workers_open sched (s s' : System wt) :
  run_workers sched s = Some s' -> rtc open_step s s'.
Proof.
  revert s. induction sched as [|i sched IH]; intros s; simpl.
  - intros [= ->]. apply rtc_refl.
  - destruct (worker_step wt i s) as [s1|] eqn:H1; [|discriminate].
    intros H. eapply rtc_l; [apply (open_worker i s s1 H1)|]. auto.
Qed.



Lemma count_occ_suffix (l1 l2 : list OPADDR) a :
  (count_occ Z.eq_dec l2 a <= count_occ Z.eq_dec (l1 ++ l2) a)%nat.
Proof. rewrite count_occ_app. apply Nat.le_add_l. Qed.

Lemma count_occ_snoc_ne (l : list OPADDR) a b :
  a <> b -> count_occ Z.eq_dec (l ++ [a]) b = count_occ Z.eq_dec l b.
Proof.
  intros Hne. rewrite count_occ_app. simpl.
  destruct (Z.eq_dec a b); [contradiction|]. apply Nat.add_0_r.
Qed.

Lemma in_snoc_ne (l : list OPADDR) a b :
  a <> b -> In b (l ++ [a]) <-> In b l.
Proof.
  intros Hne. rewrite in_app_iff. simpl. split; [|auto].
  intros [H|[H|[]]]; [exact H|contradiction].
Qed.

(** A step of a worker keeps the sentinel where [flush_sound] wants it. *)
Lemma flush_sound_worker i (s s' : System wt) :
  flush_sound s -> worker_step wt i s = Some s' -> flush_sound s'.
Proof.
  intros (Hocc & Hfl & Hsig & Hprog) H.
  apply worker_step_outcome in H.
  destruct H as (th & conn' & ops' & th' & st' & Hth & H & ->).
  destruct (thread_step_queue wt _ _ _ _ _ _ _ _ H)
    as (Hfo & _ & _ & taken & Hq & _).
  unfold flush_sound, sys_async in *. cbn [sys_conn sys_threads] in *.
  rewrite Hfo.
  assert (Hin : forall a, In a (opqh (async conn')) ->
                          In a (opqh (async (sys_conn s)))).
  { intros a Ha. rewrite Hq. apply in_or_app. right. exact Ha. }
  assert (Hocc' : (count_occ Z.eq_dec (opqh (async conn'))
                     (flush_op (async (sys_conn s))) <= 1)%nat).
  { pose proof (count_occ_suffix taken (opqh (async conn'))
                  (flush_op (async (sys_conn s)))) as Hle.
    rewrite <- Hq in Hle. lia. }
  destruct (thread_step_flush_word wt _ _ _ _ _ _ _ _ H)
    as [(Hw & Hpc')|[(Hw & Hq' & Hpc')|(Hw & Hf & _ & Hpc & Hpc' & Hc & Hq')]].
  - assert (Hf' : flushing (async conn') = flushing (async (sys_conn s))).
    { unfold flushing. rewrite Hw. reflexivity. }
    assert (Hc' : flush_complete (async conn') =
                  flush_complete (async (sys_conn s))).
    { unfold flush_complete. rewrite Hw. reflexivity. }
    rewrite Hf', Hc', Hw. split; [exact Hocc'|].
    split; [intros Hf Ha; apply (Hfl Hf); auto|]. split.
    + apply Forall_insert.
      * eapply Forall_impl; [exact Hsig|]. intros x Hx Hpx.
        destruct (Hx Hpx) as [Hx1 Hx2]. split; [exact Hx1|]. intros Ha. auto.
      * intros Hs. contradiction.
    + intros Ha. apply Hprog. auto.
  - assert (Hnot : ~ In (flush_op (async (sys_conn s))) (opqh (async conn'))).
    { apply (count_occ_not_In Z.eq_dec). rewrite Hq' in Hocc. simpl in Hocc.
      destruct (Z.eq_dec (flush_op (async (sys_conn s)))
                  (flush_op (async (sys_conn s)))); [lia|contradiction]. }
    split; [exact Hocc'|]. split; [intros _; exact Hnot|]. split.
    + apply Forall_insert.
      * eapply Forall_impl; [exact Hsig|]. intros x Hx Hpx.
        destruct (Hx Hpx) as [_ Hx2]. exfalso. apply Hx2. rewrite Hq'. left.
        reflexivity.
      * intros Hs. contradiction.
    + intros Ha. contradiction.
  - assert (Hf' : flushing (async conn') = false).
    { unfold flushing. rewrite Hw. apply flush_word_last. }
    rewrite Hf', Hq'. split; [rewrite <- Hq'; exact Hocc'|].
    split; [discriminate|]. split.
    + apply Forall_insert.
      * eapply Forall_impl; [exact Hsig|]. intros x Hx Hpx.
        destruct (Hx Hpx) as [_ Hx2]. split; [reflexivity|exact Hx2].
      * intros _. split; [reflexivity|]. apply Hfl. exact Hf.
    + intros Ha. exfalso. apply (Hfl Hf). exact Ha.
Qed.

Lemma enqueue_inv a (s s' : System wt) :
  enqueue a s = Some s' ->
  opqh (sys_async s') = opqh (sys_async s) ++ [a] /\
  opsq_flush (sys_async s') = opsq_flush (sys_async s) /\
  flush_op (sys_async s') = flush_op (sys_async s) /\
  sys_threads s' = sys_threads s.
Proof.
  unfold enqueue. destruct (sys_ops s !! a) as [op|]; [|discriminate].
  intros [= <-]. repeat split.
Qed.

(** A quiet step of the pool with its clients keeps it so too. *)
Lemma flush_sound_quiet (s s' : System wt) :
  flush_sound s -> quiet_step s s' -> flush_sound s'.
Proof.
  intros Hs [Hstep Hquiet]. revert Hs Hquiet.
  destruct Hstep as [i s s' H|f s|a op s s' Ha Hop Hfree H|s s' Hz H|s Hc];
    intros Hs Hquiet.
  - eapply flush_sound_worker; eauto.
  - exact Hs.
  - destruct (enqueue_inv a s s' H) as (Hq & Hw & Hfo & Hths).
    destruct Hs as (Hocc & Hfl & Hsig & Hprog).
    unfold flush_sound, flushing, flush_complete.
    rewrite Hq, Hw, Hfo, Hths.
    rewrite count_occ_snoc_ne by exact Ha.
    split; [exact Hocc|].
    split; [intros Hf Hin; apply (Hfl Hf), (in_snoc_ne _ a); assumption|].
    split.
    + eapply Forall_impl; [exact Hsig|]. intros x Hx Hpx.
      destruct (Hx Hpx) as [Hx1 Hx2]. split; [exact Hx1|].
      intros Hin. apply Hx2, (in_snoc_ne _ a); assumption.
    + intros Hin. apply Hprog, (in_snoc_ne _ a); assumption.
  - destruct Hs as (Hocc & Hfl & Hsig & Hprog).
    assert (Hnot : ~ In (flush_op (sys_async s)) (opqh (sys_async s))).
    { intros Hin. destruct (Hprog Hin) as [Hp _].
      rewrite Hz in Hp. discriminate Hp. }
    unfold flush_begin in H.
    destruct (enqueue_inv _ _ s' H) as (Hq & Hw & Hfo & Hths).
    unfold sys_async in Hq, Hw, Hfo. cbn in Hq, Hw, Hfo, Hths.
    assert (Hquiet' : Forall (fun th => th_pc th <> AT_SIGNAL) (sys_threads s)).
    { apply Hquiet; [exact Hnot|]. unfold sys_async at 2. rewrite Hq.
      apply in_or_app. right. left. reflexivity. }
    unfold flush_sound, flushing, flush_complete, sys_async.
    rewrite Hq, Hw, Hfo, Hths.
    split.
    { apply (count_occ_not_In Z.eq_dec) in Hnot.
      unfold sys_async in Hnot.
      apply Nat.eq_le_incl.
      etransitivity; [apply count_occ_app|].
      etransitivity; [apply (f_equal2 Nat.add Hnot eq_refl)|].
      simpl. destruct (Z.eq_dec _ _); [reflexivity|contradiction]. }
    split; [intros Hf; vm_compute in Hf; discriminate Hf|].
    split.
    + eapply Forall_impl; [exact Hquiet'|]. intros x Hx Hpx. contradiction.
    + intros _. split; reflexivity.
  - destruct Hs as (Hocc & Hfl & Hsig & Hprog).
    assert (Hnot : ~ In (flush_op (sys_async s)) (opqh (sys_async s))).
    { intros Hin. destruct (Hprog Hin) as [_ Hp]. congruence. }
    unfold flush_sound, flush_end, flushing, flush_complete, sys_async in *.
    cbn [sys_conn sys_threads async set_async set_flush_count set_opsq_flush
         opqh opsq_flush flush_op] in *.
    split; [exact Hocc|].
    split; [intros Hf; vm_compute in Hf; discriminate Hf|].
    split.
    + eapply Forall_impl; [exact Hsig|]. intros x Hx Hpx.
      split; [reflexivity|exact Hnot].
    + intros Hin. contradiction.
Qed.

Lemma flush_sound_run (s s' : System wt) :
  flush_sound s -> rtc quiet_step s s' -> flush_sound s'.
Proof.
  intros Hs H. induction H as [|s1 s2 s3 H12 _ IH]; [exact Hs|].
  apply IH. eapply flush_sound_quiet; eauto.
Qed.

(** Workers never put anything on the queue: their steps are quiet. *)
Lemma worker_step_quiet i (s s' : System wt) :
  worker_step wt i s = Some s' -> quiet_step s s'.
Proof.
  intros H. split; [apply (open_worker i s s' H)|].
  intros Hnot Hin. exfalso. apply Hnot.
  apply worker_step_outcome in H.
  destruct H as (th & conn' & ops' & th' & st' & Hth & H & ->).
  destruct (thread_step_queue wt _ _ _ _ _ _ _ _ H)
    as (_ & _ & _ & taken & Hq & _).
  unfold sys_async in *. cbn [sys_conn] in Hin. rewrite Hq.
  apply in_or_app. right. exact Hin.
Qed.

Lemma run_workers_quiet sched (s s' : System wt) :
  run_workers sched s = Some s' -> rtc quiet_step s s'.
Proof.
  revert s. induction sched as [|i sched IH]; intros s; simpl.
  - intros [= ->]. apply rtc_refl.
  - destruct (worker_step wt i s) as [s1|] eqn:H1; [|discriminate].
    intros H. eapply rtc_l; [apply (worker_step_quiet i s s1 H1)|]. auto.
Qed.

(** X15: the flush barrier holds as long as no flush is enqueued while a
    worker stands between its unlock of line 221 and its lock of line 225.
    Take a pool with its clients (enqueues, flushes that begin and end,
    writes of the connection flags) that starts with the sentinel in its
    place, and a run of it in which no step puts the sentinel on the queue
    while a worker is about to signal.  Then the sentinel is still in its
    place, and every step a worker takes while FLUSHING is set leaves the
    queue as it is. *)
Theorem no_dequeue_while_flushing (s0 s : System wt) :
  flush_sound s0 ->
  rtc quiet_step s0 s ->
  flush_sound s /\
  forall i s',
    worker_step wt i s = Some s' ->
    flushing (sys_async s) = true ->
    opqh (sys_async s') = opqh (sys_async s).
Proof.
  intros H0 Hr. pose proof (flush_sound_run s0 s H0 Hr) as Hsound.
  split; [exact Hsound|]. intros i s' H Hf.
  apply worker_step_outcome in H.
  destruct H as (th & conn' & ops' & th' & st' & Hth & H & ->).
  unfold sys_async in *. cbn [sys_conn].
  destruct (thread_step_dequeue wt _ _ _ _ _ _ _ _ H)
    as [(Hq & _)|(_ & _ & [(_ & _ & Hc)|[Hpc|(_ & Hc)]])];
    [exact Hq|congruence| |congruence].
  destruct Hsound as (_ & _ & Hsig & _).
  pose proof (Forall_lookup_1 _ _ _ _ Hsig Hth Hpc) as [Hc _].
  unfold sys_async in Hc. congruence.
Qed.

End Clients.

(** ** The run flag *)

Section Shutdown.

Context (wt : wt_internal).

Lemma FLD_ISSET_CLR f m : FLD_ISSET (FLD_CLR f m) m = false.
Proof.
  unfold FLD_ISSET, FLD_CLR.
  rewrite <- Z.land_assoc, (Z.land_comm (Z.lnot m) m), Z.land_lnot_diag,
    Z.land_0_r. reflexivity.
Qed.

Lemma budget_at_thread ths i th th' :
  ths !! i = Some th ->
  (dequeue_budget (<[i := th']> ths) + (if past_loop_test th then 1 else 0) =
   dequeue_budget ths + (if past_loop_test th' then 1 else 0))%nat.
Proof.
  intros Hth. unfold dequeue_budget.
  rewrite insert_take_drop by (eapply lookup_lt_Some; exact Hth).
  rewrite <- (take_drop_middle ths i th Hth) at 3.
  rewrite !List.filter_app, !length_app. simpl.
  destruct (past_loop_test th), (past_loop_test th'); simpl; lia.
Qed.

(** With the run flag clear, FLUSHING set and no thread about to signal,
    a step from the loop test, from the flush wait or out of the handler
    leaves the connection as it is. *)
Lemma abandoned_worker i (s s' : System wt) :
  server_run s = false ->
  flushing (sys_async s) = true ->
  Forall (fun th => th_pc th <> AT_SIGNAL) (sys_threads s) ->
  worker_step wt i s = Some s' ->
  sys_conn s' = sys_conn s /\
  Forall (fun th => th_pc th <> AT_SIGNAL) (sys_threads s').
Proof.
  intros Hrun Hf Hsig H.
  apply worker_step_outcome in H.
  destruct H as (th & conn' & ops' & th' & st' & Hth & H & ->).
  unfold server_run, sys_async in *. cbn [sys_conn sys_threads] in *.
  pose proof (Forall_lookup_1 _ _ _ _ Hsig Hth) as Hpc.
  assert (Hc : conn' = sys_conn s /\ th_pc th' <> AT_SIGNAL).
  { destruct (thread_step_dequeue wt _ _ _ _ _ _ _ _ H)
      as [_|(_ & _ & [(_ & Hr & _)|[Hp|(_ & Hc)]])];
      [|congruence|contradiction|congruence].
    destruct (thread_step_flush_word wt _ _ _ _ _ _ _ _ H)
      as [(_ & Hpc')|[(_ & _ & Hpc')|(_ & _ & Hr & _)]]; [| |congruence].
    - split; [|exact Hpc'].
      destruct H; try reflexivity; try congruence;
        match goal with
        | He : dequeue_entry _ _ _ _ _ |- _ =>
            destruct (dequeue_entry_facts wt _ _ _ _ _ He)
              as (_ & _ & _ & [(_ & Hr & _)|[Hp|(_ & Hc)]]);
            [congruence|contradiction|congruence]
        end.
    - split; [|exact Hpc'].
      destruct H; try reflexivity; try congruence;
        match goal with
        | He : dequeue_entry _ _ _ _ _ |- _ =>
            destruct (dequeue_entry_facts wt _ _ _ _ _ He)
              as (_ & _ & _ & [(_ & Hr & _)|[Hp|(_ & Hc)]]);
            [congruence|contradiction|congruence]
        end. }
  destruct Hc as [-> Hpc'].
  split; [reflexivity|]. apply Forall_insert; assumption.
Qed.

(** A step of a worker takes one entry at most, and only as a thread that
    stood between the loop test and the dequeue, or that finds the run
    flag set. *)
Lemma budget_worker i (s s' : System wt) :
  worker_step wt i s = Some s' ->
  conn_flags (sys_conn s') = conn_flags (sys_conn s) /\
  exists t,
    opqh (sys_async s) = t ++ opqh (sys_async s') /\
    (length t + dequeue_budget (sys_threads s') <=
     dequeue_budget (sys_threads s) + 1)%nat /\
    (server_run s = false ->
     (length t + dequeue_budget (sys_threads s') <=
      dequeue_budget (sys_threads s))%nat).
Proof.
  intros H. apply worker_step_outcome in H.
  destruct H as (th & conn' & ops' & th' & st' & Hth & H & ->).
  unfold server_run, sys_async in *. cbn [sys_conn sys_threads] in *.
  destruct (thread_step_queue wt _ _ _ _ _ _ _ _ H) as (_ & Hfl & _ & _).
  split; [exact Hfl|].
  pose proof (budget_at_thread (sys_threads s) i th th' Hth) as Hb.
  destruct (thread_step_dequeue wt _ _ _ _ _ _ _ _ H)
    as [(Hq & Hp)|((a & Hq) & Hp' & Hpc)].
  - exists []. split; [rewrite Hq; reflexivity|]. simpl. split.
    + destruct (past_loop_test th), (past_loop_test th'); lia.
    + intros Hrun. destruct (past_loop_test th') eqn:Hp'; [|lia].
      destruct (Hp eq_refl) as [->|Hr]; [|congruence].
      rewrite Hp' in Hb. lia.
  - exists [a]. split; [exact Hq|]. simpl. rewrite Hp' in Hb. split.
    + destruct (past_loop_test th); lia.
    + intros Hrun.
      assert (Hp : past_loop_test th = true).
      { unfold past_loop_test.
        destruct Hpc as [(_ & Hr & _)|[->|(-> & _)]];
          [congruence|reflexivity|reflexivity]. }
      rewrite Hp in Hb. lia.
Qed.

(** The step of a thread that has passed the test leaves the flags as
    they are and takes one entry at most. *)
Lemma budget_late i (s s' : System wt) :
  late_step i s = Some s' ->
  conn_flags (sys_conn s') = conn_flags (sys_conn s) /\
  exists t,
    opqh (sys_async s) = t ++ opqh (sys_async s') /\
    (length t + dequeue_budget (sys_threads s') <=
     dequeue_budget (sys_threads s) + 1)%nat.
Proof.
  unfold late_step.
  destruct (worker_step wt i (with_flags _ s)) as [s1|] eqn:H1; [|discriminate].
  intros [= <-]. split; [reflexivity|].
  destruct (budget_worker i _ s1 H1) as (_ & t & Hq & Hb & _).
  exists t. split; [exact Hq|exact Hb].
Qed.

Lemma fine_step_budget (p p' : Pool wt) :
  server_run (pool_sys p) = false ->
  fine_step p p' ->
  server_run (pool_sys p') = false /\
  exists t,
    opqh (sys_async (pool_sys p)) = t ++ opqh (sys_async (pool_sys p')) /\
    (length t + pool_budget p' <= pool_budget p)%nat.
Proof.
  intros Hrun Hstep. revert Hrun.
  destruct Hstep as [i p th Hth Hpc Hin Hr|i p th s' Hin Hth Hpc H
                    |i p s' Hin H|p]; intros Hrun;
    unfold pool_budget; cbn [pool_sys pool_passed].
  - congruence.
  - destruct (budget_late i _ s' H) as (Hfl & t & Hq & Hb).
    split; [unfold server_run in *; rewrite Hfl; exact Hrun|].
    exists t. split; [exact Hq|].
    pose proof (remove_length_lt Nat.eq_dec (pool_passed p) i Hin). lia.
  - destruct (budget_worker i _ s' H) as (Hfl & t & Hq & _ & Hb).
    split; [unfold server_run in *; rewrite Hfl; exact Hrun|].
    exists t. split; [exact Hq|]. specialize (Hb Hrun). lia.
  - split; [apply FLD_ISSET_CLR|]. exists []. split; [reflexivity|].
    simpl. lia.
Qed.

(** X16: a flush that is under way when the run flag is cleared, no
    worker standing between the loop test and the lock, is never completed
    by the workers.  From a pool with the run flag clear, FLUSHING set, no
    worker past the loop test and none about to signal, no step changes
    the async structure: FLUSHING stays set, COMPLETE is not set, the count
    does not move and nothing is taken off the queue. *)
Theorem shutdown_abandons_flush (p p' : Pool wt) :
  flush_abandoned p ->
  rtc fine_step p p' ->
  flush_abandoned p' /\
  sys_async (pool_sys p') = sys_async (pool_sys p).
Proof.
  intros Ha H. induction H as [|p1 p2 p3 H12 _ IH]; [auto|].
  assert (H2 : flush_abandoned p2 /\
               sys_async (pool_sys p2) = sys_async (pool_sys p1)).
  { revert Ha.
    destruct H12 as [i p th Hth Hpc Hin Hr|i p th s' Hin Hth Hpc H
                    |i p s' Hin H|p]; intros (Hrun & Hf & Hsig & Hpass).
    - congruence.
    - rewrite Hpass in Hin. destruct Hin.
    - destruct (abandoned_worker i _ s' Hrun Hf Hsig H) as [Hc Hsig'].
      unfold flush_abandoned, server_run, sys_async in *.
      cbn [pool_sys pool_passed]. rewrite Hc. auto.
    - unfold flush_abandoned, server_run, sys_async, shutdown in *.
      cbn [pool_sys pool_passed sys_conn sys_threads conn_flags
           set_conn_flags async] in *.
      repeat split; try assumption. apply FLD_ISSET_CLR. }
  destruct H2 as [Ha2 E2]. destruct (IH Ha2) as [Ha3 E3].
  split; [exact Ha3|congruence].
Qed.

(** X17: once the run flag is clear, the pool takes at most one more
    entry off the queue for each thread that stands between the loop test
    and the dequeue: it has passed the loop test and not yet taken the
    lock, or it has just signalled, or it waits in the flush wait of line
    232.  The number of entries taken in any run from there, plus the
    number of such threads left, is at most their number at the start. *)
Theorem dequeues_after_shutdown_bounded (p p' : Pool wt) :
  server_run (pool_sys p) = false ->
  rtc fine_step p p' ->
  server_run (pool_sys p') = false /\
  exists taken,
    opqh (sys_async (pool_sys p)) =
      taken ++ opqh (sys_async (pool_sys p')) /\
    (length taken + pool_budget p' <= pool_budget p)%nat.
Proof.
  intros Hrun H. induction H as [p|p1 p2 p3 H12 _ IH].
  - split; [exact Hrun|]. exists []. split; [reflexivity|simpl; lia].
  - destruct (fine_step_budget p1 p2 Hrun H12) as (Hrun2 & t1 & Hq1 & Hb1).
    destruct (IH Hrun2) as (Hrun3 & t2 & Hq2 & Hb2).
    split; [exact Hrun3|]. exists (t1 ++ t2).
    split; [rewrite Hq1, Hq2, app_assoc; reflexivity|].
    rewrite length_app. lia.
Qed.

Lemma rtc_transitive {A} {R : relation A} x y z :
  rtc R x y -> rtc R y z -> rtc R x z.
Proof. intros H1 H2. etrans; eassumption. Qed.

Lemma run_workers_fine sched (s s' : System wt) :
  run_workers sched s = Some s' -> rtc fine_step (mkPool s []) (mkPool s' []).
Proof.
  revert s. induction sched as [|i sched IH]; intros s; simpl.
  - intros [= ->]. apply rtc_refl.
  - destruct (worker_step wt i s) as [s1|] eqn:H1; [|discriminate].
    intros H. eapply rtc_l; [|apply IH; exact H].
    apply (fine_worker i (mkPool s []) s1); [intros []|exact H1].
Qed.

End Shutdown.

(** The dequeue after the signal is made with FLUSHING set when a new
    flush has been armed meanwhile.  Two workers have completed a flush:
    the first, the last to arrive, has set COMPLETE, cleared FLUSHING and
    released the lock, and stands before its signal.  The initiator sees
    COMPLETE and clears the flags; a second flush begins, and an insert is
    enqueued behind its sentinel.  The second worker wakes, comes back to
    the loop and takes the sentinel: FLUSHING is set.  The first worker
    now signals, locks and takes the insert, and runs the handler on it,
    all with FLUSHING set. *)
Example dequeue_after_signal_while_flushing :
  rtc open_step sys_pair sys_pair_rearmed /\
  flushing (sys_async sys_pair_rearmed) = true /\
  opqh (sys_async sys_pair_rearmed) = [2000] /\
  th_pc <$> sys_threads sys_pair_rearmed =
    [AT_SIGNAL; AT_FLUSH_WAIT (FROM_ARM 1000)] /\
  worker_step toy_ok 0 sys_pair_rearmed = Some sys_pair_taken /\
  opqh (sys_async sys_pair_taken) = [] /\
  th_pc <$> sys_threads sys_pair_taken =
    [AT_OP 2000; AT_FLUSH_WAIT (FROM_ARM 1000)] /\
  flushing (sys_async sys_pair_taken) = true /\
  worker_step toy_ok 0 sys_pair_taken = Some sys_pair_ran /\
  exists d, st_trace (sys_st sys_pair_ran) =
            st_trace (sys_st sys_pair_taken) ++ d /\
            handled d = [2000].
Proof.
  split.
  { apply (rtc_transitive sys_pair sys_pair_last).
    { apply (run_workers_open toy_ok [0%nat; 1%nat; 0%nat; 0%nat]).
      vm_compute. reflexivity. }
    apply (rtc_l open_step sys_pair_last sys_pair_reset).
    { apply (open_flush_end sys_pair_last). vm_compute. reflexivity. }
    apply (rtc_l open_step sys_pair_reset sys_pair_again).
    { apply (open_flush_begin sys_pair_reset sys_pair_again);
        vm_compute; reflexivity. }
    apply (rtc_l open_step sys_pair_again sys_pair_more).
    { apply (open_enqueue 2000
               (mkOp (mkCursor item_k item_x 0) fmt_a WT_ASYNCOP_FREE
                  WT_AOP_INSERT None)
               sys_pair_again sys_pair_more).
      - vm_compute. discriminate.
      - vm_compute. reflexivity.
      - reflexivity.
      - vm_compute. reflexivity. }
    apply (run_workers_open toy_ok [1%nat; 1%nat; 1%nat]).
    vm_compute. reflexivity. }
  split; [vm_compute; reflexivity|].
  split; [vm_compute; reflexivity|].
  split; [vm_compute; reflexivity|].
  split; [vm_compute; reflexivity|].
  split; [vm_compute; reflexivity|].
  split; [vm_compute; reflexivity|].
  split; [vm_compute; reflexivity|].
  split; [vm_compute; reflexivity|].
  exists [EvWorkerOp 1 2000; EvTxnBegin 1 0; EvSetRawKey 100 item_k;
          EvSetRawValue 100 item_x; EvInsert 100 0; EvTxnCommit 1 0;
          EvReset 100 0; EvYield 1].
  split; vm_compute; reflexivity.
Qed.


Lemma no_dequeue_while_flushing_witness :
  flush_sound sys_calm_rearmed /\
  forall i s',
    worker_step toy_ok i sys_calm_rearmed = Some s' ->
    flushing (sys_async sys_calm_rearmed) = true ->
    opqh (sys_async s') = opqh (sys_async sys_calm_rearmed).
Proof.
  apply (no_dequeue_while_flushing toy_ok sys_pair sys_calm_rearmed).
  - split; [vm_compute; lia|]. split; [vm_compute; discriminate|].
    split; [repeat constructor; vm_compute; discriminate|].
    intros _. vm_compute. split; reflexivity.
  - apply (rtc_transitive sys_pair sys_pair_last).
    { apply (run_workers_quiet toy_ok [0%nat; 1%nat; 0%nat; 0%nat]).
      vm_compute. reflexivity. }
    apply (rtc_transitive sys_pair_last sys_calm).
    { apply (run_workers_quiet toy_ok [0%nat]). vm_compute. reflexivity. }
    apply (rtc_l quiet_step sys_calm sys_calm_reset).
    { split.
      - apply (open_flush_end sys_calm). vm_compute. reflexivity.
      - intros _ Hin. vm_compute in Hin. destruct Hin. }
    apply (rtc_l quiet_step sys_calm_reset sys_calm_again).
    { split.
      - apply (open_flush_begin sys_calm_reset sys_calm_again);
          vm_compute; reflexivity.
      - intros _ _. repeat constructor; vm_compute; discriminate. }
    apply (rtc_l quiet_step sys_calm_again sys_calm_more).
    { split.
      - apply (open_enqueue 2000
                 (mkOp (mkCursor item_k item_x 0) fmt_a WT_ASYNCOP_FREE
                    WT_AOP_INSERT None)
                 sys_calm_again sys_calm_more).
        + vm_compute. discriminate.
        + vm_compute. reflexivity.
        + reflexivity.
        + vm_compute. reflexivity.
      - intros Hn. exfalso. apply Hn. vm_compute. left. reflexivity. }
    apply (run_workers_quiet toy_ok [1%nat; 1%nat; 1%nat]).
    vm_compute. reflexivity.
Defined.

Lemma shutdown_abandons_flush_witness :
  flush_abandoned pool_pair_left /\
  sys_async (pool_sys pool_pair_left) = sys_async (pool_sys pool_pair_stopped).
Proof.
  apply (shutdown_abandons_flush toy_ok pool_pair_stopped pool_pair_left).
  - split; [vm_compute; reflexivity|]. split; [vm_compute; reflexivity|].
    split; [repeat constructor; vm_compute; discriminate|reflexivity].
  - apply (run_workers_fine toy_ok [0%nat; 0%nat; 1%nat]).
    vm_compute. reflexivity.
Defined.

Lemma dequeues_after_shutdown_bounded_witness :
  server_run (pool_sys pool_pair_took) = false /\
  exists taken,
    opqh (sys_async (pool_sys pool_pair_late)) =
      taken ++ opqh (sys_async (pool_sys pool_pair_took)) /\
    (length taken + pool_budget pool_pair_took <=
     pool_budget pool_pair_late)%nat.
Proof.
  apply (dequeues_after_shutdown_bounded toy_ok pool_pair_late pool_pair_took).
  - vm_compute. reflexivity.
  - apply rtc_once.
    apply (fine_late 0 pool_pair_late (mkThread 1 AT_LOOP worker0)
             (default sys_pair (late_step 0 (shutdown toy_ok sys_pair)))).
    + left. reflexivity.
    + reflexivity.
    + reflexivity.
    + vm_compute. reflexivity.
Defined.

(** A worker that has passed the loop test when the run flag is cleared
    still takes the lock and counts itself: here it is the last of the two
    workers and completes the flush after the shutdown. *)
Example passed_worker_completes_flush :
  rtc fine_step (mkPool sys_pair_done []) (mkPool sys_pair_counted []) /\
  flushing (sys_async sys_pair_done) = true /\
  server_run sys_pair_counted = false /\
  flushing (sys_async sys_pair_counted) = false /\
  flush_complete (sys_async sys_pair_counted) = true /\
  th_pc <$> sys_threads sys_pair_counted =
    [AT_SIGNAL; AT_FLUSH_WAIT (FROM_ARM 1000)].
Proof.
  split.
  { apply (rtc_l fine_step _ (mkPool sys_pair_done [0%nat])).
    { apply (fine_test 0 (mkPool sys_pair_done [])
               (mkThread 1 AT_LOOP (mkWorker [mkAc 9 7 100] 1))).
      - vm_compute. reflexivity.
      - reflexivity.
      - intros [].
      - vm_compute. reflexivity. }
    apply (rtc_l fine_step _ (mkPool (shutdown toy_ok sys_pair_done) [0%nat])).
    { apply (fine_shutdown (mkPool sys_pair_done [0%nat])). }
    apply rtc_once.
    apply (fine_late 0 (mkPool (shutdown toy_ok sys_pair_done) [0%nat])
             (mkThread 1 AT_LOOP (mkWorker [mkAc 9 7 100] 1))
             sys_pair_counted).
    - left. reflexivity.
    - vm_compute. reflexivity.
    - reflexivity.
    - vm_compute. reflexivity. }
  split; [vm_compute; reflexivity|].
  split; [vm_compute; reflexivity|].
  split; [vm_compute; reflexivity|].
  split; vm_compute; reflexivity.
Qed.
